(** * Heartbeat (QRS) detection of [mne/preprocessing/ecg.py]

    A shallow embedding of [qrs_detector], [find_ecg_events],
    [_ecg_segment_window] and [annotate_ecg], and the properties of
    their specification.

    Number model.  Python [int] values (sample indices, counts) are
    [Z]; the items of numpy's [int64] arrays wrap around where the
    source adds to them.  Python [float] and numpy [float64] values
    (samples, rates, thresholds, seconds) are read in two ways.

    - Module [B64] reads them as binary64 numbers, Rocq's primitive
      floats: every operation of the source rounds as it does in the
      interpreter.  The reductions of numpy whose order of summation
      the source does not fix ([np.mean], [np.std], the dot product of
      [sum_squared]) and the band-pass filter are parameters.  The
      properties that depend on the values computed (the sizes, the
      threshold fractions, the outlier threshold, the choice among
      the runs, the heartbeat window) are stated on this reading.

    - Module [Ecg] reads them as exact rationals [Q], with the square
      root and the filter as parameters.  It carries the properties of
      the control flow and of the lists and positions, which hold
      whatever a threshold or an RMS value rounds to. *)

From Stdlib Require Import Floats.
From Stdlib Require Import String ZArith QArith Qround Qabs Qpower List Bool Lia Lqa.
From Stdlib Require Import Sorted Permutation.
Import ListNotations.

Set Implicit Arguments.

(** ** Python and numpy primitives used by the source *)

Module Py.

(** The exceptions the modelled code can raise. *)
Inductive exn : Type :=
| ValueError_zero_size      (* reduction (max, argmax, argmin) of an empty array *)
| ValueError_threshold      (* 'threshold value must be "auto" or a float' *)
| ValueError_broadcast      (* shapes that do not agree in an assignment *)
| IndexError
| ZeroDivisionError
| AssertionError
| OverflowError             (* [int] or [round] of an infinity *)
| ValueError_nan            (* [int] or [round] of NaN *)
| CastError.                (* an in-place sum that cannot stay in the array's dtype *)

(** Outcome of a call: a value, an exception, or a loop that did not
    finish within its fuel. *)
Inductive outcome (A : Type) : Type :=
| Returns (a : A)
| Raises (e : exn)
| Diverges.

Arguments Raises {A} e.
Arguments Diverges {A}.

Definition bind {A B : Type} (m : outcome A) (k : A -> outcome B) : outcome B :=
  match m with
  | Returns a => k a
  | Raises e => Raises e
  | Diverges => Diverges
  end.

Declare Scope py_scope.
Delimit Scope py_scope with py.
Notation "x <- m ;; k" := (bind m (fun x => k))
  (at level 61, m at next level, right associativity) : py_scope.
Notation "' p <- m ;; k" := (bind m (fun x => let p := x in k))
  (at level 61, p pattern, m at next level, right associativity) : py_scope.

(** [a > b] and [a < b] on floats. *)
Definition Qltb (a b : Q) : bool := negb (Qle_bool b a).
Definition Qgtb (a b : Q) : bool := Qltb b a.

(** [int(x)]: truncation towards zero. *)
Definition py_int (x : Q) : Z := Z.quot (Qnum x) (Z.pos (Qden x)).

(** [round(x)] of Python 3: nearest integer, halves to the even one. *)
Definition py_round (x : Q) : Z :=
  let f := Qfloor x in
  match Qcompare (x - inject_Z f) (1 # 2) with
  | Lt => f
  | Gt => (f + 1)%Z
  | Eq => if Z.even f then f else (f + 1)%Z
  end.

(** Bound of a slice: a negative bound counts from the end, and bounds
    are clipped to the sequence. *)
Definition clip_index (len i : Z) : Z :=
  if (i <? 0)%Z then Z.max 0 (i + len) else Z.min i len.

(** [l[start:stop]]; [None] for an omitted bound. *)
Definition py_slice {A : Type} (l : list A) (start stop : option Z) : list A :=
  let n := Z.of_nat (length l) in
  let s := match start with None => 0%Z | Some i => clip_index n i end in
  let e := match stop with None => n | Some j => clip_index n j end in
  firstn (Z.to_nat (e - s)) (skipn (Z.to_nat s) l).

(** [l[i]] for an integer [i]: negative indices count from the end. *)
Definition py_index {A : Type} (l : list A) (i : Z) : outcome A :=
  let n := Z.of_nat (length l) in
  let j := if (i <? 0)%Z then (i + n)%Z else i in
  if ((0 <=? j) && (j <? n))%Z
  then match nth_error l (Z.to_nat j) with
       | Some x => Returns x
       | None => Raises IndexError
       end
  else Raises IndexError.

Definition len {A : Type} (l : list A) : Z := Z.of_nat (length l).

End Py.

Module Np.
Import Py.
Local Open Scope py_scope.

(** dtype of an index array: [np.array] of Python ints is an integer
    array, [np.array] of a list holding a float is a float array. *)
Inductive dtype : Type := Int64 | Float64.

(** The range of an [int64] item, and the wrap-around of its
    arithmetic. *)
Definition int64 (z : Z) : bool := ((- 2 ^ 63 <=? z) && (z <? 2 ^ 63))%Z.

Definition wrap64 (z : Z) : Z := ((z + 2 ^ 63) mod 2 ^ 64 - 2 ^ 63)%Z.

(** [np.max]: raises on an empty array. *)
Definition Qmax (a b : Q) : Q := if Qltb a b then b else a.

Definition np_max (l : list Q) : outcome Q :=
  match l with
  | [] => Raises ValueError_zero_size
  | x :: r => Returns (fold_left Qmax r x)
  end.

(** [np.argmax]: index of the first occurrence of the maximum. *)
Fixpoint argmax_from (best : Q) (besti i : Z) (l : list Q) : Z :=
  match l with
  | [] => besti
  | x :: r => if Qgtb x best then argmax_from x i (i + 1)%Z r
              else argmax_from best besti (i + 1)%Z r
  end.

Definition np_argmax (l : list Q) : outcome Z :=
  match l with
  | [] => Raises ValueError_zero_size
  | x :: r => Returns (argmax_from x 0%Z 1%Z r)
  end.

(** [np.argmin]: index of the first occurrence of the minimum. *)
Fixpoint argmin_from (best : Q) (besti i : Z) (l : list Q) : Z :=
  match l with
  | [] => besti
  | x :: r => if Qltb x best then argmin_from x i (i + 1)%Z r
              else argmin_from best besti (i + 1)%Z r
  end.

Definition np_argmin (l : list Q) : outcome Z :=
  match l with
  | [] => Raises ValueError_zero_size
  | x :: r => Returns (argmin_from x 0%Z 1%Z r)
  end.

Definition Qsum (l : list Q) : Q := fold_left Qplus l 0.
Definition Zsum (l : list Z) : Z := fold_left Z.add l 0%Z.

(** [np.mean]: sum over count. *)
Definition np_mean (l : list Q) : Q := Qsum l / inject_Z (len l).

(** [np.diff]: consecutive differences [l[j+1] - l[j]]. *)
Fixpoint np_diff (l : list Z) : list Z :=
  match l with
  | x :: ((y :: _) as r) => (y - x)%Z :: np_diff r
  | _ => []
  end.

(** [np.where(mask)[0]]: the positions holding [True], ascending. *)
Fixpoint where_from (i : Z) (mask : list bool) : list Z :=
  match mask with
  | [] => []
  | m :: r => if m then i :: where_from (i + 1)%Z r else where_from (i + 1)%Z r
  end.

Definition np_where (mask : list bool) : list Z := where_from 0%Z mask.

(** [a[idx]] for an integer index array [idx]. *)
Fixpoint np_take {A : Type} (a : list A) (idx : list Z) : outcome (list A) :=
  match idx with
  | [] => Returns []
  | i :: r => x <- py_index a i ;; xs <- np_take a r ;; Returns (x :: xs)
  end.

(** [a[mask]] for a boolean array [mask]: the shapes must agree. *)
Fixpoint mask_select {A : Type} (a : list A) (mask : list bool) : list A :=
  match a, mask with
  | x :: a', m :: mask' => if m then x :: mask_select a' mask' else mask_select a' mask'
  | _, _ => []
  end.

Definition np_mask {A : Type} (a : list A) (mask : list bool) : outcome (list A) :=
  if (length a =? length mask)%nat then Returns (mask_select a mask)
  else Raises IndexError.

(** [np.arange(start, stop, step)]: [ceil((stop - start) / step)]
    values [start + i * step]. *)
Definition np_arange (start stop step : Q) : list Q :=
  map (fun i => start + inject_Z (Z.of_nat i) * step)
      (seq 0 (Z.to_nat (Qceiling ((stop - start) / step)))).

(** [np.arange(start, stop)] on integers. *)
Definition np_arange_int (start stop : Z) : list Z :=
  map (fun i => (start + Z.of_nat i)%Z) (seq 0 (Z.to_nat (stop - start))).

(** [a[start:stop] = v]: the slice and [v] must have the same length,
    or [v] a single item, which is then repeated. *)
Definition slice_assign (a : list Z) (start stop : Z) (v : list Z)
  : outcome (list Z) :=
  let n := len a in
  let s := Z.to_nat (clip_index n start) in
  let m := Z.to_nat (clip_index n stop - clip_index n start) in
  if (length v =? m)%nat
  then Returns (firstn s a ++ v ++ skipn (s + m) a)
  else if (length v =? 1)%nat
  then Returns (firstn s a ++ repeat (hd 0%Z v) m ++ skipn (s + m) a)
  else Raises ValueError_broadcast.

(** Sorting, for [np.median]. *)
Fixpoint insert_sorted (x : Q) (l : list Q) : list Q :=
  match l with
  | [] => [x]
  | y :: r => if Qle_bool x y then x :: l else y :: insert_sorted x r
  end.

Definition np_sort (l : list Q) : list Q := fold_right insert_sorted [] l.

(** [np.median]: the middle of the sorted values, the mean of the two
    middle ones for an even count. *)
Definition np_median (l : list Q) : Q :=
  let s := np_sort l in
  let n := length s in
  if Nat.even n
  then np_mean [nth (n / 2 - 1) s 0; nth (n / 2) s 0]
  else nth (n / 2) s 0.

End Np.

(** ** The source functions *)

Module Ecg.
Import Py Np.
Local Open Scope py_scope.

(** The [thresh_value] argument: a string or a float. *)
Inductive thresh_spec : Type :=
| ThreshStr (s : string)
| ThreshFloat (q : Q).

(** Float division, raising on a zero divisor. *)
Definition py_div (a b : Q) : outcome Q :=
  if Qeq_bool b 0 then Raises ZeroDivisionError else Returns (a / b).

(** [_ecg_segment_window(heart_rate)]. *)
Definition _ecg_segment_window (heart_rate : Q) : outcome (Q * Q) :=
  let m := heart_rate / 60 in
  epochs_start <- py_div (-0.35) m ;;
  epochs_end <- py_div 0.5 m ;;
  if Qle_bool 80 heart_rate
  then let c := 0.1 in Returns (epochs_start - c, epochs_end + c)
  else Returns (epochs_start, epochs_end).

(** Modelled from the spec: [sum_squared] of [mne.utils], whose code is
    not part of the sources at hand; the window RMS is the square root
    of the mean of the squared samples, so [sum_squared] is the sum of
    the squares. *)
Definition sum_squared (x : list Q) : Q := Qsum (map (fun v => v * v) x).

(** The three lists a threshold run fills in its loop. *)
Record scan_lists : Type := mk_scan
  { time : list Z; numcross : list Z; rms : list Q }.

Definition no_peaks : scan_lists := mk_scan [] [] [].

Definition as_int (b : bool) : Z := if b then 1%Z else 0%Z.

(** The comparison mask of line 98, as the 0/1 integers it is cast to:
    [((window > thresh1).astype(np.int64) == 1).astype(int)]. *)
Definition above_mask (thresh1 : Q) (window : list Q) : list Z :=
  map as_int (map (fun z => (z =? 1)%Z)
    (map as_int (map (fun x => Qgtb x thresh1) window))).

(** [nx] of lines 98-99. *)
Definition crossings (thresh1 : Q) (window : list Q) : Z :=
  Zsum (np_diff (above_mask thresh1 window)).

(** An events array: its dtype and its sample indices. *)
Definition events : Type := (dtype * list Z)%type.

Fixpoint mapM {A B : Type} (f : A -> outcome B) (l : list A) : outcome (list B) :=
  match l with
  | [] => Returns []
  | x :: r => y <- f x ;; ys <- mapM f r ;; Returns (y :: ys)
  end.

(** Line 121: [60. * len(cev) / (len(ecg) / float(sfreq))]. *)
Definition implied_rate (sfreq : Q) (n_ecg : Z) (cev : events) : outcome Q :=
  d <- py_div (inject_Z n_ecg) sfreq ;;
  py_div (60 * inject_Z (len (snd cev))) d.

(** Line 125: [rates <= 160.] and [rates >= 40.]. *)
Definition in_band (r : Q) : bool := Qle_bool r 160 && Qle_bool 40 r.

(** Lines 120-132: the choice among the threshold runs. *)
Definition pick_best (sfreq : Q) (n_ecg : Z) (clean_events : list events)
  : outcome events :=
  rates <- mapM (implied_rate sfreq n_ecg) clean_events ;;
  let idx := np_where (map in_band rates) in
  band <- np_take rates idx ;;
  let ideal_rate := if (0 <? len idx)%Z then np_median band else 80 in
  idx <- np_argmin (map (fun r => Qabs (r - ideal_rate)) rates) ;;
  py_index clean_events idx.

(** Lines 78-83: the threshold values to try. *)
Definition thresh_runs_of (thresh_value : thresh_spec) : outcome (list Q) :=
  match thresh_value with
  | ThreshStr s =>
      if String.eqb s "auto" then Returns (np_arange 0.3 1.1 0.05)
      else Raises ValueError_threshold
  | ThreshFloat q => Returns [q]
  end.

Section Detector.

(** [np.sqrt]. *)
Variable sqrtQ : Q -> Q.

(** The call of [filter_data] in [qrs_detector], with its other
    arguments fixed. *)
Variable filter_data : list Q -> list Q.

(** [np.std]: [sqrt(mean(abs(x - x.mean()) ** 2))]. *)
Definition np_std (l : list Q) : Q :=
  let mu := np_mean l in
  sqrtQ (np_mean (map (fun x => Qabs (x - mu) * Qabs (x - mu)) l)).

Section Run.

Variables (ecg_abs : list Q) (win_size : Z) (thresh1 : Q).

(** Lines 93-104, from position [ii] with the lists filled so far. *)
Fixpoint scan_loop (fuel : nat) (ii : Z) (acc : scan_lists) : outcome scan_lists :=
  if (ii <? len ecg_abs - win_size)%Z then
    match fuel with
    | O => Diverges
    | S fuel' =>
        let window := py_slice ecg_abs (Some ii) (Some (ii + win_size)%Z) in
        w0 <- py_index window 0 ;;
        if Qgtb w0 thresh1 then
          max_time <- np_argmax window ;;
          let nx := crossings thresh1 window in
          let r := sqrtQ (sum_squared window / inject_Z (len window)) in
          scan_loop fuel' (ii + win_size)%Z
            (mk_scan (time acc ++ [(ii + max_time)%Z])
                     (numcross acc ++ [nx])
                     (rms acc ++ [r]))
        else scan_loop fuel' (ii + 1)%Z acc
    end
  else Returns acc.

End Run.

(** Lines 106-108: the entry added when the loop found no peak.  The
    appended [0.0] is a float, so [np.array(time)] is then a float
    array; otherwise every entry of [time] is an integer. *)
Definition with_sentinel (s : scan_lists) : scan_lists :=
  if (len (rms s) =? 0)%Z
  then mk_scan (time s ++ [0%Z]) (numcross s) (rms s ++ [0])
  else s.

Definition time_dtype (s : scan_lists) : dtype :=
  if (len (rms s) =? 0)%Z then Float64 else Int64.

(** Line 112. *)
Definition rms_thresh_of (levels : Q) (rms : list Q) : Q :=
  let rms_mean := np_mean rms in
  let rms_std := np_std rms in
  rms_mean + (rms_std * levels).

(** Lines 109-117: outlier rejection and the shift by the start offset. *)
Definition reject_outliers (levels : Q) (n_thresh n_samples_start : Z)
    (s : scan_lists) : outcome (list Z) :=
  let rms_thresh := rms_thresh_of levels (rms s) in
  let b := np_where (map (fun r => Qltb r rms_thresh) (rms s)) in
  a <- np_take (numcross s) b ;;
  keep <- np_mask b (map (fun x => (x <? n_thresh)%Z) a) ;;
  ce <- np_take (time s) keep ;;
  Returns (map (fun t => (t + n_samples_start)%Z) ce).

(** Lines 88-117: one threshold run. *)
Definition threshold_run (ecg_abs : list Q) (win_size : Z) (init_max levels : Q)
    (n_thresh n_samples_start : Z) (thresh_value : Q) : outcome events :=
  let thresh1 := init_max * thresh_value in
  s <- scan_loop ecg_abs win_size thresh1 (length ecg_abs) 0 no_peaks ;;
  ce <- reject_outliers levels n_thresh n_samples_start (with_sentinel s) ;;
  Returns (time_dtype s, ce).

(** Lines 57-67: the sizes derived from the sampling rate, and the
    rectified signal after the start offset. *)
Definition win_size_of (sfreq : Q) : Z := py_round ((60 * sfreq) / 120).
Definition init_of (sfreq : Q) : Z := py_int sfreq.
Definition n_samples_start_of (sfreq tstart : Q) : Z := py_int (sfreq * tstart).

Definition ecg_abs_of (sfreq tstart : Q) (ecg : list Q) : list Q :=
  py_slice (map Qabs (filter_data ecg)) (Some (n_samples_start_of sfreq tstart)) None.

(** Lines 71-76. *)
Definition init_max_of (ecg_abs : list Q) (init : Z) : outcome Q :=
  m0 <- np_max (py_slice ecg_abs None (Some init)) ;;
  m1 <- np_max (py_slice ecg_abs (Some init) (Some (init * 2)%Z)) ;;
  m2 <- np_max (py_slice ecg_abs (Some (init * 2)%Z) (Some (init * 3)%Z)) ;;
  Returns (np_mean [m0; m1; m2]).

(** Lines 57-118: the event arrays of all threshold runs. *)
Definition qrs_runs (sfreq : Q) (ecg : list Q) (thresh_value : thresh_spec)
    (levels : Q) (n_thresh : Z) (tstart : Q) : outcome (list events) :=
  let win_size := win_size_of sfreq in
  let init := init_of sfreq in
  let n_samples_start := n_samples_start_of sfreq tstart in
  let ecg_abs := ecg_abs_of sfreq tstart ecg in
  init_max <- init_max_of ecg_abs init ;;
  thresh_runs <- thresh_runs_of thresh_value ;;
  mapM (threshold_run ecg_abs win_size init_max levels n_thresh n_samples_start)
       thresh_runs.

(** [qrs_detector(sfreq, ecg, thresh_value, levels, n_thresh, tstart=tstart)]. *)
Definition qrs_detector (sfreq : Q) (ecg : list Q) (thresh_value : thresh_spec)
    (levels : Q) (n_thresh : Z) (tstart : Q) : outcome events :=
  clean_events <- qrs_runs sfreq ecg thresh_value levels n_thresh tstart ;;
  pick_best sfreq (len ecg) clean_events.

(** The call of [filter_data] on one usable segment, with its other
    arguments fixed. *)
Variable segment_filter : list Q -> list Q.

(** Lines 213-220: the table from positions of the concatenated signal
    to positions of the recording. *)
Fixpoint remap_loop (segments : list (Z * Z)) (remap : list Z) (offset : Z)
  : outcome (list Z * Z) :=
  match segments with
  | [] => Returns (remap, offset)
  | (start, stop) :: rest =>
      let this_len := (stop - start)%Z in
      if (this_len <? 0)%Z then Raises AssertionError
      else
        remap' <- slice_assign remap offset (offset + this_len)
                               (np_arange_int start stop) ;;
        remap_loop rest remap' (offset + this_len)%Z
  end.

(** [np.empty(n, int)]: the content is unspecified; zeros stand for it. *)
Definition np_empty (n : nat) : list Z := repeat 0%Z n.

Definition remap_of (segments : list (Z * Z)) (n : nat) : outcome (list Z) :=
  '(remap, offset) <- remap_loop segments (np_empty n) 0 ;;
  if (offset =? Z.of_nat n)%Z then Returns remap else Raises AssertionError.

(** [remap[ecg_events]]: an index array must hold integers, also when
    it is empty. *)
Definition index_by_events (remap : list Z) (ecg_events : events)
  : outcome (list Z) :=
  match fst ecg_events with
  | Float64 => Raises IndexError
  | Int64 => np_take remap (snd ecg_events)
  end.

(** Lines 191-204: the filtered usable segments, end to end. *)
Definition concatenated (ecg : list Q) (segments : list (Z * Z)) : list Q :=
  concat (map (fun seg : Z * Z =>
                 segment_filter (py_slice ecg (Some (fst seg)) (Some (snd seg))))
              segments).

(** Lines 230-232: the event table, an [int64] array.  [first_samp]
    and [event_id] are Python ints within the [int64] range (beyond it
    numpy leaves the integer dtype, which this embedding does not
    follow); the sums and products of the array wrap around. *)
Definition event_table (ecg_events : list Z) (first_samp event_id : Z)
  : list (Z * Z * Z) :=
  map (fun e => (wrap64 (e + first_samp), 0%Z, wrap64 (event_id * 1))) ecg_events.

(** [find_ecg_events], from the single-channel signal [ecg] and the
    usable segments [(onsets[k], ends[k])] on: the event table and the
    average pulse. *)
Definition find_ecg_events (ecg : list Q) (segments : list (Z * Z))
    (sfreq tstart : Q) (qrs_threshold : thresh_spec) (first_samp event_id : Z)
  : outcome (list (Z * Z * Z) * Q) :=
  (* max_idx = (ends - onsets).argmax() *)
  _ <- match segments with
       | [] => Raises ValueError_zero_size
       | _ :: _ => Returns tt
       end ;;
  let ecg := concatenated ecg segments in
  ecg_events <- qrs_detector sfreq ecg qrs_threshold 2.5 3 tstart ;;
  remap <- remap_of segments (length ecg) ;;
  ecg_events <- index_by_events remap ecg_events ;;
  let n_events := len ecg_events in
  d <- py_div (inject_Z (len ecg)) sfreq ;;
  let duration_sec := d - tstart in
  let duration_min := duration_sec / 60 in
  average_pulse <- py_div (inject_Z n_events) duration_min ;;
  Returns (event_table ecg_events first_samp event_id, average_pulse).

End Detector.

End Ecg.

(** ** The specification's words *)

Module Spec.
Import Py Np Ecg.

(** [k] is the position of the maximum of [window]: the sample there
    is at least every sample, and larger than every earlier one. *)
Definition first_max (window : list Q) (k : Z) : Prop :=
  (0 <= k)%Z /\
  exists x, nth_error window (Z.to_nat k) = Some x /\
    (forall j y, nth_error window j = Some y -> y <= x) /\
    (forall j y, (j < Z.to_nat k)%nat -> nth_error window j = Some y -> y < x).

(** The samples of [signal] over [[i, i + windowSize)]. *)
Definition window_at (signal : list Q) (windowSize i : Z) : list Q :=
  firstn (Z.to_nat windowSize) (skipn (Z.to_nat i) signal).

(** The scan of one threshold, as a recurrence on the position [i]:
    [scan_from signal windowSize threshold i peaks] when the scan at
    position [i] records the peak positions [peaks] from there on. *)
Inductive scan_from (signal : list Q) (windowSize : Z) (threshold : Q)
  : Z -> list Z -> Prop :=
| scan_end i :
    (len signal - windowSize <= i)%Z ->
    scan_from signal windowSize threshold i []
| scan_advance i x peaks :
    (i < len signal - windowSize)%Z ->
    nth_error signal (Z.to_nat i) = Some x ->
    x <= threshold ->
    scan_from signal windowSize threshold (i + 1) peaks ->
    scan_from signal windowSize threshold i peaks
| scan_record i x k peaks :
    (i < len signal - windowSize)%Z ->
    nth_error signal (Z.to_nat i) = Some x ->
    threshold < x ->
    first_max (window_at signal windowSize i) k ->
    scan_from signal windowSize threshold (i + windowSize) peaks ->
    scan_from signal windowSize threshold i ((i + k)%Z :: peaks).

(** The above-threshold mask of a window. *)
Definition above_threshold (threshold : Q) (window : list Q) : list bool :=
  map (fun x => Qgtb x threshold) window.

(** The number of places where a mask goes from 0 to 1. *)
Fixpoint rising_edges (mask : list bool) : Z :=
  match mask with
  | a :: ((b :: _) as rest) =>
      ((if negb a && b then 1 else 0) + rising_edges rest)%Z
  | _ => 0%Z
  end.

(** The call returned the pair [(onset, offset)], up to equality of
    rationals. *)
Definition returns_window (r : outcome (Q * Q)) (onset offset : Q) : Prop :=
  exists a b, r = Returns (a, b) /\ a == onset /\ b == offset.

(** [k] is the position of the first minimum of [l]. *)
Definition first_min (l : list Q) (k : Z) : Prop :=
  (0 <= k)%Z /\
  exists x, nth_error l (Z.to_nat k) = Some x /\
    (forall j y, nth_error l j = Some y -> x <= y) /\
    (forall j y, (j < Z.to_nat k)%nat -> nth_error l j = Some y -> x < y).

(** A heart rate an infant or an athlete can have. *)
Definition plausible (rate : Q) : Prop := 40 <= rate <= 160.

(** The implied heart rate of a candidate with [eventCount] events. *)
Definition implied (eventCount : Z) (signalDurationSeconds : Q) : Q :=
  60 * inject_Z eventCount / signalDurationSeconds.

(** The index map: the sample ranges of the segments laid end to end. *)
Definition indexMap (segments : list (Z * Z)) : list Z :=
  flat_map (fun seg : Z * Z => np_arange_int (fst seg) (snd seg)) segments.

(** Segments that are ordered and do not overlap: each starts no
    earlier than the one before it stops, and stops no earlier than it
    starts. *)
Fixpoint ordered_from (lo : Z) (segments : list (Z * Z)) : Prop :=
  match segments with
  | [] => True
  | (start, stop) :: rest =>
      (lo <= start)%Z /\ (start <= stop)%Z /\ ordered_from stop rest
  end.

Definition ordered_segments (segments : list (Z * Z)) : Prop :=
  match segments with
  | [] => True
  | (start, _) :: _ => ordered_from start segments
  end.

(** The peaks kept by outlier rejection, from the peaks of one
    threshold as triples (position, crossing count, window RMS): those
    with an RMS below [rmsThreshold] and a crossing count below
    [n_thresh]. *)
Definition survivors (rmsThreshold : Q) (n_thresh : Z)
    (peaks : list (Z * Z * Q)) : list Z :=
  map (fun p => fst (fst p))
      (filter (fun p => Qltb (snd p) rmsThreshold && (snd (fst p) <? n_thresh)%Z)
              peaks).

End Spec.

(** ** Heartbeat annotations *)

Module Annotate.
Import Py Np Ecg.
Local Open Scope py_scope.

(** Total length of the segments, [sum(stop - start)]. *)
Definition segments_length (segments : list (Z * Z)) : Z :=
  fold_right (fun seg acc => (snd seg - fst seg + acc)%Z) 0%Z segments.

(** An [Annotations] object: its onset, duration and description
    arrays. *)
Record annotations : Type := mk_annot
  { onset : list Q; duration : list Q; description : list string }.

Section AnnotateEcg.

Variable sqrtQ : Q -> Q.
Variables filter_data segment_filter : list Q -> list Q.

(** [_check_option(parameter, value, allowed_values)] of [mne.utils]. *)
Variable _check_option : string -> string -> list string -> outcome unit.

(** [annotations_from_events(events, sfreq, ...)] of [mne.annotations],
    with the remaining arguments of its call fixed. *)
Variable annotations_from_events : list (Z * Z * Z) -> Q -> annotations.

(** [ndarray.fill] on an array of strings. *)
Variable fill_str : list string -> string -> list string.

(** [annotate_ecg], from the single-channel signal and the usable
    segments on (as [find_ecg_events] above); [None] is the value of a
    call that falls off the end of the function. *)
Definition annotate_ecg (ecg : list Q) (segments : list (Z * Z)) (sfreq : Q)
    (first_samp : Z) (what : string) (tstart : Q) (qrs_threshold : thresh_spec)
  : outcome (option annotations) :=
  _ <- _check_option "what" what ["heartbeats"; "r-peaks"]%string ;;
  let event_id := 999%Z in
  found <- find_ecg_events sqrtQ filter_data segment_filter ecg segments sfreq tstart
             qrs_threshold first_samp event_id ;;
  let ecg_events := fst found in
  let hr_avg := snd found in
  if (len ecg_events * 3 =? 0)%Z
  then Returns (Some (mk_annot [] [] []))
  else
    let annotations := annotations_from_events ecg_events sfreq in
    if String.eqb what "r-peaks" then Returns (Some annotations)
    else if String.eqb what "heartbeats" then
      w <- _ecg_segment_window hr_avg ;;
      let heartbeat_onset := fst w in
      let heartbeat_offset := snd w in
      let heartbeat_duration := heartbeat_offset - heartbeat_onset in
      let onset1 := map (fun o => o + heartbeat_onset) (onset annotations) in
      let onset2 := map (fun o => if Qltb o 0 then 0 else o) onset1 in
      Returns (Some (mk_annot onset2
                       (map (fun _ => heartbeat_duration) (duration annotations))
                       (fill_str (description annotations) "ECG/Heartbeat")))
    else Returns None.

End AnnotateEcg.

End Annotate.

(** ** The source functions on binary64 numbers *)

Module B64.
Import Py Np.
Local Open Scope py_scope.
#[local] Set Warnings "-inexact-float".

(** A Python [float] and a numpy [float64] are binary64 numbers: the
    primitive floats of Rocq, whose operations round to nearest, ties
    to even, as the hardware of the interpreter does. *)

(** The rational number a float stands for, in lowest terms; none for
    an infinity and for NaN. *)
Definition to_Q (x : float) : option Q :=
  match Prim2SF x with
  | S754_zero _ => Some 0
  | S754_finite s m e =>
      Some (Qred ((if s then -1 else 1) * inject_Z (Z.pos m) * Qpower 2 e))
  | S754_infinity _ | S754_nan => None
  end.

(** The float of a count or a length (an integer from 0 to below
    [2^63]). *)
Definition of_int (n : Z) : float := of_uint63 (Uint63.of_Z n).

(** [int(x)] and [round(x)] of a float: the conversion of the number it
    stands for. *)
Definition to_int (conv : Q -> Z) (x : float) : outcome Z :=
  match to_Q x with
  | Some q => Returns (conv q)
  | None => Raises (if is_nan x then ValueError_nan else OverflowError)
  end.

Definition py_int : float -> outcome Z := to_int Py.py_int.
Definition py_round : float -> outcome Z := to_int Py.py_round.

(** Division of Python floats, raising on a zero divisor. *)
Definition py_div (a b : float) : outcome float :=
  if (b =? 0)%float then Raises ZeroDivisionError else Returns (a / b)%float.

(** [_ecg_segment_window(heart_rate)], for a Python float as
    [find_ecg_events] returns it. *)
Definition _ecg_segment_window (heart_rate : float) : outcome (float * float) :=
  let m := (heart_rate / 60)%float in
  epochs_start <- py_div (-0.35)%float m ;;
  epochs_end <- py_div 0.5%float m ;;
  if (80 <=? heart_rate)%float
  then let c := 0.1%float in
       Returns ((epochs_start - c)%float, (epochs_end + c)%float)
  else Returns (epochs_start, epochs_end).

(** [np.maximum]: the larger item, NaN if one of them is. *)
Definition maximum (a b : float) : float :=
  if (b <=? a)%float || is_nan a then a else b.

(** [np.max]: raises on an empty array. *)
Definition np_max (l : list float) : outcome float :=
  match l with
  | [] => Raises ValueError_zero_size
  | x :: r => Returns (fold_left maximum r x)
  end.

(** [np.argmax]: the first occurrence of the maximum, of NaN when there
    is one. *)
Fixpoint argmax_from (mp : float) (max_ind i : Z) (l : list float) : Z :=
  match l with
  | [] => max_ind
  | x :: r =>
      if negb (x <=? mp)%float
      then if is_nan x then i else argmax_from x i (i + 1)%Z r
      else argmax_from mp max_ind (i + 1)%Z r
  end.

Definition np_argmax (l : list float) : outcome Z :=
  match l with
  | [] => Raises ValueError_zero_size
  | x :: r => Returns (if is_nan x then 0%Z else argmax_from x 0%Z 1%Z r)
  end.

(** [np.argmin]: the first occurrence of the minimum, of NaN when there
    is one. *)
Fixpoint argmin_from (mp : float) (min_ind i : Z) (l : list float) : Z :=
  match l with
  | [] => min_ind
  | x :: r =>
      if negb (mp <=? x)%float
      then if is_nan x then i else argmin_from x i (i + 1)%Z r
      else argmin_from mp min_ind (i + 1)%Z r
  end.

Definition np_argmin (l : list float) : outcome Z :=
  match l with
  | [] => Raises ValueError_zero_size
  | x :: r => Returns (if is_nan x then 0%Z else argmin_from x 0%Z 1%Z r)
  end.

(** [np.arange(start, stop, step)] on floats: [ceil((stop - start) /
    step)] items; the first two are [start] and [start + step], the
    others [start + i * delta] for the difference [delta] of the first
    two. *)
Definition np_arange (start stop step : float) : list float :=
  let length := match to_Q ((stop - start) / step)%float with
                | Some q => Z.to_nat (Qceiling q)
                | None => 0%nat
                end in
  let next := (start + step)%float in
  let delta := (next - start)%float in
  map (fun i => match i with
                | 0%nat => start
                | 1%nat => next
                | _ => (start + of_int (Z.of_nat i) * delta)%float
                end)
      (seq 0 length).

(** Sorting, for [np.median]. *)
Fixpoint insert_sorted (x : float) (l : list float) : list float :=
  match l with
  | [] => [x]
  | y :: r => if (x <=? y)%float then x :: l else y :: insert_sorted x r
  end.

Definition np_sort (l : list float) : list float := fold_right insert_sorted [] l.

(** [np.median]: the middle of the sorted values, the mean of the two
    middle ones for an even count; NaN for no value and when a value
    is NaN. *)
Definition np_median (l : list float) : float :=
  let s := np_sort l in
  let n := length s in
  if (n =? 0)%nat || existsb is_nan l then nan
  else if Nat.even n
  then ((nth (n / 2 - 1) s 0 + nth (n / 2) s 0) / 2)%float
  else nth (n / 2) s 0%float.

(** The [thresh_value] argument: a string or a float. *)
Inductive thresh_spec : Type :=
| ThreshStr (s : string)
| ThreshFloat (q : float).

(** The three lists a threshold run fills in its loop. *)
Record scan_lists : Type := mk_scan
  { time : list Z; numcross : list Z; rms : list float }.

Definition no_peaks : scan_lists := mk_scan [] [] [].

(** The comparison mask of line 98, as the 0/1 integers it is cast to. *)
Definition above_mask (thresh1 : float) (window : list float) : list Z :=
  map Ecg.as_int (map (fun z => (z =? 1)%Z)
    (map Ecg.as_int (map (fun x => (thresh1 <? x)%float) window))).

(** [nx] of lines 98-99. *)
Definition crossings (thresh1 : float) (window : list float) : Z :=
  Zsum (np_diff (above_mask thresh1 window)).

Definition events : Type := Ecg.events.

(** Line 121: [60. * len(cev) / (len(ecg) / float(sfreq))]. *)
Definition implied_rate (sfreq : float) (n_ecg : Z) (cev : events) : outcome float :=
  d <- py_div (of_int n_ecg) sfreq ;;
  py_div (60 * of_int (len (snd cev)))%float d.

(** Line 125: [rates <= 160.] and [rates >= 40.]. *)
Definition in_band (r : float) : bool := ((r <=? 160) && (40 <=? r))%float.

(** Lines 120-132: the choice among the threshold runs. *)
Definition pick_best (sfreq : float) (n_ecg : Z) (clean_events : list events)
  : outcome events :=
  rates <- Ecg.mapM (implied_rate sfreq n_ecg) clean_events ;;
  let idx := np_where (map in_band rates) in
  band <- np_take rates idx ;;
  let ideal_rate := if (0 <? len idx)%Z then np_median band else 80%float in
  idx <- np_argmin (map (fun r => abs (r - ideal_rate)) rates) ;;
  py_index clean_events idx.

(** Lines 78-83: the threshold values to try. *)
Definition thresh_runs_of (thresh_value : thresh_spec) : outcome (list float) :=
  match thresh_value with
  | ThreshStr s =>
      if String.eqb s "auto" then Returns (np_arange 0.3 1.1 0.05)
      else Raises ValueError_threshold
  | ThreshFloat q => Returns [q]
  end.

(** Line 117, [ce += n_samples_start]: on an integer array the sum is
    made in [int64], and a Python int beyond [int64] cannot be added
    in place; a float array (the one of a run without peaks) takes any
    offset. *)
Definition add_offset (dt : dtype) (ce : list Z) (n_samples_start : Z)
  : outcome (list Z) :=
  match dt with
  | Int64 =>
      if int64 n_samples_start
      then Returns (map (fun t => wrap64 (t + n_samples_start)) ce)
      else Raises CastError
  | Float64 => Returns (map (fun t => (t + n_samples_start)%Z) ce)
  end.

Section Detector.

(** The call of [filter_data] in [qrs_detector], with its other
    arguments fixed. *)
Variable filter_data : list float -> list float.

(** [sum_squared] of [mne.utils], the dot product of an array with
    itself; and the reductions [np.mean] and [np.std].  The order in
    which they add their items is numpy's and is left open. *)
Variable sum_squared : list float -> float.
Variables np_mean np_std : list float -> float.

Section Run.

Variables (ecg_abs : list float) (win_size : Z) (thresh1 : float).

(** Lines 93-104, from position [ii] with the lists filled so far. *)
Fixpoint scan_loop (fuel : nat) (ii : Z) (acc : scan_lists) : outcome scan_lists :=
  if (ii <? len ecg_abs - win_size)%Z then
    match fuel with
    | O => Diverges
    | S fuel' =>
        let window := py_slice ecg_abs (Some ii) (Some (ii + win_size)%Z) in
        w0 <- py_index window 0 ;;
        if (thresh1 <? w0)%float then
          max_time <- np_argmax window ;;
          let nx := crossings thresh1 window in
          let r := sqrt (sum_squared window / of_int (len window))%float in
          scan_loop fuel' (ii + win_size)%Z
            (mk_scan (time acc ++ [(ii + max_time)%Z])
                     (numcross acc ++ [nx])
                     (rms acc ++ [r]))
        else scan_loop fuel' (ii + 1)%Z acc
    end
  else Returns acc.

End Run.

(** Lines 106-108: the entry added when the loop found no peak. *)
Definition with_sentinel (s : scan_lists) : scan_lists :=
  if (len (rms s) =? 0)%Z
  then mk_scan (time s ++ [0%Z]) (numcross s) (rms s ++ [0%float])
  else s.

Definition time_dtype (s : scan_lists) : dtype :=
  if (len (rms s) =? 0)%Z then Float64 else Int64.

(** Line 112. *)
Definition rms_thresh_of (levels : float) (rms : list float) : float :=
  let rms_mean := np_mean rms in
  let rms_std := np_std rms in
  (rms_mean + (rms_std * levels))%float.

(** Lines 109-117: outlier rejection and the shift by the start offset. *)
Definition reject_outliers (levels : float) (n_thresh n_samples_start : Z)
    (dt : dtype) (s : scan_lists) : outcome (list Z) :=
  let rms_thresh := rms_thresh_of levels (rms s) in
  let b := np_where (map (fun r => (r <? rms_thresh)%float) (rms s)) in
  a <- np_take (numcross s) b ;;
  keep <- np_mask b (map (fun x => (x <? n_thresh)%Z) a) ;;
  ce <- np_take (time s) keep ;;
  add_offset dt ce n_samples_start.

(** Lines 88-117: one threshold run. *)
Definition threshold_run (ecg_abs : list float) (win_size : Z)
    (init_max levels : float) (n_thresh n_samples_start : Z)
    (thresh_value : float) : outcome events :=
  let thresh1 := (init_max * thresh_value)%float in
  s <- scan_loop ecg_abs win_size thresh1 (length ecg_abs) 0 no_peaks ;;
  ce <- reject_outliers levels n_thresh n_samples_start (time_dtype s)
          (with_sentinel s) ;;
  Returns (time_dtype s, ce).

(** Lines 57-67: the sizes derived from the sampling rate, and the
    rectified signal after the start offset. *)
Definition win_size_of (sfreq : float) : outcome Z :=
  py_round ((60.0 * sfreq) / 120.0)%float.

Definition init_of (sfreq : float) : outcome Z := py_int sfreq.

Definition n_samples_start_of (sfreq tstart : float) : outcome Z :=
  py_int (sfreq * tstart)%float.

Definition ecg_abs_of (n_samples_start : Z) (ecg : list float) : list float :=
  py_slice (map abs (filter_data ecg)) (Some n_samples_start) None.

(** Lines 71-76. *)
Definition init_max_of (ecg_abs : list float) (init : Z) : outcome float :=
  m0 <- np_max (py_slice ecg_abs None (Some init)) ;;
  m1 <- np_max (py_slice ecg_abs (Some init) (Some (init * 2)%Z)) ;;
  m2 <- np_max (py_slice ecg_abs (Some (init * 2)%Z) (Some (init * 3)%Z)) ;;
  Returns (np_mean [m0; m1; m2]).

(** What lines 57-76 compute before the thresholds are looked at. *)
Record calibrated : Type := mk_calibrated
  { win_size : Z; n_samples_start : Z; ecg_abs : list float; init_max : float }.

Definition calibration (sfreq : float) (ecg : list float) (tstart : float)
  : outcome calibrated :=
  win_size <- win_size_of sfreq ;;
  init <- init_of sfreq ;;
  n_samples_start <- n_samples_start_of sfreq tstart ;;
  let ecg_abs := ecg_abs_of n_samples_start ecg in
  init_max <- init_max_of ecg_abs init ;;
  Returns (mk_calibrated win_size n_samples_start ecg_abs init_max).

(** Lines 57-118: the event arrays of all threshold runs. *)
Definition qrs_runs (sfreq : float) (ecg : list float) (thresh_value : thresh_spec)
    (levels : float) (n_thresh : Z) (tstart : float) : outcome (list events) :=
  c <- calibration sfreq ecg tstart ;;
  thresh_runs <- thresh_runs_of thresh_value ;;
  Ecg.mapM (threshold_run (ecg_abs c) (win_size c) (init_max c) levels n_thresh
              (n_samples_start c))
           thresh_runs.

(** [qrs_detector(sfreq, ecg, thresh_value, levels, n_thresh, tstart=tstart)]. *)
Definition qrs_detector (sfreq : float) (ecg : list float) (thresh_value : thresh_spec)
    (levels : float) (n_thresh : Z) (tstart : float) : outcome events :=
  clean_events <- qrs_runs sfreq ecg thresh_value levels n_thresh tstart ;;
  pick_best sfreq (len ecg) clean_events.

End Detector.

(** One order of summation for the reductions, on which the embedding
    can be run: from the first item on. *)
Definition sum_from_first (l : list float) : float :=
  match l with
  | [] => 0%float
  | x :: r => fold_left add r x
  end.

Definition mean_from_first (l : list float) : float :=
  (sum_from_first l / of_int (len l))%float.

Definition std_from_first (l : list float) : float :=
  let mu := mean_from_first l in
  sqrt (mean_from_first (map (fun x => (abs (x - mu) * abs (x - mu))%float) l)).

Definition sum_squared_from_first (l : list float) : float :=
  sum_from_first (map (fun x => (x * x)%float) l).

End B64.

(** ** The specification's words, on binary64 numbers *)

Module Spec64.
Import Py Np.

(** Position of a float that is not NaN on the number line with its
    two infinities: a triple, compared item by item. *)
Definition sf_key (x : spec_float) : Z * Z * Z :=
  match x with
  | S754_infinity true => (-2, 0, 0)
  | S754_finite true m e => (-1, - e, - Z.pos m)
  | S754_zero _ => (0, 0, 0)
  | S754_finite false m e => (1, e, Z.pos m)
  | S754_infinity false => (2, 0, 0)
  | S754_nan => (0, 0, 0)
  end%Z.

Definition key_lt (a b : Z * Z * Z) : Prop :=
  let '(a1, a2, a3) := a in
  let '(b1, b2, b3) := b in
  (a1 < b1 \/ (a1 = b1 /\ (a2 < b2 \/ (a2 = b2 /\ a3 < b3))))%Z.

Definition key (x : float) : Z * Z * Z := sf_key (Prim2SF x).

(** A float that is not below zero (or is NaN). *)
Definition not_negative (x : spec_float) : Prop :=
  match x with
  | S754_finite true _ _ | S754_infinity true => False
  | _ => True
  end.

(** No item of the list is NaN. *)
Definition no_nan (l : list float) : Prop := Forall (fun x => is_nan x = false) l.

(** [k] is the position of the first minimum of [l]. *)
Definition first_min (l : list float) (k : Z) : Prop :=
  (0 <= k)%Z /\
  exists x, nth_error l (Z.to_nat k) = Some x /\
    (forall j y, nth_error l j = Some y -> (x <=? y)%float = true) /\
    (forall j y, (j < Z.to_nat k)%nat -> nth_error l j = Some y ->
                 (x <? y)%float = true).


(** The implied heart rate of a candidate with [eventCount] events. *)
Definition implied (eventCount : Z) (signalDurationSeconds : float) : float :=
  (60 * B64.of_int eventCount / signalDurationSeconds)%float.

(** A heart rate an infant or an athlete can have: one within
    [40, 160]. *)
Definition plausible (rate : float) : bool :=
  ((40 <=? rate) && (rate <=? 160))%float.

(** The implied rates of the candidates, for a signal of [n_ecg]
    samples. *)
Definition rates_of (sfreq : float) (n_ecg : Z) (candidates : list Ecg.events)
  : list float :=
  map (fun cev => implied (len (snd cev)) (B64.of_int n_ecg / sfreq)%float) candidates.

(** The target rate: the median of the plausible rates when there is
    one, 80 otherwise. *)
Definition target_of (rates : list float) : float :=
  if existsb plausible rates then B64.np_median (filter plausible rates) else 80%float.

(** The distance of each rate to the target rate. *)
Definition distances (rates : list float) : list float :=
  map (fun rate => abs (rate - target_of rates)%float) rates.

(** The peaks kept by outlier rejection, from the peaks of one
    threshold as triples (position, crossing count, window RMS): those
    with an RMS below [rmsThreshold] and a crossing count below
    [n_thresh]. *)
Definition survivors (rmsThreshold : float) (n_thresh : Z)
    (peaks : list (Z * Z * float)) : list Z :=
  map (fun p => fst (fst p))
      (filter (fun p => (snd p <? rmsThreshold)%float && (snd (fst p) <? n_thresh)%Z)
              peaks).

(** A position the scan can record from position [lo] on: a place of
    the signal at or after [lo] whose sample, when the signal holds no
    NaN, is above the threshold. *)
Definition recorded (signal : list float) (threshold : float) (lo p : Z) : Prop :=
  (lo <= p < len signal)%Z /\
  (no_nan signal ->
   exists v, nth_error signal (Z.to_nat p) = Some v /\ (threshold <? v)%float = true).

#[local] Set Warnings "-inexact-float".

(** The 16 fractions that ["auto"] tries: the floats 0.3 and 0.35, and
    [0.3 + i * delta] from there on, as Python prints them. *)
Definition auto_fractions : list float :=
  [0.3; 0.35; 0.39999999999999997; 0.44999999999999996;
   0.49999999999999994; 0.5499999999999999; 0.5999999999999999;
   0.6499999999999999; 0.7; 0.7499999999999999; 0.7999999999999998;
   0.8499999999999999; 0.8999999999999999; 0.95; 0.9999999999999998;
   1.0499999999999998]%float.

End Spec64.

(** ** Properties *)

Import Py Np Ecg Spec.
Local Open Scope py_scope.

(** *** Booleans of the float comparisons *)

Lemma Qltb_lt (a b : Q) : Qltb a b = true <-> a < b.
Proof.
  unfold Qltb. rewrite negb_true_iff. split; intro H.
  - apply Qnot_le_lt. intro L. apply Qle_bool_iff in L. congruence.
  - destruct (Qle_bool b a) eqn:E; [|reflexivity].
    apply Qle_bool_iff in E. exfalso. exact (Qlt_not_le _ _ H E).
Qed.

Lemma Qltb_ge (a b : Q) : Qltb a b = false <-> b <= a.
Proof.
  unfold Qltb. rewrite negb_false_iff. apply Qle_bool_iff.
Qed.

Lemma Qgtb_gt (a b : Q) : Qgtb a b = true <-> b < a.
Proof. unfold Qgtb. apply Qltb_lt. Qed.

Lemma Qgtb_le (a b : Q) : Qgtb a b = false <-> a <= b.
Proof. unfold Qgtb. apply Qltb_ge. Qed.

Lemma Qeq_bool_false (a b : Q) : ~ a == b -> Qeq_bool a b = false.
Proof.
  intro H. destruct (Qeq_bool a b) eqn:E; [|reflexivity].
  apply Qeq_bool_iff in E. contradiction.
Qed.

Lemma py_div_returns (a b : Q) : ~ b == 0 -> py_div a b = Returns (a / b).
Proof. intro H. unfold py_div. now rewrite (Qeq_bool_false H). Qed.

(** *** The threshold values tried *)

Lemma mapM_length {A B : Type} (f : A -> outcome B) (l : list A) (ys : list B) :
  mapM f l = Returns ys -> length ys = length l.
Proof.
  revert ys. induction l as [|x r IH]; intros ys H; simpl in H.
  - injection H as <-. reflexivity.
  - destruct (f x) as [y| |]; simpl in H; try discriminate.
    destruct (mapM f r) as [ys'| |]; simpl in H; try discriminate.
    injection H as <-. simpl. f_equal. now apply IH.
Qed.

Lemma qrs_runs_count sqrtQ filter_data sfreq ecg thresh_value levels n_thresh tstart
      (runs : list Q) (clean_events : list events) :
  thresh_runs_of thresh_value = Returns runs ->
  qrs_runs sqrtQ filter_data sfreq ecg thresh_value levels n_thresh tstart
    = Returns clean_events ->
  length clean_events = length runs.
Proof.
  intros Hr H. unfold qrs_runs in H.
  destruct (init_max_of _ _) as [im| |]; simpl in H; try discriminate.
  rewrite Hr in H. simpl in H.
  now apply mapM_length in H.
Qed.

(** *** Slices with bounds that are not negative *)

Lemma firstn_min_length {A : Type} (l : list A) (k m : nat) :
  (length l <= k)%nat -> (length l <= m)%nat -> firstn k l = firstn m l.
Proof. intros Hk Hm. now rewrite !firstn_all2. Qed.

Lemma py_slice_nonneg {A : Type} (l : list A) (a b : Z) :
  (0 <= a)%Z -> (0 <= b)%Z ->
  py_slice l (Some a) (Some b) = firstn (Z.to_nat (b - a)) (skipn (Z.to_nat a) l).
Proof.
  intros Ha Hb. unfold py_slice, clip_index.
  destruct (a <? 0)%Z eqn:Ea; [apply Z.ltb_lt in Ea; lia|].
  destruct (b <? 0)%Z eqn:Eb; [apply Z.ltb_lt in Eb; lia|].
  destruct (Z.le_gt_cases (Z.of_nat (length l)) a) as [Hge|Hlt].
  - rewrite !skipn_all2 by lia. now rewrite !firstn_nil.
  - replace (Z.min a (Z.of_nat (length l))) with a by lia.
    destruct (Z.le_gt_cases b (Z.of_nat (length l))) as [Hb'|Hb'].
    + now replace (Z.min b (Z.of_nat (length l))) with b by lia.
    + apply firstn_min_length; rewrite length_skipn; lia.
Qed.

Lemma py_slice_from {A : Type} (l : list A) (a : Z) :
  (0 <= a)%Z -> py_slice l (Some a) None = skipn (Z.to_nat a) l.
Proof.
  intros Ha. unfold py_slice, clip_index.
  destruct (a <? 0)%Z eqn:Ea; [apply Z.ltb_lt in Ea; lia|].
  destruct (Z.le_gt_cases (Z.of_nat (length l)) a) as [Hge|Hlt].
  - rewrite !skipn_all2 by lia. now rewrite firstn_nil.
  - replace (Z.min a (Z.of_nat (length l))) with a by lia.
    apply firstn_all2. rewrite length_skipn. lia.
Qed.

Lemma py_slice_to {A : Type} (l : list A) (b : Z) :
  (0 <= b)%Z -> py_slice l None (Some b) = firstn (Z.to_nat b) l.
Proof.
  intros Hb. unfold py_slice, clip_index.
  destruct (b <? 0)%Z eqn:Eb; [apply Z.ltb_lt in Eb; lia|].
  rewrite Z.sub_0_r. simpl skipn.
  destruct (Z.le_gt_cases b (Z.of_nat (length l))) as [Hb'|Hb'].
  - now replace (Z.min b (Z.of_nat (length l))) with b by lia.
  - apply firstn_min_length; lia.
Qed.

Lemma py_index_nonneg {A : Type} (l : list A) (i : Z) (x : A) :
  (0 <= i)%Z -> nth_error l (Z.to_nat i) = Some x -> py_index l i = Returns x.
Proof.
  intros Hi Hx. unfold py_index.
  assert (Hlt : (Z.to_nat i < length l)%nat) by (apply nth_error_Some; congruence).
  destruct (i <? 0)%Z eqn:E; [apply Z.ltb_lt in E; lia|].
  replace ((0 <=? i)%Z && (i <? Z.of_nat (length l))%Z) with true.
  - now rewrite Hx.
  - symmetry. apply andb_true_iff. split; [apply Z.leb_le | apply Z.ltb_lt]; lia.
Qed.

(** *** Rounding and truncation *)

Lemma py_int_floor (x : Q) : 0 <= x -> py_int x = Qfloor x.
Proof.
  destruct x as [n d]. unfold Qle, py_int, Qfloor. simpl. intro H.
  apply Z.quot_div_nonneg; lia.
Qed.

Lemma py_int_ceiling (x : Q) : x <= 0 -> py_int x = Qceiling x.
Proof.
  destruct x as [n d]. unfold Qle, py_int, Qceiling, Qfloor. simpl. intro H.
  rewrite <- (Z.opp_involutive n) at 1.
  rewrite Z.quot_opp_l by lia. f_equal.
  apply Z.quot_div_nonneg; lia.
Qed.

Lemma py_round_nearest (x : Q) : Qabs (x - inject_Z (py_round x)) <= 1 # 2.
Proof.
  unfold py_round.
  pose proof (Qfloor_le x) as Hlo. pose proof (Qlt_floor x) as Hhi.
  rewrite inject_Z_plus in Hhi. change (inject_Z 1) with 1 in Hhi.
  apply Qabs_Qle_condition.
  destruct (Qcompare_spec (x - inject_Z (Qfloor x)) (1 # 2)) as [E|L|G].
  - destruct (Z.even (Qfloor x));
      [|rewrite inject_Z_plus; change (inject_Z 1) with 1]; lra.
  - lra.
  - rewrite inject_Z_plus. change (inject_Z 1) with 1. lra.
Qed.

(** *** [np.argmax] finds the first maximum *)

Lemma nth_error_snoc {A : Type} (p : list A) (x : A) (j : nat) (y : A) :
  nth_error (p ++ [x]) j = Some y ->
  (j < length p)%nat /\ nth_error p j = Some y \/ j = length p /\ y = x.
Proof.
  intro H. destruct (Nat.lt_ge_cases j (length p)) as [L|G].
  - left. split; [exact L|]. now rewrite nth_error_app1 in H.
  - right. rewrite nth_error_app2 in H by exact G.
    destruct (j - length p)%nat as [|m] eqn:E; simpl in H.
    + injection H as <-. split; [lia|reflexivity].
    + destruct m; discriminate.
Qed.

Lemma argmax_from_spec (l p : list Q) (best : Q) (besti i : Z) :
  i = len p -> (0 <= besti)%Z ->
  nth_error p (Z.to_nat besti) = Some best ->
  (forall j y, nth_error p j = Some y -> y <= best) ->
  (forall j y, (j < Z.to_nat besti)%nat -> nth_error p j = Some y -> y < best) ->
  first_max (p ++ l) (argmax_from best besti i l) /\
  (argmax_from best besti i l < len (p ++ l))%Z.
Proof.
  revert p best besti i.
  induction l as [|x r IH]; intros p best besti i Hi Hb Hn Hall Hbefore.
  - simpl. rewrite app_nil_r. split.
    + split; [exact Hb|]. exists best. auto.
    + assert (Z.to_nat besti < length p)%nat
        by (apply nth_error_Some; congruence).
      unfold len. lia.
  - simpl. replace (p ++ x :: r) with ((p ++ [x]) ++ r)
      by (now rewrite <- app_assoc).
    assert (Hi' : (i + 1)%Z = len (p ++ [x])).
    { unfold len in *. rewrite length_app. simpl. lia. }
    assert (Hix : nth_error (p ++ [x]) (Z.to_nat i) = Some x).
    { rewrite nth_error_app2 by (unfold len in Hi; lia).
      replace (Z.to_nat i - length p)%nat with 0%nat by (unfold len in Hi; lia).
      reflexivity. }
    destruct (Qgtb x best) eqn:E.
    + apply Qgtb_gt in E.
      apply IH; auto.
      * unfold len in Hi. lia.
      * intros j y Hj. apply nth_error_snoc in Hj as [[_ Hj]|[_ ->]].
        -- apply Qlt_le_weak. eapply Qle_lt_trans; [eapply Hall; eauto | exact E].
        -- apply Qle_refl.
      * intros j y Hlt Hj. apply nth_error_snoc in Hj as [[_ Hj]|[Hj _]].
        -- eapply Qle_lt_trans; [eapply Hall; eauto | exact E].
        -- unfold len in Hi. lia.
    + apply Qgtb_le in E.
      assert (Z.to_nat besti < length p)%nat
        by (apply nth_error_Some; congruence).
      apply IH; auto.
      * now rewrite nth_error_app1.
      * intros j y Hj. apply nth_error_snoc in Hj as [[_ Hj]|[_ ->]]; eauto.
      * intros j y Hlt Hj. apply nth_error_snoc in Hj as [[_ Hj]|[Hj _]]; eauto.
        lia.
Qed.

Lemma np_argmax_spec (window : list Q) :
  window <> [] ->
  exists k, np_argmax window = Returns k /\
            first_max window k /\ (k < len window)%Z.
Proof.
  destruct window as [|x r]; [congruence|]. intros _.
  exists (argmax_from x 0 1 r). split; [reflexivity|].
  apply (argmax_from_spec r [x]); auto.
  - lia.
  - intros [|[|j]] y Hj; simpl in Hj; try discriminate.
    injection Hj as <-. apply Qle_refl.
  - intros j y Hlt. simpl in Hlt. lia.
Qed.

Lemma first_max_unique (window : list Q) (k k' : Z) :
  first_max window k -> first_max window k' -> k = k'.
Proof.
  intros (Hk & x & Hx & Hall & Hbefore) (Hk' & x' & Hx' & Hall' & Hbefore').
  destruct (Z.lt_trichotomy k k') as [L|[E|G]]; [|exact E|].
  - exfalso. assert (x < x') by (eapply Hbefore'; [|exact Hx]; lia).
    assert (x' <= x) by (eapply Hall; exact Hx'). lra.
  - exfalso. assert (x' < x) by (eapply Hbefore; [|exact Hx']; lia).
    assert (x <= x') by (eapply Hall'; exact Hx). lra.
Qed.

(** *** The scan of one threshold *)

Section ScanProperties.

Variable sqrtQ : Q -> Q.
Variables (ecg_abs : list Q) (win_size : Z) (thresh1 : Q).
Hypothesis win_size_pos : (0 < win_size)%Z.

Let n_points : Z := len ecg_abs.

Lemma scan_loop_unfold (fuel : nat) (ii : Z) (acc : scan_lists) :
  scan_loop sqrtQ ecg_abs win_size thresh1 (S fuel) ii acc =
  if (ii <? len ecg_abs - win_size)%Z then
    let window := py_slice ecg_abs (Some ii) (Some (ii + win_size)%Z) in
    w0 <- py_index window 0 ;;
    if Qgtb w0 thresh1 then
      max_time <- np_argmax window ;;
      scan_loop sqrtQ ecg_abs win_size thresh1 fuel (ii + win_size)%Z
        (mk_scan (time acc ++ [(ii + max_time)%Z])
                 (numcross acc ++ [crossings thresh1 window])
                 (rms acc ++ [sqrtQ (sum_squared window / inject_Z (len window))]))
    else scan_loop sqrtQ ecg_abs win_size thresh1 fuel (ii + 1)%Z acc
  else Returns acc.
Proof. reflexivity. Qed.

(** Inside the loop the window is the full [[ii, ii + win_size)] and
    [window[0]] is the sample at [ii]. *)
Lemma window_in_loop (ii : Z) :
  (0 <= ii)%Z -> (ii < n_points - win_size)%Z ->
  py_slice ecg_abs (Some ii) (Some (ii + win_size)%Z) = window_at ecg_abs win_size ii /\
  len (window_at ecg_abs win_size ii) = win_size /\
  exists x, nth_error ecg_abs (Z.to_nat ii) = Some x /\
            py_index (window_at ecg_abs win_size ii) 0 = Returns x.
Proof.
  intros H0 Hlt. subst n_points. unfold len in *.
  split; [|split].
  - rewrite py_slice_nonneg by lia. unfold window_at.
    now replace (ii + win_size - ii)%Z with win_size by lia.
  - unfold window_at. rewrite length_firstn, length_skipn. lia.
  - destruct (nth_error ecg_abs (Z.to_nat ii)) as [x|] eqn:E.
    2:{ apply nth_error_None in E. lia. }
    exists x. split; [reflexivity|].
    assert (Hw : nth_error (window_at ecg_abs win_size ii) 0 = Some x).
    { unfold window_at. rewrite nth_error_firstn.
      destruct (0 <? Z.to_nat win_size)%nat eqn:E0;
        [|apply Nat.ltb_ge in E0; lia].
      rewrite nth_error_skipn. now rewrite Nat.add_0_r. }
    apply py_index_nonneg; [lia | exact Hw].
Qed.

(** The loop from position [ii] on: it finishes within the fuel, adds
    one entry to each of the three lists per recorded peak, and the
    peaks it records follow the recurrence, lie in the signal and
    increase. *)
Lemma scan_loop_from (fuel : nat) :
  forall (ii : Z) (acc : scan_lists),
    (0 <= ii)%Z -> (Z.to_nat (n_points - win_size - ii) <= fuel)%nat ->
    exists peaks nxs rs,
      scan_loop sqrtQ ecg_abs win_size thresh1 fuel ii acc
      = Returns (mk_scan (time acc ++ peaks) (numcross acc ++ nxs) (rms acc ++ rs)) /\
      scan_from ecg_abs win_size thresh1 ii peaks /\
      length nxs = length peaks /\ length rs = length peaks /\
      Forall (fun p => (ii <= p < n_points)%Z) peaks /\
      StronglySorted Z.lt peaks.
Proof.
  induction fuel as [|fuel IH]; intros ii acc H0 Hfuel.
  - exists [], [], []. rewrite !app_nil_r.
    assert (E : (ii <? len ecg_abs - win_size)%Z = false)
      by (apply Z.ltb_ge; subst n_points; lia).
    simpl. rewrite E. destruct acc.
    repeat split; auto; constructor. subst n_points. now apply Z.ltb_ge.
  - rewrite scan_loop_unfold.
    destruct (ii <? len ecg_abs - win_size)%Z eqn:E.
    + apply Z.ltb_lt in E.
      destruct (window_in_loop H0 E) as (Hwin & Hlen & x & Hx & Hw0).
      rewrite Hwin. cbn zeta. rewrite Hw0. cbn [bind].
      destruct (Qgtb x thresh1) eqn:Ex.
      * apply Qgtb_gt in Ex.
        destruct (@np_argmax_spec (window_at ecg_abs win_size ii))
          as (k & -> & Hmax & Hk).
        { intro Hnil. rewrite Hnil in Hlen. unfold len in Hlen. simpl in Hlen. lia. }
        cbn [bind].
        destruct (IH (ii + win_size)%Z
                     (mk_scan (time acc ++ [(ii + k)%Z])
                        (numcross acc ++ [crossings thresh1 (window_at ecg_abs win_size ii)])
                        (rms acc ++ [sqrtQ (sum_squared (window_at ecg_abs win_size ii)
                                            / inject_Z (len (window_at ecg_abs win_size ii)))])))
          as (peaks & nxs & rs & -> & Hscan & Hn & Hr & Hall & Hsorted);
          [lia | subst n_points; lia |].
        cbn [time numcross rms].
        exists ((ii + k)%Z :: peaks),
               (crossings thresh1 (window_at ecg_abs win_size ii) :: nxs),
               (sqrtQ (sum_squared (window_at ecg_abs win_size ii)
                       / inject_Z (len (window_at ecg_abs win_size ii))) :: rs).
        rewrite <- !app_assoc. simpl app.
        assert (Hk0 : (0 <= k)%Z) by apply Hmax.
        repeat split; simpl; auto.
        -- eapply scan_record; eauto.
        -- constructor; [subst n_points; lia|].
           eapply Forall_impl; [|exact Hall]. simpl. intros; lia.
        -- constructor; [exact Hsorted|].
           eapply Forall_impl; [|exact Hall]. simpl. intros; lia.
      * apply Qgtb_le in Ex.
        destruct (IH (ii + 1)%Z acc) as (peaks & nxs & rs & -> & Hscan & Hn & Hr & Hall & Hsorted);
          [lia | subst n_points; lia |].
        exists peaks, nxs, rs. repeat split; auto.
        -- eapply scan_advance; eauto.
        -- eapply Forall_impl; [|exact Hall]. simpl. intros; lia.
    + exists [], [], []. rewrite !app_nil_r. destruct acc.
      repeat split; auto; constructor. subst n_points. now apply Z.ltb_ge.
Qed.

(** The recurrence determines the recorded peaks. *)
Lemma scan_from_functional (i : Z) (peaks peaks' : list Z) :
  scan_from ecg_abs win_size thresh1 i peaks ->
  scan_from ecg_abs win_size thresh1 i peaks' ->
  peaks = peaks'.
Proof.
  intro H. revert peaks'.
  induction H as [i Hi | i x peaks Hi Hx Hle _ IH | i x k peaks Hi Hx Hlt Hmax _ IH];
    intros peaks' H'; inversion H'; subst; try lia.
  - reflexivity.
  - now apply IH.
  - exfalso. assert (x0 = x) by congruence. subst. lra.
  - exfalso. assert (x0 = x) by congruence. subst. lra.
  - f_equal.
    + f_equal. eapply first_max_unique; eauto.
    + now apply IH.
Qed.

End ScanProperties.

(** C1: with a positive window size the scan of a threshold
    [init_max * fraction] returns; the peak positions it records are
    those of the recurrence started at position 0 (advance by one at
    or below the threshold, otherwise record [i + argmax] of the
    window and advance by the window size), no other list satisfies
    the recurrence, and the positions increase strictly. *)
Theorem scan_follows_recurrence (sqrtQ : Q -> Q) (ecg_abs : list Q)
        (win_size : Z) (init_max fraction : Q) :
  (0 < win_size)%Z ->
  exists s,
    scan_loop sqrtQ ecg_abs win_size (init_max * fraction) (length ecg_abs) 0 no_peaks
    = Returns s /\
    scan_from ecg_abs win_size (init_max * fraction) 0 (time s) /\
    (forall peaks,
        scan_from ecg_abs win_size (init_max * fraction) 0 peaks -> peaks = time s) /\
    StronglySorted Z.lt (time s).
Proof.
  intro Hw.
  destruct (@scan_loop_from sqrtQ ecg_abs win_size (init_max * fraction) Hw
              (length ecg_abs) 0%Z no_peaks)
    as (peaks & nxs & rs & Hrun & Hscan & _ & _ & _ & Hsorted);
    [lia | unfold len; lia |].
  eexists. split; [exact Hrun|]. simpl.
  split; [exact Hscan|]. split; [|exact Hsorted].
  intros peaks' H'. exact (scan_from_functional H' Hscan).
Qed.

Lemma scan_follows_recurrence_witness :
  (0 < 3)%Z /\
  exists s,
    scan_loop (fun q => q) [1; 0; 1; 0; 0; 0; 2; 3; 0; 0; 0] 3 (1 * (1 # 2)) 11 0 no_peaks
    = Returns s /\ StronglySorted Z.lt (time s).
Proof.
  split; [reflexivity|].
  destruct (@scan_follows_recurrence (fun q => q)
              [1; 0; 1; 0; 0; 0; 2; 3; 0; 0; 0] 3 1 (1 # 2) eq_refl)
    as (s & Hrun & _ & _ & Hsorted).
  exists s. split; [exact Hrun | exact Hsorted].
Defined.

(** *** The crossing count *)

Lemma Zsum_from (l : list Z) (a : Z) : fold_left Z.add l a = (a + Zsum l)%Z.
Proof.
  unfold Zsum. revert a. induction l as [|x r IH]; intro a; simpl.
  - lia.
  - rewrite (IH (a + x)%Z), (IH x). lia.
Qed.

Lemma last_nonempty {A : Type} (a : A) (l : list A) (d d' : A) :
  last (a :: l) d = last (a :: l) d'.
Proof.
  revert a. induction l as [|b r IH]; intro a; [reflexivity|].
  change (last (b :: r) d = last (b :: r) d'). apply IH.
Qed.

Lemma Zsum_cons (a : Z) (l : list Z) : Zsum (a :: l) = (a + Zsum l)%Z.
Proof. unfold Zsum at 1. simpl. apply Zsum_from. Qed.

(** The sum of the differences of a sequence is its last item minus its
    first one. *)
Lemma Zsum_np_diff (x : Z) (l : list Z) :
  Zsum (np_diff (x :: l)) = (last l x - x)%Z.
Proof.
  revert x. induction l as [|y r IH]; intro x.
  - unfold Zsum. simpl. lia.
  - change (np_diff (x :: y :: r)) with ((y - x)%Z :: np_diff (y :: r)).
    rewrite Zsum_cons, IH.
    destruct r as [|z r]; [simpl; lia|].
    change (last (y :: z :: r) x) with (last (z :: r) x).
    rewrite (last_nonempty z r y x). lia.
Qed.

Lemma last_map_default {A B : Type} (g : A -> B) (l : list A) (d : A) :
  last (map g l) (g d) = g (last l d).
Proof.
  induction l as [|a r IH]; [reflexivity|].
  destruct r as [|b r]; [reflexivity|]. exact IH.
Qed.

Lemma above_mask_map (thresh1 : Q) (window : list Q) :
  above_mask thresh1 window = map (fun q => as_int (Qgtb q thresh1)) window.
Proof.
  unfold above_mask. rewrite !map_map. apply map_ext.
  intro q. now destruct (Qgtb q thresh1).
Qed.

(** What line 98 records for a window that starts above the threshold:
    0 when its last sample is above the threshold too, -1 otherwise. *)
Lemma crossings_net_change (thresh1 x : Q) (rest : list Q) :
  thresh1 < x ->
  crossings thresh1 (x :: rest)
  = if Qgtb (last rest x) thresh1 then 0%Z else (-1)%Z.
Proof.
  intro Hx. apply Qgtb_gt in Hx.
  unfold crossings. rewrite above_mask_map. simpl map.
  rewrite Zsum_np_diff.
  rewrite (last_map_default (fun q => as_int (Qgtb q thresh1))).
  rewrite Hx. now destruct (Qgtb (last rest x) thresh1).
Qed.

(** C3 fails on the window [1, 0, 1] with the threshold 0.5: its mask
    1, 0, 1 goes once from 0 to 1, and the scan records 0 crossings. *)
Theorem crossings_of_dipped_window (sqrtQ : Q -> Q) :
  exists s,
    scan_loop sqrtQ [1; 0; 1; 0; 0; 0] 3 (1 # 2) 6 0 no_peaks = Returns s /\
    time s = [0%Z] /\
    numcross s = [0%Z] /\
    rising_edges (above_threshold (1 # 2) (window_at [1; 0; 1; 0; 0; 0] 3 0)) = 1%Z.
Proof.
  eexists. split; [vm_compute; reflexivity|].
  repeat split.
Qed.

(** *** The three lists of a threshold run *)

(** Every pass through the loop adds to all three lists or to none. *)
Lemma scan_loop_lockstep (sqrtQ : Q -> Q) (ecg_abs : list Q) (win_size : Z)
      (thresh1 : Q) (fuel : nat) :
  forall (ii : Z) (acc s : scan_lists),
    scan_loop sqrtQ ecg_abs win_size thresh1 fuel ii acc = Returns s ->
    length (numcross acc) = length (time acc) ->
    length (rms acc) = length (time acc) ->
    length (numcross s) = length (time s) /\ length (rms s) = length (time s).
Proof.
  induction fuel as [|fuel IH]; intros ii acc s Hrun Hn Hr.
  - simpl in Hrun. destruct (ii <? len ecg_abs - win_size)%Z; [discriminate|].
    injection Hrun as <-. auto.
  - rewrite scan_loop_unfold in Hrun.
    destruct (ii <? len ecg_abs - win_size)%Z.
    2:{ injection Hrun as <-. auto. }
    cbn zeta in Hrun.
    destruct (py_index _ 0) as [w0| |]; cbn [bind] in Hrun; try discriminate.
    destruct (Qgtb w0 thresh1).
    + destruct (np_argmax _) as [k| |]; cbn [bind] in Hrun; try discriminate.
      apply IH in Hrun; [exact Hrun | |]; cbn [time numcross rms];
        rewrite !length_app; simpl; lia.
    + eapply IH; eauto.
Qed.

Lemma scan_lists_lengths_aux (sqrtQ : Q -> Q) (ecg_abs : list Q) (win_size : Z)
      (thresh1 : Q) (s : scan_lists) :
  scan_loop sqrtQ ecg_abs win_size thresh1 (length ecg_abs) 0 no_peaks = Returns s ->
  length (numcross s) = length (time s) /\ length (rms s) = length (time s).
Proof.
  intro Hrun. exact (scan_loop_lockstep _ _ _ _ _ _ _ Hrun eq_refl eq_refl).
Qed.

Lemma length_zero_nil {A : Type} (l : list A) : length l = 0%nat -> l = [].
Proof. destruct l; [reflexivity | discriminate]. Qed.

(** C9, as the code has it: the three lists the scan returns have one
    length; when it found no peak, lines 106-108 make the positions and
    the RMS values the single entry 0 and leave the crossing counts
    empty; otherwise they change nothing. *)
Theorem scan_lists_lengths (sqrtQ : Q -> Q) (ecg_abs : list Q) (win_size : Z)
        (thresh1 : Q) (s : scan_lists) :
  scan_loop sqrtQ ecg_abs win_size thresh1 (length ecg_abs) 0 no_peaks = Returns s ->
  (length (time s) = length (numcross s) /\ length (numcross s) = length (rms s)) /\
  (time s = [] -> with_sentinel s = mk_scan [0%Z] [] [0]) /\
  (time s <> [] -> with_sentinel s = s).
Proof.
  intro Hrun.
  destruct (scan_loop_lockstep _ _ _ _ _ _ _ Hrun eq_refl eq_refl) as [Hn Hr].
  split; [split; congruence|]. unfold with_sentinel, len. split.
  - intro Ht. rewrite Ht in Hn, Hr. simpl in Hn, Hr.
    apply length_zero_nil in Hn, Hr. rewrite Hr, Hn, Ht. reflexivity.
  - intro Ht. destruct (rms s) as [|r rs] eqn:E; [|reflexivity].
    simpl in Hr. symmetry in Hr. apply length_zero_nil in Hr. contradiction.
Qed.

Lemma scan_lists_lengths_witness :
  scan_loop (fun q => q) [1; 0; 1; 0; 0; 0; 2; 3; 0; 0; 0] 3 (1 # 2) 11 0 no_peaks
  = Returns (mk_scan [0%Z; 7%Z] [0%Z; (-1)%Z] [2 # 3; 13 # 3]) /\
  with_sentinel (mk_scan [0%Z; 7%Z] [0%Z; (-1)%Z] [2 # 3; 13 # 3])
  = mk_scan [0%Z; 7%Z] [0%Z; (-1)%Z] [2 # 3; 13 # 3].
Proof.
  assert (Hrun :
    scan_loop (fun q => q) [1; 0; 1; 0; 0; 0; 2; 3; 0; 0; 0] 3 (1 # 2) 11 0 no_peaks
    = Returns (mk_scan [0%Z; 7%Z] [0%Z; (-1)%Z] [2 # 3; 13 # 3]))
    by (vm_compute; reflexivity).
  split; [exact Hrun|].
  apply (scan_lists_lengths _ _ _ _ Hrun). discriminate.
Defined.

(** C9 as stated fails on a signal of zeros: the run finds no peak, and
    its lists then have the lengths 1, 0 and 1. *)
Lemma sentinel_lists_differ :
  scan_loop (fun q => q) [0; 0; 0; 0; 0; 0] 3 0 6 0 no_peaks = Returns no_peaks /\
  with_sentinel no_peaks = mk_scan [0%Z] [] [0] /\
  ~ (length (time (with_sentinel no_peaks)) = length (numcross (with_sentinel no_peaks)) /\
     length (numcross (with_sentinel no_peaks)) = length (rms (with_sentinel no_peaks))).
Proof.
  split; [reflexivity|]. split; [reflexivity|].
  intros [H _]. discriminate.
Qed.

(** *** Index arrays built by [np.where] *)

Lemma np_take_where {A : Type} (mask : list bool) :
  forall (a p : list A) (i : Z),
    i = len p -> length a = length mask ->
    np_take (p ++ a) (where_from i mask) = Returns (mask_select a mask).
Proof.
  induction mask as [|m r IH]; intros a p i Hi Hlen.
  - destruct a; [reflexivity | discriminate].
  - destruct a as [|x a]; [discriminate|]. simpl in Hlen.
    assert (Hstep : np_take (p ++ x :: a) (where_from (i + 1) r)
                    = Returns (mask_select a r)).
    { replace (p ++ x :: a) with ((p ++ [x]) ++ a) by (now rewrite <- app_assoc).
      apply IH; [|lia]. unfold len in *. rewrite length_app. simpl. lia. }
    simpl. destruct m; [|exact Hstep].
    simpl. rewrite Hstep.
    rewrite (@py_index_nonneg _ (p ++ x :: a) i x); [reflexivity | unfold len in Hi; lia |].
    rewrite nth_error_app2 by (unfold len in Hi; lia).
    replace (Z.to_nat i - length p)%nat with 0%nat by (unfold len in Hi; lia).
    reflexivity.
Qed.

Lemma np_take_np_where {A : Type} (mask : list bool) (a : list A) :
  length a = length mask ->
  np_take a (np_where mask) = Returns (mask_select a mask).
Proof. intro H. exact (@np_take_where _ mask a [] 0%Z eq_refl H). Qed.

Lemma mask_select_where_length {A : Type} (mask : list bool) :
  forall (a : list A) (i : Z),
    length a = length mask ->
    length (where_from i mask) = length (mask_select a mask).
Proof.
  induction mask as [|m r IH]; intros a i Hlen.
  - destruct a; [reflexivity | discriminate].
  - destruct a as [|x a]; [discriminate|]. simpl in Hlen.
    simpl. destruct m; simpl; [f_equal|]; apply IH; lia.
Qed.

(** Selecting among the positions of a first mask by a test on the
    items found there gives the positions of the conjunction. *)
Lemma where_refined {A : Type} (g : A -> bool) (mask : list bool) :
  forall (a : list A) (i : Z),
    length a = length mask ->
    mask_select (where_from i mask) (map g (mask_select a mask))
    = where_from i (map (fun p => fst p && g (snd p)) (combine mask a)).
Proof.
  induction mask as [|m r IH]; intros a i Hlen.
  - reflexivity.
  - destruct a as [|x a]; [discriminate|]. simpl in Hlen.
    simpl. destruct m; simpl.
    + destruct (g x); [f_equal|]; apply IH; lia.
    + apply IH; lia.
Qed.

Lemma survivors_mask (rmsThreshold : Q) (n_thresh : Z) :
  forall (ts nxs : list Z) (rs : list Q),
    length nxs = length ts -> length rs = length ts ->
    mask_select ts
      (map (fun p => fst p && (snd p <? n_thresh)%Z)
           (combine (map (fun r => Qltb r rmsThreshold) rs) nxs))
    = survivors rmsThreshold n_thresh (combine (combine ts nxs) rs).
Proof.
  induction ts as [|t ts IH]; intros nxs rs Hn Hr.
  - reflexivity.
  - destruct nxs as [|nx nxs]; [discriminate|].
    destruct rs as [|r rs]; [discriminate|].
    simpl in Hn, Hr. unfold survivors in *. simpl.
    destruct (Qltb r rmsThreshold && (nx <? n_thresh)%Z); simpl;
      [f_equal|]; apply IH; lia.
Qed.

(** Outlier rejection on three lists of one length. *)
Lemma reject_outliers_survivors (sqrtQ : Q -> Q) (levels : Q)
      (n_thresh n_samples_start : Z) (s : scan_lists) :
  length (numcross s) = length (time s) ->
  length (rms s) = length (time s) ->
  reject_outliers sqrtQ levels n_thresh n_samples_start s
  = Returns (map (fun t => (t + n_samples_start)%Z)
               (survivors (rms_thresh_of sqrtQ levels (rms s)) n_thresh
                  (combine (combine (time s) (numcross s)) (rms s)))).
Proof.
  intros Hn Hr. unfold reject_outliers.
  set (thr := rms_thresh_of sqrtQ levels (rms s)).
  set (mask := map (fun r => Qltb r thr) (rms s)).
  assert (Hm : length mask = length (time s))
    by (subst mask; rewrite length_map; exact Hr).
  rewrite (@np_take_np_where _ mask (numcross s)) by congruence.
  cbn [bind]. unfold np_mask, np_where.
  rewrite length_map, (@mask_select_where_length _ mask (numcross s) 0) by congruence.
  rewrite Nat.eqb_refl. cbn [bind].
  rewrite where_refined by congruence.
  rewrite (@np_take_np_where _ _ (time s)).
  2:{ rewrite length_map, length_combine. lia. }
  cbn [bind]. subst mask. now rewrite survivors_mask.
Qed.

(** *** One threshold run *)

Lemma Qltb_comp (r a b : Q) : a == b -> Qltb r a = Qltb r b.
Proof. intro H. unfold Qltb. now rewrite H. Qed.

Lemma survivors_comp (a b : Q) (n_thresh : Z) (peaks : list (Z * Z * Q)) :
  a == b -> survivors a n_thresh peaks = survivors b n_thresh peaks.
Proof.
  intro H. unfold survivors. f_equal. apply filter_ext.
  intro p. now rewrite (Qltb_comp _ H).
Qed.

(** The survivors are some of the recorded peaks, in their order. *)
Lemma survivors_sublist (thr : Q) (n_thresh : Z) :
  forall (ts nxs : list Z) (rs : list Q),
    length nxs = length ts -> length rs = length ts ->
    exists mask, length mask = length ts /\
      survivors thr n_thresh (combine (combine ts nxs) rs) = mask_select ts mask.
Proof.
  intros ts nxs rs Hn Hr. eexists. split; [|symmetry; now apply survivors_mask].
  rewrite length_map, length_combine, length_map. lia.
Qed.

Section RunProperties.

Variable sqrtQ : Q -> Q.
Variables (ecg_abs : list Q) (win_size : Z) (init_max levels : Q).
Variables (n_thresh n_samples_start : Z) (thresh_value : Q).

Let run := threshold_run sqrtQ ecg_abs win_size init_max levels
                         n_thresh n_samples_start thresh_value.
Let scan := scan_loop sqrtQ ecg_abs win_size (init_max * thresh_value)
                      (length ecg_abs) 0 no_peaks.

(** A run that recorded peaks keeps the survivors among them. *)
Lemma threshold_run_genuine (s : scan_lists) :
  scan = Returns s -> time s <> [] ->
  run = Returns (Int64,
                 map (fun t => (t + n_samples_start)%Z)
                   (survivors (rms_thresh_of sqrtQ levels (rms s)) n_thresh
                      (combine (combine (time s) (numcross s)) (rms s)))).
Proof.
  intros Hscan Ht. subst run scan. unfold threshold_run. rewrite Hscan. cbn [bind].
  destruct (scan_loop_lockstep _ _ _ _ _ _ _ Hscan eq_refl eq_refl) as [Hn Hr].
  assert (Hrms : (len (rms s) =? 0)%Z = false).
  { apply Z.eqb_neq. unfold len. destruct (time s); [congruence|].
    simpl in Hr. lia. }
  unfold with_sentinel, time_dtype. rewrite Hrms.
  now rewrite reject_outliers_survivors.
Qed.

Hypothesis sqrtQ_0 : sqrtQ 0 == 0.

Lemma sentinel_threshold : rms_thresh_of sqrtQ levels [0] == 0.
Proof.
  unfold rms_thresh_of.
  change (np_mean [0]) with 0.
  change (np_std sqrtQ [0]) with (sqrtQ 0).
  rewrite sqrtQ_0. ring.
Qed.

(** A run that recorded no peak returns no event. *)
Lemma threshold_run_sentinel (s : scan_lists) :
  scan = Returns s -> time s = [] -> run = Returns (Float64, []).
Proof.
  intros Hscan Ht. subst run scan. unfold threshold_run. rewrite Hscan. cbn [bind].
  destruct (scan_loop_lockstep _ _ _ _ _ _ _ Hscan eq_refl eq_refl) as [Hn Hr].
  rewrite Ht in Hn, Hr. apply length_zero_nil in Hn, Hr.
  unfold with_sentinel, time_dtype, reject_outliers. rewrite Hr, Hn, Ht. simpl app.
  change (len [] =? 0)%Z with true. cbn [rms numcross time map].
  assert (E : Qltb 0 (rms_thresh_of sqrtQ levels [0]) = false).
  { apply Qltb_ge. rewrite sentinel_threshold. apply Qle_refl. }
  rewrite E. reflexivity.
Qed.

End RunProperties.

(** *** Which events [qrs_detector] can return *)

Lemma py_index_In {A : Type} (l : list A) (i : Z) (x : A) :
  py_index l i = Returns x -> In x l.
Proof.
  unfold py_index. intro H.
  destruct (_ && _); [|discriminate].
  destruct (nth_error l _) as [y|] eqn:E; [|discriminate].
  injection H as <-. eapply nth_error_In; eauto.
Qed.

Lemma mapM_In {A B : Type} (f : A -> outcome B) (l : list A) (ys : list B) (y : B) :
  mapM f l = Returns ys -> In y ys -> exists x, In x l /\ f x = Returns y.
Proof.
  revert ys. induction l as [|a r IH]; intros ys H Hy; simpl in H.
  - injection H as <-. contradiction.
  - destruct (f a) as [b| |] eqn:Ea; cbn [bind] in H; try discriminate.
    destruct (mapM f r) as [bs| |]; cbn [bind] in H; try discriminate.
    injection H as <-. destruct Hy as [<-|Hy].
    + exists a. split; [now left | exact Ea].
    + destruct (IH bs eq_refl Hy) as (x & Hx & Hfx).
      exists x. split; [now right | exact Hfx].
Qed.

Lemma pick_best_member (sfreq : Q) (n_ecg : Z) (clean_events : list events)
      (ev : events) :
  pick_best sfreq n_ecg clean_events = Returns ev -> In ev clean_events.
Proof.
  unfold pick_best. intro H.
  destruct (mapM _ clean_events) as [rates| |]; cbn [bind] in H; try discriminate.
  destruct (np_take rates _) as [band| |]; cbn [bind] in H; try discriminate.
  destruct (np_argmin _) as [idx| |]; cbn [bind] in H; try discriminate.
  eapply py_index_In; eauto.
Qed.

(** What [qrs_detector] returns is the result of one of its threshold
    runs. *)
Lemma qrs_detector_returns_run (sqrtQ : Q -> Q) (filter_data : list Q -> list Q)
      (sfreq : Q) (ecg : list Q) (thresh_value : thresh_spec) (levels : Q)
      (n_thresh : Z) (tstart : Q) (ev : events) :
  qrs_detector sqrtQ filter_data sfreq ecg thresh_value levels n_thresh tstart
  = Returns ev ->
  exists init_max fraction,
    init_max_of (ecg_abs_of filter_data sfreq tstart ecg) (init_of sfreq)
    = Returns init_max /\
    threshold_run sqrtQ (ecg_abs_of filter_data sfreq tstart ecg) (win_size_of sfreq)
      init_max levels n_thresh (n_samples_start_of sfreq tstart) fraction
    = Returns ev.
Proof.
  unfold qrs_detector, qrs_runs. intro H.
  destruct (init_max_of _ _) as [im| |]; cbn [bind] in H; try discriminate.
  destruct (thresh_runs_of thresh_value) as [runs| |]; cbn [bind] in H; try discriminate.
  destruct (mapM _ runs) as [cands| |] eqn:Ec; cbn [bind] in H; try discriminate.
  apply pick_best_member in H.
  destruct (@mapM_In _ _ _ _ _ _ Ec H) as (fraction & _ & Hrun).
  exists im, fraction. split; [reflexivity | exact Hrun].
Qed.

Lemma survivors_In (thr : Q) (n_thresh : Z) (ts nxs : list Z) (rs : list Q) (t : Z) :
  In t (survivors thr n_thresh (combine (combine ts nxs) rs)) -> In t ts.
Proof.
  unfold survivors. intro H.
  apply in_map_iff in H as ([[t' nx] r] & <- & H).
  apply filter_In in H as [H _].
  apply in_combine_l in H. now apply in_combine_l in H.
Qed.

(** Every event of a threshold run is a peak its scan recorded, shifted
    by the start offset. *)
Lemma threshold_run_events (sqrtQ : Q -> Q) (ecg_abs : list Q) (win_size : Z)
      (init_max levels : Q) (n_thresh n_samples_start : Z) (fraction : Q)
      (ev : events) :
  sqrtQ 0 == 0 -> (0 < win_size)%Z ->
  threshold_run sqrtQ ecg_abs win_size init_max levels n_thresh n_samples_start fraction
  = Returns ev ->
  exists s,
    scan_loop sqrtQ ecg_abs win_size (init_max * fraction) (length ecg_abs) 0 no_peaks
    = Returns s /\
    forall e, In e (snd ev) -> In (e - n_samples_start)%Z (time s).
Proof.
  intros Hsqrt Hw Hrun.
  destruct (@scan_loop_from sqrtQ ecg_abs win_size (init_max * fraction) Hw
              (length ecg_abs) 0%Z no_peaks)
    as (peaks & nxs & rs & Hscan & _); [lia | unfold len; lia |].
  simpl in Hscan. remember (mk_scan peaks nxs rs) as s eqn:Es. clear Es.
  exists s. split; [exact Hscan|].
  destruct (time s) as [|p ps] eqn:Ht.
  - rewrite (@threshold_run_sentinel sqrtQ ecg_abs win_size init_max levels n_thresh
               n_samples_start fraction Hsqrt _ Hscan Ht) in Hrun.
    injection Hrun as <-. intros e [].
  - rewrite (@threshold_run_genuine sqrtQ ecg_abs win_size init_max levels n_thresh
               n_samples_start fraction _ Hscan) in Hrun by congruence.
    injection Hrun as <-. cbn [snd]. intros e He.
    apply in_map_iff in He as (t & <- & Hin).
    apply survivors_In in Hin. rewrite Ht in Hin.
    now replace (t + n_samples_start - n_samples_start)%Z with t by lia.
Qed.

(** C10: a threshold run whose scan recorded no peak gets the entry
    (0, 0.0); the RMS threshold is then 0, the comparison [0 < 0]
    rejects the entry, the run returns no event, and its implied heart
    rate is 0.  Every event [qrs_detector] returns is a peak recorded
    by a scan, shifted by the start offset, never the added entry. *)
Theorem sentinel_never_survives (sqrtQ : Q -> Q) (filter_data : list Q -> list Q)
        (sfreq : Q) (ecg : list Q) (levels : Q) (n_thresh : Z) (tstart : Q)
        (init_max fraction : Q) (s : scan_lists) :
  let ecg_abs := ecg_abs_of filter_data sfreq tstart ecg in
  let win_size := win_size_of sfreq in
  let n_samples_start := n_samples_start_of sfreq tstart in
  sqrtQ 0 == 0 ->
  scan_loop sqrtQ ecg_abs win_size (init_max * fraction) (length ecg_abs) 0 no_peaks
  = Returns s ->
  time s = [] ->
  (time (with_sentinel s) = [0%Z] /\ rms (with_sentinel s) = [0]) /\
  rms_thresh_of sqrtQ levels (rms (with_sentinel s)) == 0 /\
  Qltb 0 (rms_thresh_of sqrtQ levels (rms (with_sentinel s))) = false /\
  threshold_run sqrtQ ecg_abs win_size init_max levels n_thresh n_samples_start fraction
  = Returns (Float64, []) /\
  (~ sfreq == 0 -> len ecg <> 0%Z ->
   exists rate, implied_rate sfreq (len ecg) (Float64, []) = Returns rate /\ rate == 0) /\
  (forall thresh_value ev,
      (0 < win_size)%Z ->
      qrs_detector sqrtQ filter_data sfreq ecg thresh_value levels n_thresh tstart
      = Returns ev ->
      forall e, In e (snd ev) ->
        exists init_max' fraction' s',
          scan_loop sqrtQ ecg_abs win_size (init_max' * fraction') (length ecg_abs)
                    0 no_peaks = Returns s' /\
          In (e - n_samples_start)%Z (time s')).
Proof.
  intros ecg_abs win_size n_samples_start Hsqrt Hscan Ht.
  destruct (scan_lists_lengths_aux _ _ _ _ Hscan) as [Hn Hr].
  rewrite Ht in Hn, Hr. apply length_zero_nil in Hn, Hr.
  assert (Hsent : with_sentinel s = mk_scan [0%Z] [] [0]).
  { unfold with_sentinel. rewrite Hr, Hn, Ht. reflexivity. }
  rewrite Hsent. cbn [time rms].
  split; [split; reflexivity|].
  split; [now apply sentinel_threshold|].
  split; [apply Qltb_ge; rewrite sentinel_threshold by exact Hsqrt; apply Qle_refl|].
  split.
  { exact (@threshold_run_sentinel sqrtQ ecg_abs win_size init_max levels n_thresh
             n_samples_start fraction Hsqrt _ Hscan Ht). }
  split.
  - intros Hsf Hlen. unfold implied_rate.
    rewrite (py_div_returns _ Hsf). cbn [bind].
    assert (Hd : ~ inject_Z (len ecg) / sfreq == 0).
    { intro E. apply Hlen.
      assert (E' : inject_Z (len ecg) == 0).
      { transitivity (sfreq * (inject_Z (len ecg) / sfreq)).
        - symmetry. apply Qmult_div_r. exact Hsf.
        - rewrite E. ring. }
      unfold Qeq in E'. simpl in E'. lia. }
    rewrite (py_div_returns _ Hd). eexists. split; [reflexivity|].
    cbn [snd]. change (len (@nil Z)) with 0%Z.
    unfold Qdiv. ring.
  - intros thresh_value ev Hw Hq e He.
    apply qrs_detector_returns_run in Hq as (im & fr & _ & Hrun).
    destruct (@threshold_run_events _ _ _ _ _ _ _ _ _ Hsqrt Hw Hrun) as (s' & Hs' & Hin).
    exists im, fr, s'. split; [exact Hs' | now apply Hin].
Qed.

Lemma sentinel_never_survives_witness :
  (fun q : Q => q) 0 == 0 /\
  scan_loop (fun q => q) (ecg_abs_of (fun l => l) 6 0 (repeat 0 18)) (win_size_of 6)
    (0 * 0.3) (length (ecg_abs_of (fun l => l) 6 0 (repeat 0 18))) 0 no_peaks
  = Returns no_peaks /\
  time no_peaks = [] /\
  threshold_run (fun q => q) (ecg_abs_of (fun l => l) 6 0 (repeat 0 18)) (win_size_of 6)
    0 2.5 3 (n_samples_start_of 6 0) 0.3
  = Returns (Float64, []).
Proof.
  assert (Hscan :
    scan_loop (fun q => q) (ecg_abs_of (fun l => l) 6 0 (repeat 0 18)) (win_size_of 6)
      (0 * 0.3) (length (ecg_abs_of (fun l => l) 6 0 (repeat 0 18))) 0 no_peaks
    = Returns no_peaks) by (vm_compute; reflexivity).
  split; [reflexivity|]. split; [exact Hscan|]. split; [reflexivity|].
  apply (@sentinel_never_survives (fun q => q) (fun l => l) 6 (repeat 0 18) 2.5 3 0
           0 0.3 no_peaks (Qeq_refl 0) Hscan eq_refl).
Defined.

(** *** [np.argmin] finds the first minimum *)

Lemma Qltb_opp (x y : Q) : Qltb x y = Qltb (- y) (- x).
Proof.
  destruct (Qltb x y) eqn:E; symmetry.
  - apply Qltb_lt in E. apply Qltb_lt. lra.
  - apply Qltb_ge in E. apply Qltb_ge. lra.
Qed.

Lemma argmin_as_argmax (l : list Q) :
  forall (best : Q) (besti i : Z),
    argmin_from best besti i l = argmax_from (- best) besti i (map Qopp l).
Proof.
  induction l as [|x r IH]; intros best besti i; [reflexivity|].
  simpl. unfold Qgtb. rewrite <- Qltb_opp.
  destruct (Qltb x best); apply IH.
Qed.

Lemma np_argmin_spec (l : list Q) :
  l <> [] -> exists k, np_argmin l = Returns k /\ first_min l k.
Proof.
  intro Hl.
  destruct (@np_argmax_spec (map Qopp l)) as (k & Hk & (Hk0 & x' & Hx' & Hall & Hbefore) & _).
  { destruct l; [congruence | discriminate]. }
  exists k. split.
  - destruct l as [|x r]; [congruence|]. simpl in Hk. injection Hk as <-.
    unfold np_argmin. now rewrite argmin_as_argmax.
  - split; [exact Hk0|].
    rewrite nth_error_map in Hx'.
    destruct (nth_error l (Z.to_nat k)) as [x|] eqn:Ex; [|discriminate].
    simpl in Hx'. injection Hx' as <-.
    exists x. split; [reflexivity|]. split.
    + intros j y Hy.
      assert (- y <= - x) by (apply (Hall j); rewrite nth_error_map, Hy; reflexivity).
      lra.
    + intros j y Hlt Hy.
      assert (- y < - x) by (apply (Hbefore j); [exact Hlt | rewrite nth_error_map, Hy; reflexivity]).
      lra.
Qed.

(** *** The choice among the threshold runs *)


Lemma mapM_returns {A B : Type} (f : A -> outcome B) (l : list A) :
  (forall x, In x l -> exists y, f x = Returns y) ->
  exists ys, mapM f l = Returns ys.
Proof.
  induction l as [|a r IH]; intro H; simpl.
  - eexists; reflexivity.
  - destruct (H a (or_introl eq_refl)) as (b & ->).
    destruct IH as (bs & ->); [intros x Hx; apply H; now right|].
    eexists; reflexivity.
Qed.

Lemma py_div_inv (a b r : Q) : py_div a b = Returns r -> ~ b == 0 /\ r = a / b.
Proof.
  unfold py_div. destruct (Qeq_bool b 0) eqn:E; [discriminate|].
  intro H. injection H as <-. split; [|reflexivity].
  intro Hb. apply Qeq_bool_iff in Hb. congruence.
Qed.

Lemma implied_rate_inv (sfreq : Q) (n_ecg : Z) (cev : events) (rate : Q) :
  implied_rate sfreq n_ecg cev = Returns rate ->
  rate = implied (len (snd cev)) (inject_Z n_ecg / sfreq).
Proof.
  unfold implied_rate, implied. intro H.
  destruct (py_div (inject_Z n_ecg) sfreq) as [d| |] eqn:Ed; cbn [bind] in H;
    try discriminate.
  apply py_div_inv in Ed as [_ ->]. now apply py_div_inv in H as [_ ->].
Qed.

Lemma implied_rate_returns (sfreq : Q) (n_ecg : Z) (cev : events) :
  ~ sfreq == 0 -> n_ecg <> 0%Z -> exists rate, implied_rate sfreq n_ecg cev = Returns rate.
Proof.
  intros Hsf Hn. unfold implied_rate.
  rewrite (py_div_returns _ Hsf). cbn [bind].
  assert (Hd : ~ inject_Z n_ecg / sfreq == 0).
  { intro E. apply Hn.
    assert (E' : inject_Z n_ecg == 0).
    { transitivity (sfreq * (inject_Z n_ecg / sfreq)).
      - symmetry. apply Qmult_div_r. exact Hsf.
      - rewrite E. ring. }
    unfold Qeq in E'. simpl in E'. lia. }
  rewrite (py_div_returns _ Hd). eexists; reflexivity.
Qed.

Lemma mask_select_filter {A : Type} (f : A -> bool) (l : list A) :
  mask_select l (map f l) = filter f l.
Proof.
  induction l as [|x r IH]; [reflexivity|].
  simpl. destruct (f x); [f_equal|]; exact IH.
Qed.

Lemma np_where_length {A : Type} (f : A -> bool) (l : list A) :
  length (np_where (map f l)) = length (filter f l).
Proof.
  unfold np_where.
  rewrite (@mask_select_where_length _ (map f l) l 0%Z) by (now rewrite length_map).
  now rewrite mask_select_filter.
Qed.

Lemma in_band_plausible (r : Q) : in_band r = true <-> plausible r.
Proof.
  unfold in_band, plausible. rewrite andb_true_iff, !Qle_bool_iff. tauto.
Qed.

(** The target rate and the chosen position of lines 125-131. *)
Lemma pick_best_inv (sfreq : Q) (n_ecg : Z) (clean_events : list events) (ev : events) :
  pick_best sfreq n_ecg clean_events = Returns ev ->
  exists rates idx,
    mapM (implied_rate sfreq n_ecg) clean_events = Returns rates /\
    let target := if (0 <? len (filter in_band rates))%Z
                  then np_median (filter in_band rates) else 80 in
    first_min (map (fun r => Qabs (r - target)) rates) idx /\
    nth_error clean_events (Z.to_nat idx) = Some ev.
Proof.
  unfold pick_best. intro H.
  destruct (mapM _ clean_events) as [rates| |] eqn:Er; cbn [bind] in H; try discriminate.
  rewrite (@np_take_np_where _ (map in_band rates) rates) in H
    by (now rewrite length_map).
  cbn [bind] in H. rewrite mask_select_filter in H.
  unfold len in H at 1. rewrite np_where_length in H. fold (len (filter in_band rates)) in H.
  set (target := if (0 <? len (filter in_band rates))%Z
                 then np_median (filter in_band rates) else 80) in *.
  destruct (np_argmin _) as [idx| |] eqn:Ei; cbn [bind] in H; try discriminate.
  exists rates, idx. split; [reflexivity|]. cbn zeta. fold target.
  assert (Hmin : first_min (map (fun r => Qabs (r - target)) rates) idx).
  { destruct (@np_argmin_spec (map (fun r => Qabs (r - target)) rates))
      as (k & Hk & Hmin).
    - intro E. rewrite E in Ei. discriminate.
    - rewrite Hk in Ei. injection Ei as <-. exact Hmin. }
  split; [exact Hmin|].
  destruct Hmin as (H0 & _).
  unfold py_index in H.
  destruct (idx <? 0)%Z eqn:En; [apply Z.ltb_lt in En; lia|].
  destruct (_ && _); [|discriminate].
  destruct (nth_error clean_events (Z.to_nat idx)); [|discriminate].
  now injection H as <-.
Qed.

(** [np_sort] orders its argument and keeps its items. *)
Lemma insert_sorted_perm (x : Q) (l : list Q) : Permutation (insert_sorted x l) (x :: l).
Proof.
  induction l as [|y r IH]; simpl; [reflexivity|].
  destruct (Qle_bool x y); [reflexivity|].
  rewrite IH. apply perm_swap.
Qed.

Lemma np_sort_perm (l : list Q) : Permutation (np_sort l) l.
Proof.
  induction l as [|x r IH]; simpl; [constructor|].
  rewrite insert_sorted_perm. now constructor.
Qed.

Lemma insert_sorted_sorted (x : Q) (l : list Q) :
  Sorted Qle l -> Sorted Qle (insert_sorted x l).
Proof.
  induction 1 as [|y r Hs IH Hy]; simpl; [repeat constructor|].
  destruct (Qle_bool x y) eqn:E.
  - apply Qle_bool_iff in E. repeat constructor; assumption.
  - assert (Hyx : y <= x).
    { apply Qlt_le_weak. apply Qltb_lt. unfold Qltb. now rewrite E. }
    constructor; [exact IH|].
    destruct r as [|z r]; simpl; [now constructor|].
    destruct (Qle_bool x z); constructor; [exact Hyx|].
    now inversion Hy.
Qed.

Lemma np_sort_sorted (l : list Q) : Sorted Qle (np_sort l).
Proof.
  induction l as [|x r IH]; simpl; [constructor|].
  now apply insert_sorted_sorted.
Qed.

(** Two runs at one distance from the target rate: the first is taken. *)
Example pick_best_tie :
  pick_best 1 60 [(Int64, repeat 0%Z 90); (Int64, repeat 0%Z 70); (Int64, [])]
  = Returns (Int64, repeat 0%Z 90).
Proof. vm_compute. reflexivity. Qed.

Lemma pick_best_returns (sfreq : Q) (n_ecg : Z) (clean_events : list events) :
  ~ sfreq == 0 -> n_ecg <> 0%Z -> clean_events <> [] ->
  exists ev, pick_best sfreq n_ecg clean_events = Returns ev.
Proof.
  intros Hsf Hn Hne. unfold pick_best.
  destruct (@mapM_returns _ _ (implied_rate sfreq n_ecg) clean_events) as (rates & Er).
  { intros cev _. now apply implied_rate_returns. }
  rewrite Er. cbn [bind].
  rewrite (@np_take_np_where _ (map in_band rates) rates) by (now rewrite length_map).
  cbn [bind].
  set (target := if (0 <? len (np_where (map in_band rates)))%Z
                 then np_median (mask_select rates (map in_band rates)) else 80).
  assert (Hlen : length rates = length clean_events) by (now apply mapM_length in Er).
  destruct (@np_argmin_spec (map (fun r => Qabs (r - target)) rates))
    as (k & -> & Hk0 & x & Hx & _).
  { destruct rates; [|discriminate]. destruct clean_events; [congruence | discriminate]. }
  cbn [bind].
  assert (Hk : (Z.to_nat k < length clean_events)%nat).
  { rewrite <- Hlen, <- (length_map (fun r => Qabs (r - target))).
    apply nth_error_Some. congruence. }
  destruct (nth_error clean_events (Z.to_nat k)) as [ev|] eqn:Ev.
  - exists ev. now apply py_index_nonneg.
  - apply nth_error_None in Ev. lia.
Qed.

Lemma qrs_runs_nonempty sqrtQ filter_data sfreq ecg thresh_value levels n_thresh tstart
      (clean_events : list events) :
  qrs_runs sqrtQ filter_data sfreq ecg thresh_value levels n_thresh tstart
  = Returns clean_events ->
  clean_events <> [].
Proof.
  intros H E. unfold qrs_runs in H.
  destruct (init_max_of _ _) as [im| |]; cbn [bind] in H; try discriminate.
  destruct (thresh_runs_of thresh_value) as [runs| |] eqn:Er; cbn [bind] in H;
    try discriminate.
  apply mapM_length in H. rewrite E in H.
  destruct thresh_value as [str|q]; simpl in Er.
  - destruct (String.eqb str "auto"); [|discriminate].
    injection Er as <-. discriminate.
  - injection Er as <-. discriminate.
Qed.

(** *** The table from concatenated to recording positions *)

Lemma np_arange_int_length (start stop : Z) :
  length (np_arange_int start stop) = Z.to_nat (stop - start).
Proof. unfold np_arange_int. now rewrite length_map, length_seq. Qed.

Lemma clip_index_range (n i : Z) : (0 <= n)%Z -> (0 <= clip_index n i <= n)%Z.
Proof.
  intro H. unfold clip_index.
  destruct (i <? 0)%Z eqn:E; [apply Z.ltb_lt in E | apply Z.ltb_ge in E]; lia.
Qed.

Lemma slice_assign_length (a : list Z) (start stop : Z) (v a' : list Z) :
  slice_assign a start stop v = Returns a' -> length a' = length a.
Proof.
  unfold slice_assign.
  pose proof (@clip_index_range (len a) start ltac:(unfold len; lia)) as Hs.
  pose proof (@clip_index_range (len a) stop ltac:(unfold len; lia)) as He.
  assert (Hsm : (Z.to_nat (clip_index (len a) start)
                 + Z.to_nat (clip_index (len a) stop - clip_index (len a) start)
                 <= length a)%nat) by (unfold len in *; lia).
  set (s := Z.to_nat (clip_index (len a) start)) in *.
  set (m := Z.to_nat (clip_index (len a) stop - clip_index (len a) start)) in *.
  intro H.
  destruct (length v =? m)%nat eqn:E1.
  - injection H as <-. apply Nat.eqb_eq in E1.
    rewrite !length_app, length_firstn, length_skipn. lia.
  - destruct (length v =? 1)%nat; [|discriminate].
    injection H as <-.
    rewrite !length_app, length_firstn, repeat_length, length_skipn. lia.
Qed.

Lemma remap_loop_grows (segments : list (Z * Z)) :
  forall (cur : list Z) (offset : Z) (r : list Z) (off' : Z),
    remap_loop segments cur offset = Returns (r, off') ->
    (offset <= off')%Z /\ length r = length cur.
Proof.
  induction segments as [|[start stop] rest IH]; intros cur offset r off' H; simpl in H.
  - injection H as <- <-. split; [lia | reflexivity].
  - destruct (stop - start <? 0)%Z eqn:E; [discriminate|]. apply Z.ltb_ge in E.
    destruct (slice_assign cur offset _ _) as [cur'| |] eqn:Ea; cbn [bind] in H;
      try discriminate.
    apply IH in H as [H1 H2]. apply slice_assign_length in Ea.
    split; [lia | congruence].
Qed.

(** The loop of lines 215-219, when it ends within the table: the
    positions filled so far are followed by the ranges of the
    remaining segments. *)
Lemma remap_loop_spec (segments : list (Z * Z)) :
  forall (done junk : list Z) (offset : Z) (r : list Z) (off' : Z),
    offset = len done ->
    remap_loop segments (done ++ junk) offset = Returns (r, off') ->
    (off' <= len (done ++ junk))%Z ->
    exists junk', r = done ++ indexMap segments ++ junk' /\
                  off' = len (done ++ indexMap segments).
Proof.
  induction segments as [|[start stop] rest IH];
    intros done junk offset r off' Hoff H Hfit; simpl in H.
  - injection H as <- <-. exists junk. simpl. rewrite app_nil_r. auto.
  - destruct (stop - start <? 0)%Z eqn:E; [discriminate|]. apply Z.ltb_ge in E.
    destruct (slice_assign (done ++ junk) offset _ _) as [cur'| |] eqn:Ea;
      cbn [bind] in H; try discriminate.
    pose proof (slice_assign_length _ _ _ _ Ea) as Hlen.
    pose proof (remap_loop_grows _ _ _ H) as [Hgrow _].
    assert (Hin : (offset + (stop - start) <= len (done ++ junk))%Z)
      by (unfold len in *; lia).
    assert (Hcur : cur' = (done ++ np_arange_int start stop)
                            ++ skipn (Z.to_nat (stop - start)) junk).
    { unfold slice_assign in Ea. unfold clip_index in Ea.
      destruct (offset <? 0)%Z eqn:E0; [apply Z.ltb_lt in E0; unfold len in *; lia|].
      destruct (offset + (stop - start) <? 0)%Z eqn:E1;
        [apply Z.ltb_lt in E1; unfold len in *; lia|].
      rewrite !Z.min_l in Ea by lia.
      replace (offset + (stop - start) - offset)%Z with (stop - start)%Z in Ea by lia.
      rewrite np_arange_int_length, Nat.eqb_refl in Ea.
      injection Ea as <-.
      replace (Z.to_nat offset) with (length done) by (unfold len in Hoff; lia).
      rewrite firstn_app, firstn_all, Nat.sub_diag, firstn_O, app_nil_r.
      rewrite skipn_app.
      rewrite (@skipn_all2 _ _ done) by lia.
      replace (length done + Z.to_nat (stop - start) - length done)%nat
        with (Z.to_nat (stop - start)) by lia.
      simpl. now rewrite <- app_assoc. }
    rewrite Hcur in H.
    destruct (IH (done ++ np_arange_int start stop)
                 (skipn (Z.to_nat (stop - start)) junk)
                 (offset + (stop - start))%Z r off') as (junk' & Hr & Ho).
    + unfold len in *. rewrite length_app, np_arange_int_length. lia.
    + exact H.
    + rewrite <- Hcur. unfold len in *. lia.
    + exists junk'. simpl. rewrite <- !app_assoc in *. auto.
Qed.

Lemma remap_of_spec (segments : list (Z * Z)) (n : nat) (remap : list Z) :
  remap_of segments n = Returns remap ->
  remap = indexMap segments /\ length remap = n.
Proof.
  unfold remap_of. intro H.
  destruct (remap_loop segments (np_empty n) 0) as [[r off]| |] eqn:El;
    cbn [bind] in H; try discriminate.
  destruct (off =? Z.of_nat n)%Z eqn:E; [|discriminate].
  injection H as <-. apply Z.eqb_eq in E.
  pose proof (remap_loop_grows _ _ _ El) as [_ Hlen].
  unfold np_empty in Hlen. rewrite repeat_length in Hlen.
  destruct (@remap_loop_spec segments [] (np_empty n) 0 r off eq_refl El)
    as (junk' & Hr & Ho).
  { unfold len, np_empty. simpl. rewrite repeat_length. lia. }
  simpl in Hr, Ho. split; [|exact Hlen].
  assert (Hj : length junk' = 0%nat).
  { rewrite Hr, length_app in Hlen. unfold len in Ho. lia. }
  apply length_zero_nil in Hj. subst junk'. now rewrite app_nil_r in Hr.
Qed.

(** *** Increasing sequences *)

Lemma StronglySorted_app (l1 l2 : list Z) :
  StronglySorted Z.lt l1 -> StronglySorted Z.lt l2 ->
  (forall x y, In x l1 -> In y l2 -> (x < y)%Z) ->
  StronglySorted Z.lt (l1 ++ l2).
Proof.
  intros H1 H2 H. induction H1 as [|a l1 Hs IH Ha]; simpl; [exact H2|].
  constructor.
  - apply IH. intros x y Hx Hy. apply H; [now right | exact Hy].
  - apply Forall_app. split; [exact Ha|].
    apply Forall_forall. intros y Hy. apply H; [now left | exact Hy].
Qed.

Lemma seq_shift_sorted (a : Z) (k s : nat) :
  StronglySorted Z.lt (map (fun i => (a + Z.of_nat i)%Z) (seq s k)).
Proof.
  revert s. induction k as [|k IH]; intro s; simpl; constructor.
  - apply IH.
  - apply Forall_forall. intros y Hy.
    apply in_map_iff in Hy as (i & <- & Hi). apply in_seq in Hi. lia.
Qed.

Lemma np_arange_int_spec (start stop : Z) :
  StronglySorted Z.lt (np_arange_int start stop) /\
  Forall (fun x => (start <= x < stop)%Z) (np_arange_int start stop).
Proof.
  unfold np_arange_int. split; [apply seq_shift_sorted|].
  apply Forall_forall. intros y Hy.
  apply in_map_iff in Hy as (i & <- & Hi). apply in_seq in Hi. lia.
Qed.

(** Ordered segments that do not overlap give an increasing index map. *)
Lemma indexMap_increasing (segments : list (Z * Z)) :
  forall lo, ordered_from lo segments ->
    StronglySorted Z.lt (indexMap segments) /\
    Forall (fun x => (lo <= x)%Z) (indexMap segments).
Proof.
  induction segments as [|[start stop] rest IH]; intros lo H; simpl.
  - split; constructor.
  - destruct H as (Hlo & Hss & Hrest).
    destruct (IH stop Hrest) as [Hs Hf].
    destruct (np_arange_int_spec start stop) as [Has Haf].
    rewrite Forall_forall in Hf, Haf.
    split.
    + apply StronglySorted_app; auto.
      intros x y Hx Hy. apply Haf in Hx. apply Hf in Hy. lia.
    + apply Forall_app. split; apply Forall_forall; intros x Hx.
      * apply Haf in Hx. lia.
      * apply Hf in Hx. lia.
Qed.

Lemma sorted_nth_lt (l : list Z) :
  StronglySorted Z.lt l ->
  forall i j x y, (i < j)%nat ->
    nth_error l i = Some x -> nth_error l j = Some y -> (x < y)%Z.
Proof.
  induction 1 as [|a l Hs IH Ha]; intros i j x y Hij Hx Hy.
  - destruct i; discriminate.
  - destruct j as [|j]; [lia|]. simpl in Hy.
    destruct i as [|i]; simpl in Hx.
    + injection Hx as <-. rewrite Forall_forall in Ha.
      apply Ha. eapply nth_error_In; eauto.
    + eapply IH; [|exact Hx|exact Hy]. lia.
Qed.

Lemma py_index_inv {A : Type} (l : list A) (i : Z) (x : A) :
  py_index l i = Returns x ->
  let j := if (i <? 0)%Z then (i + len l)%Z else i in
  (0 <= j < len l)%Z /\ nth_error l (Z.to_nat j) = Some x.
Proof.
  unfold py_index, len. intro H. cbn zeta.
  set (j := if (i <? 0)%Z then (i + Z.of_nat (length l))%Z else i) in *.
  destruct ((0 <=? j)%Z && (j <? Z.of_nat (length l))%Z) eqn:E; [|discriminate].
  apply andb_true_iff in E as [E1 E2]. apply Z.leb_le in E1. apply Z.ltb_lt in E2.
  destruct (nth_error l (Z.to_nat j)); [|discriminate].
  injection H as <-. auto.
Qed.

(** Indices of one sign into an increasing table: a larger index finds
    a larger item. *)
Lemma py_index_increasing (l : list Z) (i j x y : Z) :
  StronglySorted Z.lt l ->
  (0 <= i \/ j < 0)%Z -> (i < j)%Z ->
  py_index l i = Returns x -> py_index l j = Returns y -> (x < y)%Z.
Proof.
  intros Hs Hsign Hij Hx Hy.
  apply py_index_inv in Hx as [Hi Hx]. apply py_index_inv in Hy as [Hj Hy].
  eapply (sorted_nth_lt Hs); [|exact Hx|exact Hy].
  destruct (i <? 0)%Z eqn:Ei; destruct (j <? 0)%Z eqn:Ej;
    try apply Z.ltb_lt in Ei; try apply Z.ltb_ge in Ei;
    try apply Z.ltb_lt in Ej; try apply Z.ltb_ge in Ej; lia.
Qed.

Lemma np_take_Forall2 {A : Type} (a : list A) (idx : list Z) (xs : list A) :
  np_take a idx = Returns xs ->
  Forall2 (fun i x => py_index a i = Returns x) idx xs.
Proof.
  revert xs. induction idx as [|i r IH]; intros xs H; simpl in H.
  - injection H as <-. constructor.
  - destruct (py_index a i) as [x| |] eqn:Ei; cbn [bind] in H; try discriminate.
    destruct (np_take a r) as [xs'| |]; cbn [bind] in H; try discriminate.
    injection H as <-. constructor; [exact Ei | now apply IH].
Qed.

Lemma Forall2_In_r {A B : Type} (R : A -> B -> Prop) (l : list A) (l' : list B) (y : B) :
  Forall2 R l l' -> In y l' -> exists x, In x l /\ R x y.
Proof.
  induction 1 as [|a b l l' Hab _ IH]; intro Hy; [contradiction|].
  destruct Hy as [<-|Hy].
  - exists a. split; [now left | exact Hab].
  - destruct (IH Hy) as (x & Hx & Hr). exists x. split; [now right | exact Hr].
Qed.

Lemma take_increasing (remap evs rs : list Z) :
  StronglySorted Z.lt remap -> StronglySorted Z.lt evs ->
  Forall (fun e => (0 <= e)%Z) evs \/ Forall (fun e => (e < 0)%Z) evs ->
  Forall2 (fun e r => py_index remap e = Returns r) evs rs ->
  StronglySorted Z.lt rs.
Proof.
  intros Hremap Hevs Hsign H. revert Hevs Hsign.
  induction H as [|e r evs rs Her Hrest IH]; intros Hevs Hsign; constructor.
  - apply IH.
    + now inversion Hevs.
    + destruct Hsign as [Hs|Hs]; [left|right]; now inversion Hs.
  - apply Forall_forall. intros r' Hr'.
    destruct (@Forall2_In_r _ _ _ _ _ _ Hrest Hr') as (e' & He' & Hidx).
    inversion Hevs as [|? ? _ Hlt]; subst. rewrite Forall_forall in Hlt.
    eapply py_index_increasing; [exact Hremap| |apply Hlt; exact He'|exact Her|exact Hidx].
    destruct Hsign as [Hs|Hs]; rewrite Forall_forall in Hs.
    + left. apply Hs. now left.
    + right. apply Hs. now right.
Qed.

(** *** The events [qrs_detector] returns *)

Lemma np_max_returns (l : list Q) (m : Q) : np_max l = Returns m -> l <> [].
Proof. destruct l; [discriminate | discriminate]. Qed.

Lemma py_slice_nil {A : Type} (start stop : option Z) :
  py_slice (@nil A) start stop = [].
Proof. unfold py_slice. rewrite skipn_nil. apply firstn_nil. Qed.

(** The calibration of lines 71-76 needs [init >= 1] and a signal that
    is not empty. *)
Lemma init_max_returns (ecg_abs : list Q) (init : Z) (im : Q) :
  init_max_of ecg_abs init = Returns im -> (1 <= init)%Z /\ ecg_abs <> [].
Proof.
  unfold init_max_of. intro H.
  destruct (np_max (py_slice ecg_abs None (Some init))) as [m0| |] eqn:E0;
    cbn [bind] in H; try discriminate.
  destruct (np_max (py_slice ecg_abs (Some init) (Some (init * 2)%Z))) as [m1| |] eqn:E1;
    cbn [bind] in H; try discriminate.
  apply np_max_returns in E0, E1. split.
  - destruct (Z.lt_trichotomy init 0) as [Hneg|[Hz|Hpos]]; [| |lia]; exfalso.
    + apply E1. unfold py_slice, clip_index.
      destruct (init <? 0)%Z eqn:Ea; [|apply Z.ltb_ge in Ea; lia].
      destruct (init * 2 <? 0)%Z eqn:Eb; [|apply Z.ltb_ge in Eb; lia].
      replace (Z.to_nat _) with 0%nat by lia. apply firstn_O.
    + apply E0. subst init. now rewrite py_slice_to by lia.
  - intro E. subst ecg_abs. apply E0. apply py_slice_nil.
Qed.

Lemma py_round_nonneg (x : Q) : 0 <= x -> (0 <= py_round x)%Z.
Proof.
  intro H. unfold py_round.
  assert (Hf : (0 <= Qfloor x)%Z).
  { change 0%Z with (Qfloor 0). now apply Qfloor_resp_le. }
  destruct (Qcompare _ _); [destruct (Z.even _)| |]; lia.
Qed.

Lemma win_size_nonneg (sfreq : Q) : (1 <= init_of sfreq)%Z -> (0 <= win_size_of sfreq)%Z.
Proof.
  unfold init_of, win_size_of. intro H. apply py_round_nonneg.
  assert (Hs : 0 <= sfreq).
  { destruct (Qlt_le_dec sfreq 0) as [Hneg|Hpos]; [|exact Hpos]. exfalso.
    rewrite py_int_ceiling in H by lra.
    assert (Qceiling sfreq <= Qceiling 0)%Z by (apply Qceiling_resp_le; lra).
    change (Qceiling 0) with 0%Z in *. lia. }
  unfold Qdiv. apply Qmult_le_0_compat; [|discriminate].
  apply Qmult_le_0_compat; [discriminate | exact Hs].
Qed.

(** With a window size 0 the first pass of the loop raises at
    [window[0]]. *)
Lemma scan_zero_window (sqrtQ : Q -> Q) (ecg_abs : list Q) (thresh1 : Q) :
  ecg_abs <> [] ->
  scan_loop sqrtQ ecg_abs 0 thresh1 (length ecg_abs) 0 no_peaks = Raises IndexError.
Proof.
  destruct ecg_abs as [|x l]; [congruence|]. intros _.
  simpl length. rewrite scan_loop_unfold.
  replace (0 <? len (x :: l) - 0)%Z with true
    by (symmetry; apply Z.ltb_lt; unfold len; simpl length; lia).
  rewrite py_slice_nonneg by lia. reflexivity.
Qed.

Lemma mask_select_In {A : Type} (l : list A) (mask : list bool) (x : A) :
  In x (mask_select l mask) -> In x l.
Proof.
  revert mask. induction l as [|a l IH]; intros [|m mask] H; simpl in H;
    try contradiction.
  destruct m; [destruct H as [<-|H]; [now left|]|]; right; eapply IH; eauto.
Qed.

Lemma mask_select_sorted (l : list Z) (mask : list bool) :
  StronglySorted Z.lt l -> StronglySorted Z.lt (mask_select l mask).
Proof.
  intro H. revert mask. induction H as [|a l Hs IH Ha]; intros [|m mask]; simpl;
    try constructor.
  destruct m; [|apply IH]. constructor; [apply IH|].
  rewrite Forall_forall in *. intros x Hx. apply Ha. eapply mask_select_In; eauto.
Qed.

Lemma map_shift_sorted (d : Z) (l : list Z) :
  StronglySorted Z.lt l -> StronglySorted Z.lt (map (fun t => (t + d)%Z) l).
Proof.
  induction 1 as [|a l Hs IH Ha]; simpl; constructor; [exact IH|].
  rewrite Forall_forall in *. intros y Hy.
  apply in_map_iff in Hy as (x & <- & Hx). apply Ha in Hx. lia.
Qed.

(** The events of a run with an integer array: recorded peaks, in
    increasing order, shifted by the start offset. *)
Lemma threshold_run_int_events (sqrtQ : Q -> Q) (ecg_abs : list Q) (win_size : Z)
      (init_max levels : Q) (n_thresh n_samples_start : Z) (fraction : Q)
      (evs : list Z) :
  (0 <= win_size)%Z -> ecg_abs <> [] ->
  threshold_run sqrtQ ecg_abs win_size init_max levels n_thresh n_samples_start fraction
  = Returns (Int64, evs) ->
  StronglySorted Z.lt evs /\
  Forall (fun e => (n_samples_start <= e < len ecg_abs + n_samples_start)%Z) evs.
Proof.
  intros Hw Hne Hrun.
  destruct (Z.eq_dec win_size 0) as [->|Hnz].
  { unfold threshold_run in Hrun. rewrite scan_zero_window in Hrun by exact Hne.
    discriminate. }
  assert (Hpos : (0 < win_size)%Z) by lia.
  destruct (@scan_loop_from sqrtQ ecg_abs win_size (init_max * fraction) Hpos
              (length ecg_abs) 0%Z no_peaks)
    as (peaks & nxs & rs & Hscan & _ & Hn & Hr & Hrange & Hsorted);
    [lia | unfold len; lia |].
  simpl in Hscan.
  remember (mk_scan peaks nxs rs) as s eqn:Es.
  assert (Ht : time s = peaks) by (now subst s).
  assert (Hrs : length (rms s) = length (time s)) by (subst s; exact Hr).
  assert (Hns : length (numcross s) = length (time s)) by (subst s; exact Hn).
  clear Es.
  destruct (rms s) as [|r0 rs0] eqn:Erms.
  - exfalso. unfold threshold_run in Hrun. rewrite Hscan in Hrun. cbn [bind] in Hrun.
    destruct (reject_outliers _ _ _ _ _) as [ce| |]; cbn [bind] in Hrun; try discriminate.
    unfold time_dtype in Hrun. rewrite Erms in Hrun. discriminate.
  - rewrite (@threshold_run_genuine sqrtQ ecg_abs win_size init_max levels n_thresh
               n_samples_start fraction _ Hscan) in Hrun.
    2:{ intro E. rewrite E in Hrs. discriminate. }
    injection Hrun as <-. rewrite <- Erms in Hrs.
    destruct (@survivors_sublist (rms_thresh_of sqrtQ levels (rms s)) n_thresh
                (time s) (numcross s) (rms s) Hns Hrs) as (mask & _ & ->).
    rewrite Ht. split.
    + apply map_shift_sorted. now apply mask_select_sorted.
    + apply Forall_forall. intros e He.
      apply in_map_iff in He as (t & <- & Hin). apply mask_select_In in Hin.
      rewrite Forall_forall in Hrange. apply Hrange in Hin. lia.
Qed.

Lemma ecg_abs_of_length (filter_data : list Q -> list Q) (sfreq tstart : Q)
      (ecg : list Q) :
  (n_samples_start_of sfreq tstart < 0)%Z ->
  (len (ecg_abs_of filter_data sfreq tstart ecg) + n_samples_start_of sfreq tstart <= 0)%Z.
Proof.
  intro Hneg. unfold ecg_abs_of, py_slice, clip_index, len.
  destruct (n_samples_start_of sfreq tstart <? 0)%Z eqn:E;
    [|apply Z.ltb_ge in E; lia].
  rewrite length_firstn, length_skipn. lia.
Qed.

(** The integer events [qrs_detector] returns increase, and are all
    negative or all not. *)
Lemma qrs_detector_int_events (sqrtQ : Q -> Q) (filter_data : list Q -> list Q)
      (sfreq : Q) (ecg : list Q) (thresh_value : thresh_spec) (levels : Q)
      (n_thresh : Z) (tstart : Q) (evs : list Z) :
  qrs_detector sqrtQ filter_data sfreq ecg thresh_value levels n_thresh tstart
  = Returns (Int64, evs) ->
  StronglySorted Z.lt evs /\
  (Forall (fun e => (0 <= e)%Z) evs \/ Forall (fun e => (e < 0)%Z) evs).
Proof.
  intro H. apply qrs_detector_returns_run in H as (im & fr & Him & Hrun).
  apply init_max_returns in Him as [Hinit Hne].
  apply win_size_nonneg in Hinit.
  apply threshold_run_int_events in Hrun as [Hs Hr]; [|exact Hinit|exact Hne].
  split; [exact Hs|].
  destruct (Z.lt_ge_cases (n_samples_start_of sfreq tstart) 0) as [Hneg|Hpos].
  - right. pose proof (ecg_abs_of_length filter_data sfreq tstart ecg Hneg).
    eapply Forall_impl; [|exact Hr]. simpl. intros; lia.
  - left. eapply Forall_impl; [|exact Hr]. simpl. intros; lia.
Qed.

(** *** The event table *)

Lemma Forall2_map_r {A B C : Type} (R : A -> C -> Prop) (f : B -> C)
      (l : list A) (l' : list B) :
  Forall2 (fun a b => R a (f b)) l l' -> Forall2 R l (map f l').
Proof. induction 1; simpl; constructor; auto. Qed.

Lemma wrap64_id (z : Z) : int64 z = true -> wrap64 z = z.
Proof.
  unfold int64, wrap64. intro H. apply andb_true_iff in H as [Hlo Hhi].
  apply Z.leb_le in Hlo. apply Z.ltb_lt in Hhi.
  rewrite Z.mod_small; lia.
Qed.

Lemma np_take_members {A : Type} (a : list A) (idx : list Z) (xs : list A) :
  np_take a idx = Returns xs -> Forall (fun x => In x a) xs.
Proof.
  revert xs. induction idx as [|i r IH]; intros xs H; simpl in H.
  - injection H as <-. constructor.
  - destruct (py_index a i) as [x| |] eqn:Ex; cbn [bind] in H; try discriminate.
    destruct (np_take a r) as [ys| |]; cbn [bind] in H; try discriminate.
    injection H as <-. constructor; [now apply py_index_In in Ex | now apply IH].
Qed.

(** Rows whose sums stay within [int64] are the plain sums. *)
Lemma event_table_plain (rs : list Z) (first_samp event_id : Z) :
  int64 event_id = true ->
  Forall (fun r => int64 (r + first_samp) = true) rs ->
  event_table rs first_samp event_id
  = map (fun r => ((r + first_samp)%Z, 0%Z, event_id)) rs.
Proof.
  intros Hid Hrs. unfold event_table. apply map_ext_in. intros r Hr.
  rewrite Forall_forall in Hrs.
  rewrite (@wrap64_id _ (Hrs r Hr)).
  replace (event_id * 1)%Z with event_id by lia.
  now rewrite (@wrap64_id _ Hid).
Qed.

(** C7, with the ranges of the [int64] table: for ordered segments
    that do not overlap, an event code within [int64] and recording
    positions [indexMap[.] + firstSampleOffset] within [int64], the
    rows of the event table are [(indexMap[e] + first_samp, 0,
    event_id)] for the events [e] that [qrs_detector] found on the
    concatenated signal, and their first column increases. *)
Theorem event_table_spec (sqrtQ : Q -> Q) (filter_data segment_filter : list Q -> list Q)
        (ecg : list Q) (segments : list (Z * Z)) (sfreq tstart : Q)
        (qrs_threshold : thresh_spec) (firstSampleOffset eventCode : Z)
        (table : list (Z * Z * Z)) (average_pulse : Q) :
  ordered_segments segments ->
  int64 firstSampleOffset = true ->
  int64 eventCode = true ->
  Forall (fun original => int64 (original + firstSampleOffset) = true)
         (indexMap segments) ->
  find_ecg_events sqrtQ filter_data segment_filter ecg segments sfreq tstart
    qrs_threshold firstSampleOffset eventCode
  = Returns (table, average_pulse) ->
  exists ecg_events,
    qrs_detector sqrtQ filter_data sfreq (concatenated segment_filter ecg segments)
      qrs_threshold 2.5 3 tstart
    = Returns (Int64, ecg_events) /\
    Forall2 (fun concatenatedIndex row =>
               exists original,
                 py_index (indexMap segments) concatenatedIndex = Returns original /\
                 row = ((original + firstSampleOffset)%Z, 0%Z, eventCode))
            ecg_events table /\
    Forall (fun row => snd (fst row) = 0%Z) table /\
    StronglySorted Z.lt (map (fun row => fst (fst row)) table).
Proof.
  intros Hord _ Hcode Hrange H. unfold find_ecg_events in H.
  destruct segments as [|[start0 stop0] rest] eqn:Esegs; [discriminate|].
  rewrite <- Esegs in *. cbn [bind] in H.
  destruct (qrs_detector _ _ _ _ _ _ _ _) as [[dt evs]| |] eqn:Eq;
    cbn [bind] in H; try discriminate.
  destruct (remap_of segments _) as [remap| |] eqn:Er; cbn [bind] in H;
    try discriminate.
  apply remap_of_spec in Er as [-> _].
  unfold index_by_events in H. cbn [fst snd] in H.
  destruct dt; [|discriminate].
  destruct (np_take (indexMap segments) evs) as [rs| |] eqn:Et; cbn [bind] in H;
    try discriminate.
  destruct (py_div _ sfreq) as [d| |]; cbn [bind] in H; try discriminate.
  destruct (py_div _ _) as [pulse| |]; cbn [bind] in H; try discriminate.
  injection H as <- _.
  assert (Hrs : Forall (fun r => int64 (r + firstSampleOffset) = true) rs).
  { pose proof (@np_take_members _ _ _ _ Et) as Hin.
    rewrite Forall_forall in Hin, Hrange. apply Forall_forall.
    intros r Hr. apply Hrange. now apply Hin. }
  rewrite (@event_table_plain _ _ _ Hcode Hrs).
  apply np_take_Forall2 in Et.
  exists evs. split; [reflexivity|]. split; [|split].
  - apply Forall2_map_r. eapply Forall2_impl; [|exact Et].
    intros e r He. exists r. auto.
  - apply Forall_forall. intros row Hrow.
    apply in_map_iff in Hrow as (e & <- & _). reflexivity.
  - rewrite map_map. cbn [fst]. apply map_shift_sorted.
    apply qrs_detector_int_events in Eq as [Hs Hsign].
    assert (Hinc : StronglySorted Z.lt (indexMap segments)).
    { rewrite Esegs in Hord |- *.
      exact (proj1 (@indexMap_increasing ((start0, stop0) :: rest) start0 Hord)). }
    exact (take_increasing Hinc Hs Hsign Et).
Qed.

Lemma event_table_spec_witness :
  ordered_segments [(0, 10); (15, 30)]%Z /\
  find_ecg_events (fun q => q) (fun l => l) (fun l => l)
    [1; 0; 1; 0; 0; 0; 0; 0; 0; 0; 0; 1; 0; 0; 0; 0; 3; 0; 0; 0; 1; 0; 0; 0; 1; 1; 1; 0; 0; 0]
    [(0, 10); (15, 30)]%Z 6 0 (ThreshStr "auto") 100 999
  = Returns ([(100, 0, 999); (116, 0, 999); (120, 0, 999); (124, 0, 999)]%Z, 1440 # 25) /\
  StronglySorted Z.lt
    (map (fun row : Z * Z * Z => fst (fst row))
         [(100, 0, 999); (116, 0, 999); (120, 0, 999); (124, 0, 999)]%Z).
Proof.
  assert (Hord : ordered_segments [(0, 10); (15, 30)]%Z) by (simpl; lia).
  assert (Hrun :
    find_ecg_events (fun q => q) (fun l => l) (fun l => l)
      [1; 0; 1; 0; 0; 0; 0; 0; 0; 0; 0; 1; 0; 0; 0; 0; 3; 0; 0; 0; 1; 0; 0; 0; 1; 1; 1; 0; 0; 0]
      [(0, 10); (15, 30)]%Z 6 0 (ThreshStr "auto") 100 999
    = Returns ([(100, 0, 999); (116, 0, 999); (120, 0, 999); (124, 0, 999)]%Z, 1440 # 25))
    by (vm_compute; reflexivity).
  assert (Hrange : Forall (fun original => int64 (original + 100) = true)
                          (indexMap [(0, 10); (15, 30)]%Z))
    by (apply Forall_forall; intros r Hr; vm_compute in Hr;
        repeat (destruct Hr as [<-|Hr]; [reflexivity|]); contradiction).
  split; [exact Hord|]. split; [exact Hrun|].
  destruct (@event_table_spec _ _ _ _ _ _ _ _ 100%Z 999%Z _ _ Hord eq_refl eq_refl
              Hrange Hrun)
    as (evs & _ & _ & _ & Hs).
  exact Hs.
Defined.

(** C7 as stated fails at the edge of [int64]: with the first sample
    at [2^63 - 10] the second event, at position 16 of the recording,
    wraps around; its row is not [(16 + first_samp, 0, 999)] and the
    first column no longer increases. *)
Lemma event_table_wraps :
  ordered_segments [(0, 10); (15, 30)]%Z /\
  int64 (2 ^ 63 - 10) = true /\
  find_ecg_events (fun q => q) (fun l => l) (fun l => l)
    [1; 0; 1; 0; 0; 0; 0; 0; 0; 0; 0; 1; 0; 0; 0; 0; 3; 0; 0; 0; 1; 0; 0; 0; 1; 1; 1; 0; 0; 0]
    [(0, 10); (15, 30)]%Z 6 0 (ThreshStr "auto") (2 ^ 63 - 10) 999
  = Returns ([(2 ^ 63 - 10, 0, 999); (- 2 ^ 63 + 6, 0, 999);
              (- 2 ^ 63 + 10, 0, 999); (- 2 ^ 63 + 14, 0, 999)]%Z, 1440 # 25) /\
  (- 2 ^ 63 + 6 <> 16 + (2 ^ 63 - 10))%Z /\
  ~ StronglySorted Z.lt
      (map (fun row : Z * Z * Z => fst (fst row))
           [(2 ^ 63 - 10, 0, 999); (- 2 ^ 63 + 6, 0, 999);
            (- 2 ^ 63 + 10, 0, 999); (- 2 ^ 63 + 14, 0, 999)]%Z).
Proof.
  split; [simpl; lia|]. split; [reflexivity|].
  split; [vm_compute; reflexivity|]. split; [discriminate|].
  intro Hs. inversion Hs as [|a l _ Hall]; subst.
  inversion Hall as [|b l' Hlt _]; subst. vm_compute in Hlt. discriminate.
Qed.

(** *** The fuel of the scan is enough *)

Lemma bind_terminates {A B : Type} (m : outcome A) (k : A -> outcome B) :
  m <> Diverges -> (forall a, m = Returns a -> k a <> Diverges) ->
  bind m k <> Diverges.
Proof.
  intros Hm Hk. destruct m as [a| |]; simpl; [now apply Hk | discriminate | congruence].
Qed.

Lemma py_index_terminates {A : Type} (l : list A) (i : Z) : py_index l i <> Diverges.
Proof.
  unfold py_index. destruct (_ && _); [|discriminate].
  destruct (nth_error l _); discriminate.
Qed.

Lemma np_take_terminates {A : Type} (a : list A) (idx : list Z) :
  np_take a idx <> Diverges.
Proof.
  induction idx as [|i r IH]; simpl; [discriminate|].
  apply bind_terminates; [apply py_index_terminates|]. intros x _.
  apply bind_terminates; [exact IH|]. discriminate.
Qed.

Lemma mapM_terminates {A B : Type} (f : A -> outcome B) (l : list A) :
  (forall x, f x <> Diverges) -> mapM f l <> Diverges.
Proof.
  intro Hf. induction l as [|x r IH]; simpl; [discriminate|].
  apply bind_terminates; [apply Hf|]. intros y _.
  apply bind_terminates; [exact IH|]. discriminate.
Qed.

Lemma py_div_terminates (a b : Q) : py_div a b <> Diverges.
Proof. unfold py_div. destruct (Qeq_bool b 0); discriminate. Qed.

Lemma np_max_terminates (l : list Q) : np_max l <> Diverges.
Proof. destruct l; discriminate. Qed.

Lemma np_argmin_terminates (l : list Q) : np_argmin l <> Diverges.
Proof. destruct l; discriminate. Qed.

Lemma reject_outliers_terminates (sqrtQ : Q -> Q) (levels : Q)
      (n_thresh n_samples_start : Z) (s : scan_lists) :
  reject_outliers sqrtQ levels n_thresh n_samples_start s <> Diverges.
Proof.
  unfold reject_outliers.
  apply bind_terminates; [apply np_take_terminates|]. intros a _.
  apply bind_terminates.
  { unfold np_mask. destruct (_ =? _)%nat; discriminate. }
  intros keep _. apply bind_terminates; [apply np_take_terminates|]. discriminate.
Qed.

Lemma threshold_run_terminates (sqrtQ : Q -> Q) (ecg_abs : list Q) (win_size : Z)
      (init_max levels : Q) (n_thresh n_samples_start : Z) (fraction : Q) :
  (0 <= win_size)%Z ->
  threshold_run sqrtQ ecg_abs win_size init_max levels n_thresh n_samples_start fraction
  <> Diverges.
Proof.
  intro Hw. unfold threshold_run. apply bind_terminates.
  - destruct (Z.eq_dec win_size 0) as [->|Hnz].
    + destruct ecg_abs as [|x l] eqn:E; [simpl; discriminate|].
      rewrite scan_zero_window; discriminate.
    + destruct (@scan_loop_from sqrtQ ecg_abs win_size (init_max * fraction)
                  ltac:(lia) (length ecg_abs) 0%Z no_peaks)
        as (peaks & nxs & rs & -> & _); [lia | unfold len; lia | discriminate].
  - intros s _. apply bind_terminates; [apply reject_outliers_terminates|].
    discriminate.
Qed.

Lemma pick_best_terminates (sfreq : Q) (n_ecg : Z) (clean_events : list events) :
  pick_best sfreq n_ecg clean_events <> Diverges.
Proof.
  unfold pick_best. apply bind_terminates.
  { apply mapM_terminates. intro cev. unfold implied_rate.
    apply bind_terminates; [apply py_div_terminates|]. intros; apply py_div_terminates. }
  intros rates _. apply bind_terminates; [apply np_take_terminates|].
  intros band _. apply bind_terminates; [apply np_argmin_terminates|].
  intros idx _. apply py_index_terminates.
Qed.

(** Every call of [qrs_detector] returns or raises: the loop of each
    threshold run ends within its fuel. *)
Lemma qrs_detector_terminates (sqrtQ : Q -> Q) (filter_data : list Q -> list Q)
      (sfreq : Q) (ecg : list Q) (thresh_value : thresh_spec) (levels : Q)
      (n_thresh : Z) (tstart : Q) :
  qrs_detector sqrtQ filter_data sfreq ecg thresh_value levels n_thresh tstart
  <> Diverges.
Proof.
  unfold qrs_detector. apply bind_terminates; [|intros; apply pick_best_terminates].
  unfold qrs_runs. apply bind_terminates.
  { unfold init_max_of.
    repeat (apply bind_terminates; [apply np_max_terminates | intros ? _]).
    discriminate. }
  intros im Him. apply init_max_returns in Him as [Hinit _].
  apply win_size_nonneg in Hinit.
  apply bind_terminates.
  { destruct thresh_value as [str|q]; simpl; [destruct (String.eqb _ _)|]; discriminate. }
  intros runs _. apply mapM_terminates. intro fr.
  now apply threshold_run_terminates.
Qed.

Lemma remap_loop_terminates (segments : list (Z * Z)) :
  forall cur offset, remap_loop segments cur offset <> Diverges.
Proof.
  induction segments as [|[start stop] rest IH]; intros cur offset; simpl;
    [discriminate|].
  destruct (_ <? 0)%Z; [discriminate|].
  apply bind_terminates; [|intros; apply IH].
  unfold slice_assign. destruct (_ =? _)%nat; [discriminate|].
  destruct (_ =? _)%nat; discriminate.
Qed.

Lemma find_ecg_events_terminates (sqrtQ : Q -> Q)
      (filter_data segment_filter : list Q -> list Q)
      (ecg : list Q) (segments : list (Z * Z)) (sfreq tstart : Q)
      (qrs_threshold : thresh_spec) (first_samp event_id : Z) :
  find_ecg_events sqrtQ filter_data segment_filter ecg segments sfreq tstart
    qrs_threshold first_samp event_id <> Diverges.
Proof.
  unfold find_ecg_events.
  apply bind_terminates; [destruct segments; discriminate | intros _ _].
  apply bind_terminates; [apply qrs_detector_terminates | intros ev _].
  apply bind_terminates.
  { unfold remap_of. apply bind_terminates; [apply remap_loop_terminates|].
    intros [r off] _. destruct (_ =? _)%Z; discriminate. }
  intros remap _. apply bind_terminates.
  { unfold index_by_events. destruct (fst ev); [apply np_take_terminates | discriminate]. }
  intros evs _. apply bind_terminates; [apply py_div_terminates | intros d _].
  apply bind_terminates; [apply py_div_terminates | discriminate].
Qed.

(** ** Properties of the binary64 reading *)

(** *** The order of binary64 numbers *)

Ltac key_case :=
  eexists; split; [reflexivity|]; split; split; intro;
  solve [discriminate | reflexivity | lia | exfalso; lia].

(** The comparison of two floats that are not NaN is the comparison of
    their keys. *)
Lemma SFcompare_key (x y : spec_float) :
  x <> S754_nan -> y <> S754_nan ->
  exists c, SFcompare x y = Some c /\
    (c = Lt <-> Spec64.key_lt (Spec64.sf_key x) (Spec64.sf_key y)) /\
    (c = Gt <-> Spec64.key_lt (Spec64.sf_key y) (Spec64.sf_key x)).
Proof.
  intros Hx Hy.
  destruct x as [sx|sx| |sx mx ex]; [| |congruence|];
  destruct y as [sy|sy| |sy my ey]; try congruence;
  try destruct sx; try destruct sy; cbn [SFcompare Spec64.sf_key Spec64.key_lt];
  try key_case.
  - destruct (Z.compare_spec ex ey) as [E|E|E]; try key_case.
    fold (Pos.compare mx my).
    destruct (Pos.compare_spec mx my) as [E'|E'|E']; cbn [CompOpp]; key_case.
  - destruct (Z.compare_spec ex ey) as [E|E|E]; try key_case.
    fold (Pos.compare mx my).
    destruct (Pos.compare_spec mx my) as [E'|E'|E']; key_case.
Qed.

Lemma is_nan_spec (x : float) : is_nan x = true <-> Prim2SF x = S754_nan.
Proof.
  unfold is_nan. rewrite FloatAxioms.eqb_spec. unfold SFeqb.
  destruct (Prim2SF x) as [s|s| |s m e] eqn:E; cbn [SFcompare].
  - split; discriminate.
  - destruct s; split; discriminate.
  - split; reflexivity.
  - destruct s; rewrite Z.compare_refl; fold (Pos.compare m m);
      rewrite Pos.compare_refl; split; discriminate.
Qed.

Lemma not_nan_spec (x : float) : is_nan x = false -> Prim2SF x <> S754_nan.
Proof. intros H E. apply is_nan_spec in E. congruence. Qed.

Lemma ltb_key (x y : float) :
  is_nan x = false -> is_nan y = false ->
  ((x <? y)%float = true <-> Spec64.key_lt (Spec64.key x) (Spec64.key y)).
Proof.
  intros Hx Hy. rewrite FloatAxioms.ltb_spec. unfold SFltb, Spec64.key.
  destruct (@SFcompare_key _ _ (@not_nan_spec x Hx) (@not_nan_spec y Hy))
    as (c & -> & Hlt & _).
  rewrite <- Hlt. destruct c; split; congruence.
Qed.

Lemma leb_key (x y : float) :
  is_nan x = false -> is_nan y = false ->
  ((x <=? y)%float = false <-> Spec64.key_lt (Spec64.key y) (Spec64.key x)).
Proof.
  intros Hx Hy. rewrite FloatAxioms.leb_spec. unfold SFleb, Spec64.key.
  destruct (@SFcompare_key _ _ (@not_nan_spec x Hx) (@not_nan_spec y Hy))
    as (c & -> & _ & Hgt).
  rewrite <- Hgt. destruct c; split; congruence.
Qed.

Lemma key_lt_trans (a b c : Z * Z * Z) :
  Spec64.key_lt a b -> Spec64.key_lt b c -> Spec64.key_lt a c.
Proof.
  destruct a as [[? ?] ?], b as [[? ?] ?], c as [[? ?] ?]. unfold Spec64.key_lt. lia.
Qed.




(** Comparisons with NaN are false. *)
Lemma ltb_nan_r (x y : float) : is_nan y = true -> (x <? y)%float = false.
Proof.
  intro H. apply is_nan_spec in H. rewrite FloatAxioms.ltb_spec, H. unfold SFltb.
  destruct (Prim2SF x); reflexivity.
Qed.

Lemma ltb_trans (x y z : float) :
  (x <? y)%float = true -> (y <? z)%float = true -> (x <? z)%float = true.
Proof.
  intros Hxy Hyz.
  assert (Hx : is_nan x = false).
  { destruct (is_nan x) eqn:E; [|reflexivity]. apply is_nan_spec in E.
    rewrite FloatAxioms.ltb_spec, E in Hxy. discriminate. }
  assert (Hy : is_nan y = false).
  { destruct (is_nan y) eqn:E; [|reflexivity]. now rewrite (@ltb_nan_r x y E) in Hxy. }
  assert (Hz : is_nan z = false).
  { destruct (is_nan z) eqn:E; [|reflexivity]. now rewrite (@ltb_nan_r y z E) in Hyz. }
  apply (@ltb_key x z Hx Hz). apply (@ltb_key x y Hx Hy) in Hxy.
  apply (@ltb_key y z Hy Hz) in Hyz.
  eapply key_lt_trans; eauto.
Qed.

(** The product of two floats does not depend on their order. *)
Lemma mul_comm (x y : float) : (x * y)%float = (y * x)%float.
Proof.
  apply Prim2SF_inj. rewrite !FloatAxioms.mul_spec. unfold SF64mul.
  destruct (Prim2SF x) as [sx|sx| |sx mx ex], (Prim2SF y) as [sy|sy| |sy my ey];
    cbn [SFmul]; try reflexivity; try (now rewrite xorb_comm).
  now rewrite xorb_comm, Pos.mul_comm, Z.add_comm.
Qed.

#[local] Set Warnings "-inexact-float".

(** *** The heartbeat window *)

(** C8, in binary64: whenever the quotient [heart_rate / 60] is not
    zero the window is [(-0.35 / m, 0.5 / m)] with [m = heart_rate /
    60], widened by 0.1 on both sides exactly when the rate is at
    least 80, every operation rounded; at 60 it is [(-0.35, 0.5)] and
    at 80 it is [(-0.36250000000000004, 0.475)].  When the quotient is
    zero the call raises. *)
Theorem ecg_segment_window_spec (heartRateBpm : float) :
  ((heartRateBpm / 60 =? 0)%float = false ->
   ((80 <=? heartRateBpm)%float = false ->
    B64._ecg_segment_window heartRateBpm
    = Returns ((-0.35 / (heartRateBpm / 60))%float,
               (0.5 / (heartRateBpm / 60))%float)) /\
   ((80 <=? heartRateBpm)%float = true ->
    B64._ecg_segment_window heartRateBpm
    = Returns ((-0.35 / (heartRateBpm / 60) - 0.1)%float,
               (0.5 / (heartRateBpm / 60) + 0.1)%float))) /\
  ((heartRateBpm / 60 =? 0)%float = true ->
   B64._ecg_segment_window heartRateBpm = Raises ZeroDivisionError) /\
  B64._ecg_segment_window 60 = Returns ((-0.35)%float, 0.5%float) /\
  B64._ecg_segment_window 80 = Returns ((-0.36250000000000004)%float, 0.475%float).
Proof.
  split; [|split; [|split]].
  - intro Hm. unfold B64._ecg_segment_window, B64.py_div. rewrite Hm. cbn [bind].
    split; intros ->; reflexivity.
  - intro Hm. unfold B64._ecg_segment_window, B64.py_div. rewrite Hm. reflexivity.
  - vm_compute. reflexivity.
  - vm_compute. reflexivity.
Qed.

Lemma ecg_segment_window_spec_witness :
  (90 / 60 =? 0)%float = false /\ (80 <=? 90)%float = true /\
  B64._ecg_segment_window 90
  = Returns ((-0.35 / (90 / 60) - 0.1)%float, (0.5 / (90 / 60) + 0.1)%float).
Proof.
  split; [reflexivity|]. split; [reflexivity|].
  apply (proj1 (ecg_segment_window_spec 90)); reflexivity.
Defined.

(** C8 as stated fails twice.  At 80 beats per minute the onset is the
    float next to -0.3625, one unit in the last place away from it;
    and the smallest positive rate has the quotient 0, so that the
    call raises instead of returning. *)
Lemma window_at_80_is_rounded :
  B64._ecg_segment_window 80 = Returns ((-0.36250000000000004)%float, 0.475%float) /\
  (-0.36250000000000004)%float <> (-0.3625)%float /\
  B64._ecg_segment_window 80 <> Returns ((-0.3625)%float, 0.475%float) /\
  (0 <? 5e-324)%float = true /\
  B64._ecg_segment_window 5e-324 = Raises ZeroDivisionError.
Proof.
  assert (Hne : (-0.36250000000000004)%float <> (-0.3625)%float).
  { intro H. apply (f_equal B64.to_Q) in H. vm_compute in H. discriminate. }
  split; [vm_compute; reflexivity|]. split; [exact Hne|].
  split; [|split; vm_compute; reflexivity].
  intro H. apply Hne.
  assert (E : B64._ecg_segment_window 80
              = Returns ((-0.36250000000000004)%float, 0.475%float))
    by (vm_compute; reflexivity).
  rewrite E in H.
  exact (f_equal (fun r : outcome (float * float) =>
                    match r with Returns (a, _) => a | _ => 0%float end) H).
Qed.

(** *** The sizes derived from the sampling rate *)

Lemma to_int_returns (conv : Q -> Z) (x : float) (q : Q) :
  B64.to_Q x = Some q -> B64.to_int conv x = Returns (conv q).
Proof. intro H. unfold B64.to_int. now rewrite H. Qed.

Lemma py_slice_from_end {A : Type} (l : list A) (a : Z) :
  (a < 0)%Z -> py_slice l (Some a) None = skipn (Z.to_nat (len l + a)) l.
Proof.
  intro Ha. unfold py_slice, clip_index, len.
  destruct (a <? 0)%Z eqn:Ea; [|apply Z.ltb_ge in Ea; lia].
  replace (Z.max 0 (a + Z.of_nat (length l))) with
    (Z.of_nat (Z.to_nat (Z.of_nat (length l) + a))) by lia.
  rewrite Nat2Z.id. apply firstn_all2. rewrite length_skipn. lia.
Qed.

(** C5, as the code has it: the window size is Python's [round] of the
    binary64 value [(60.0 * sfreq) / 120.0]; [init] and the start
    offset are [int] of the rate and of the binary64 product [sfreq *
    tstart], truncated towards zero, not rounded; the rectified signal
    is then cut by the slice [[n_samples_start:]], which drops that
    many leading samples for an offset that is not negative and keeps
    the last [- n_samples_start] samples for a negative one. *)
Theorem init_sizes_spec (filter_data : list float -> list float)
        (rate startSeconds : float) (ecg : list float) (w r p : Q) :
  B64.to_Q ((60.0 * rate) / 120.0)%float = Some w ->
  B64.to_Q rate = Some r ->
  B64.to_Q (rate * startSeconds)%float = Some p ->
  let windowSize := py_round w in
  let initSeconds := py_int r in
  let startOffset := py_int p in
  let rectified := map abs (filter_data ecg) in
  B64.win_size_of rate = Returns windowSize /\
  Qabs (w - inject_Z windowSize) <= 1 # 2 /\
  B64.init_of rate = Returns initSeconds /\
  (0 <= r -> initSeconds = Qfloor r) /\
  (r <= 0 -> initSeconds = Qceiling r) /\
  B64.n_samples_start_of rate startSeconds = Returns startOffset /\
  (0 <= p -> startOffset = Qfloor p) /\
  (p <= 0 -> startOffset = Qceiling p) /\
  ((0 <= startOffset)%Z ->
   B64.ecg_abs_of filter_data startOffset ecg
   = skipn (Z.to_nat startOffset) rectified) /\
  ((startOffset < 0)%Z ->
   B64.ecg_abs_of filter_data startOffset ecg
   = skipn (Z.to_nat (len rectified + startOffset)) rectified).
Proof.
  intros Hw Hr Hp. cbn zeta.
  repeat match goal with |- _ /\ _ => split end.
  - now apply to_int_returns.
  - apply py_round_nearest.
  - now apply to_int_returns.
  - apply py_int_floor.
  - apply py_int_ceiling.
  - now apply to_int_returns.
  - apply py_int_floor.
  - apply py_int_ceiling.
  - intro H. unfold B64.ecg_abs_of. now apply py_slice_from.
  - intro H. unfold B64.ecg_abs_of. now apply py_slice_from_end.
Qed.

Lemma init_sizes_spec_witness :
  B64.win_size_of 100 = Returns 50%Z /\
  B64.init_of 100 = Returns 100%Z /\
  B64.n_samples_start_of 100 0.29 = Returns 28%Z /\
  B64.ecg_abs_of (fun l => l) 28 (map B64.of_int (map Z.of_nat (seq 0 30)))
  = [28; 29]%float.
Proof.
  destruct (B64.to_Q (100 * 0.29)%float) as [p|] eqn:Ep; [|vm_compute in Ep; discriminate].
  destruct (@init_sizes_spec (fun l => l) 100 0.29
              (map B64.of_int (map Z.of_nat (seq 0 30))) 50 100 p
              ltac:(vm_compute; reflexivity) ltac:(vm_compute; reflexivity) Ep)
    as (Hw & _ & Hi & _ & _ & Hn & _ & _ & Hs & _).
  assert (E : py_int p = 28%Z)
    by (vm_compute in Ep; injection Ep as <-; vm_compute; reflexivity).
  rewrite E in Hn, Hs.
  split; [exact Hw|]. split; [exact Hi|]. split; [exact Hn|].
  rewrite Hs by discriminate. vm_compute. reflexivity.
Defined.

(** C5 as stated fails.  At the sampling rate 600.614990234375 Hz and
    [tstart = 1], [init] and the start offset are 600, where rounding
    gives 601; at 100 Hz and [tstart = 0.29] the binary64 product is
    28.999999999999996 and the offset 28, not 29.  With a negative
    start time nothing is dropped from the front: at 100 Hz and
    [tstart = -0.02] the offset is -2 and only the last two samples
    stay.  And a rate that is infinite or NaN has no sizes: [round]
    and [int] raise. *)
Lemma init_is_not_rounded :
  (B64.init_of 600.614990234375 = Returns 600%Z /\
   B64.n_samples_start_of 600.614990234375 1 = Returns 600%Z /\
   B64.py_round 600.614990234375 = Returns 601%Z /\
   B64.py_round (600.614990234375 * 1)%float = Returns 601%Z) /\
  (B64.n_samples_start_of 100 0.29 = Returns 28%Z /\
   B64.py_round (100 * 0.29)%float = Returns 29%Z) /\
  (B64.n_samples_start_of 100 (-0.02) = Returns (-2)%Z /\
   B64.ecg_abs_of (fun l => l) (-2) [1; 2; 3; 4; 5]%float = [4; 5]%float) /\
  (B64.win_size_of infinity = Raises OverflowError /\
   B64.init_of nan = Raises ValueError_nan).
Proof. vm_compute. repeat split; reflexivity. Qed.

(** *** The threshold values tried *)

Lemma qrs_runs_count64 filter_data sum_squared np_mean np_std sfreq ecg thresh_value
      levels n_thresh tstart (runs : list float) (clean_events : list events) :
  B64.thresh_runs_of thresh_value = Returns runs ->
  B64.qrs_runs filter_data sum_squared np_mean np_std sfreq ecg thresh_value levels
    n_thresh tstart = Returns clean_events ->
  length clean_events = length runs.
Proof.
  intros Hr H. unfold B64.qrs_runs in H.
  destruct (B64.calibration _ _ _ _ _) as [c| |]; cbn [bind] in H; try discriminate.
  rewrite Hr in H. cbn [bind] in H.
  now apply mapM_length in H.
Qed.

Lemma to_int_terminates (conv : Q -> Z) (x : float) : B64.to_int conv x <> Diverges.
Proof. unfold B64.to_int. destruct (B64.to_Q x); discriminate. Qed.

Lemma np_max64_terminates (l : list float) : B64.np_max l <> Diverges.
Proof. destruct l; discriminate. Qed.

(** The calibration of lines 57-76 returns or raises. *)
Lemma calibration_terminates (filter_data : list float -> list float)
      (np_mean : list float -> float) (sfreq : float) (ecg : list float)
      (tstart : float) :
  B64.calibration filter_data np_mean sfreq ecg tstart <> Diverges.
Proof.
  unfold B64.calibration.
  apply bind_terminates; [apply to_int_terminates | intros w _].
  apply bind_terminates; [apply to_int_terminates | intros i _].
  apply bind_terminates; [apply to_int_terminates | intros n _].
  apply bind_terminates; [|discriminate].
  unfold B64.init_max_of.
  repeat (apply bind_terminates; [apply np_max64_terminates | intros ? _]).
  discriminate.
Qed.

(** C6, as the code has it: ["auto"] gives 16 fractions, the binary64
    values of [np.arange(0.3, 1.1, 0.05)], each within [2^-52] of 0.30,
    0.35, ..., 1.05; a float gives that single value; any other string
    makes the check of lines 80-81 raise the threshold error, so that
    no threshold run is made.  The check comes after the calibration of
    lines 57-76: [qrs_detector] raises the threshold error when that
    calibration returned, and the error of the calibration otherwise. *)
Theorem thresh_runs_spec :
  (B64.thresh_runs_of (B64.ThreshStr "auto") = Returns Spec64.auto_fractions /\
   length Spec64.auto_fractions = 16%nat /\
   Forall2 (fun x fraction =>
              exists value,
                B64.to_Q x = Some value /\ Qabs (value - fraction) <= 1 # (2 ^ 52))
     Spec64.auto_fractions
     [0.30; 0.35; 0.40; 0.45; 0.50; 0.55; 0.60; 0.65;
      0.70; 0.75; 0.80; 0.85; 0.90; 0.95; 1.00; 1.05]) /\
  (forall q, B64.thresh_runs_of (B64.ThreshFloat q) = Returns [q]) /\
  (forall filter_data sum_squared np_mean np_std sfreq ecg levels n_thresh tstart
          clean_events,
      (B64.qrs_runs filter_data sum_squared np_mean np_std sfreq ecg
         (B64.ThreshStr "auto") levels n_thresh tstart
       = Returns clean_events -> length clean_events = 16%nat) /\
      (forall q,
          B64.qrs_runs filter_data sum_squared np_mean np_std sfreq ecg
            (B64.ThreshFloat q) levels n_thresh tstart
          = Returns clean_events -> length clean_events = 1%nat)) /\
  (forall s, s <> "auto"%string ->
      B64.thresh_runs_of (B64.ThreshStr s) = Raises ValueError_threshold /\
      forall filter_data sum_squared np_mean np_std sfreq ecg levels n_thresh tstart,
        (forall c,
            B64.calibration filter_data np_mean sfreq ecg tstart = Returns c ->
            B64.qrs_runs filter_data sum_squared np_mean np_std sfreq ecg
              (B64.ThreshStr s) levels n_thresh tstart
            = Raises ValueError_threshold /\
            B64.qrs_detector filter_data sum_squared np_mean np_std sfreq ecg
              (B64.ThreshStr s) levels n_thresh tstart
            = Raises ValueError_threshold) /\
        (forall e,
            B64.calibration filter_data np_mean sfreq ecg tstart = Raises e ->
            B64.qrs_runs filter_data sum_squared np_mean np_std sfreq ecg
              (B64.ThreshStr s) levels n_thresh tstart
            = Raises e /\
            B64.qrs_detector filter_data sum_squared np_mean np_std sfreq ecg
              (B64.ThreshStr s) levels n_thresh tstart
            = Raises e) /\
        B64.calibration filter_data np_mean sfreq ecg tstart <> Diverges).
Proof.
  split; [|split; [|split]].
  - split; [vm_compute; reflexivity|]. split; [reflexivity|].
    repeat constructor;
      (eexists; split; [vm_compute; reflexivity | vm_compute; discriminate]).
  - reflexivity.
  - intros. split.
    + intro H.
      exact (@qrs_runs_count64 _ _ _ _ _ _ (B64.ThreshStr "auto") _ _ _ _ _
               ltac:(vm_compute; reflexivity) H).
    + intros q H.
      exact (@qrs_runs_count64 _ _ _ _ _ _ (B64.ThreshFloat q) _ _ _ _ _ eq_refl H).
  - intros s Hs.
    assert (E : B64.thresh_runs_of (B64.ThreshStr s) = Raises ValueError_threshold).
    { simpl. apply String.eqb_neq in Hs. now rewrite Hs. }
    split; [exact E|]. intros. split; [|split].
    + intros c Hc. unfold B64.qrs_detector, B64.qrs_runs. rewrite Hc. cbn [bind].
      rewrite E. split; reflexivity.
    + intros e He. unfold B64.qrs_detector, B64.qrs_runs. rewrite He.
      split; reflexivity.
    + apply calibration_terminates.
Qed.

Lemma thresh_runs_spec_witness :
  "aut"%string <> "auto"%string /\
  B64.thresh_runs_of (B64.ThreshStr "aut") = Raises ValueError_threshold.
Proof.
  split; [discriminate|].
  apply (proj2 (proj2 (proj2 thresh_runs_spec)) "aut"%string). discriminate.
Defined.

(** C6 as stated fails twice.  The third fraction is the float below
    0.4, not 0.4; and on a signal of 12 samples at 6 Hz the calibration
    raises for its empty third block before the threshold is looked
    at, so that the string ["aut"] gets the error of [np.max] and not
    the threshold error. *)
Lemma threshold_error_after_calibration :
  nth_error Spec64.auto_fractions 2 = Some 0.39999999999999997%float /\
  0.39999999999999997%float <> 0.4%float /\
  "aut"%string <> "auto"%string /\
  B64.qrs_detector (fun l => l) B64.sum_squared_from_first B64.mean_from_first
    B64.std_from_first 6 (repeat 1%float 12) (B64.ThreshStr "aut") 2.5 3 0
  = Raises ValueError_zero_size.
Proof.
  split; [reflexivity|]. split; [|split; [discriminate | vm_compute; reflexivity]].
  intro H. apply (f_equal B64.to_Q) in H. vm_compute in H. discriminate.
Qed.

(** *** The scan of one threshold, on binary64 samples *)

Lemma argmax64_range (l : list float) :
  forall (mp : float) (max_ind i : Z),
    (0 <= max_ind < i)%Z ->
    (0 <= B64.argmax_from mp max_ind i l < i + len l)%Z.
Proof.
  induction l as [|x r IH]; intros mp max_ind i Hi.
  - simpl. unfold len. simpl. lia.
  - cbn [B64.argmax_from]. unfold len in *. cbn [length].
    destruct (negb (x <=? mp)%float).
    + destruct (is_nan x); [lia|]. specialize (IH x i (i + 1)%Z). lia.
    + specialize (IH mp max_ind (i + 1)%Z). lia.
Qed.

Lemma np_argmax64_range (l : list float) :
  l <> [] -> exists k, B64.np_argmax l = Returns k /\ (0 <= k < len l)%Z.
Proof.
  destruct l as [|x r]; [congruence|]. intros _. eexists. split; [reflexivity|].
  unfold len. cbn [length].
  destruct (is_nan x); [lia|].
  pose proof (@argmax64_range r x 0%Z 1%Z ltac:(lia)) as H. unfold len in H. lia.
Qed.

Lemma no_nan_app (p l : list float) :
  Spec64.no_nan (p ++ l) -> Spec64.no_nan p /\ Spec64.no_nan l.
Proof. unfold Spec64.no_nan. apply Forall_app. Qed.

Lemma no_nan_nth (l : list float) (j : nat) (x : float) :
  Spec64.no_nan l -> nth_error l j = Some x -> is_nan x = false.
Proof.
  intros H Hx. unfold Spec64.no_nan in H. rewrite Forall_forall in H.
  apply H. eapply nth_error_In; eauto.
Qed.

(** In a window without NaN whose first sample is above the threshold
    the sample at the position of [np.argmax] is above it too. *)
Lemma argmax64_above (thr : float) (l : list float) :
  forall (pre : list float) (mp : float) (max_ind : Z),
    Spec64.no_nan (pre ++ l) ->
    (0 <= max_ind)%Z -> nth_error pre (Z.to_nat max_ind) = Some mp ->
    (thr <? mp)%float = true ->
    exists v,
      nth_error (pre ++ l) (Z.to_nat (B64.argmax_from mp max_ind (len pre) l)) = Some v /\
      (thr <? v)%float = true.
Proof.
  induction l as [|x r IH]; intros pre mp max_ind Hnan H0 Hmp Hthr.
  - exists mp. rewrite app_nil_r. simpl. auto.
  - cbn [B64.argmax_from].
    assert (Hx : is_nan x = false).
    { apply (@no_nan_nth (pre ++ x :: r) (length pre) x Hnan).
      rewrite nth_error_app2 by lia. now rewrite Nat.sub_diag. }
    assert (Hm : is_nan mp = false).
    { apply (@no_nan_nth (pre ++ x :: r) (Z.to_nat max_ind) mp Hnan).
      rewrite nth_error_app1; [exact Hmp|]. apply nth_error_Some. congruence. }
    assert (Hlen : (len pre + 1)%Z = len (pre ++ [x])).
    { unfold len. rewrite length_app. simpl. lia. }
    replace (pre ++ x :: r) with ((pre ++ [x]) ++ r) in * by (now rewrite <- app_assoc).
    rewrite Hlen.
    destruct (x <=? mp)%float eqn:E; cbn [negb].
    + apply IH; auto.
      rewrite nth_error_app1; [exact Hmp|]. apply nth_error_Some. congruence.
    + rewrite Hx. apply IH; auto.
      * unfold len. lia.
      * unfold len. rewrite Nat2Z.id, nth_error_app2 by lia.
        now rewrite Nat.sub_diag.
      * apply (@ltb_trans thr mp x Hthr).
        apply (@ltb_key mp x Hm Hx). now apply (@leb_key x mp Hx Hm).
Qed.

Lemma np_argmax64_above (thr : float) (w0 : float) (w : list float) (k : Z) :
  Spec64.no_nan (w0 :: w) -> (thr <? w0)%float = true ->
  B64.np_argmax (w0 :: w) = Returns k ->
  exists v, nth_error (w0 :: w) (Z.to_nat k) = Some v /\ (thr <? v)%float = true.
Proof.
  intros Hnan Hthr Hk. cbn [B64.np_argmax] in Hk.
  assert (H0 : is_nan w0 = false) by (now apply (@no_nan_nth (w0 :: w) 0 w0 Hnan)).
  rewrite H0 in Hk. injection Hk as <-.
  exact (@argmax64_above thr w [w0] w0 0%Z Hnan ltac:(lia) eq_refl Hthr).
Qed.

(** The window of a pass through the loop. *)
Lemma window_of_pass {A : Type} (signal : list A) (win_size ii : Z) :
  (0 < win_size)%Z -> (0 <= ii)%Z -> (ii < len signal - win_size)%Z ->
  exists x w,
    py_slice signal (Some ii) (Some (ii + win_size)%Z) = x :: w /\
    len (x :: w) = win_size /\
    forall k y, nth_error (x :: w) k = Some y ->
                nth_error signal (Z.to_nat ii + k) = Some y.
Proof.
  intros Hw H0 Hlt. unfold len in *.
  rewrite py_slice_nonneg by lia.
  replace (ii + win_size - ii)%Z with win_size by lia.
  set (window := firstn (Z.to_nat win_size) (skipn (Z.to_nat ii) signal)).
  assert (Hlen : length window = Z.to_nat win_size).
  { subst window. rewrite length_firstn, length_skipn. lia. }
  assert (Hnth : forall k y, nth_error window k = Some y ->
                             nth_error signal (Z.to_nat ii + k) = Some y).
  { intros k y Hy. subst window.
    assert (Hk : (k < Z.to_nat win_size)%nat).
    { rewrite <- Hlen. apply nth_error_Some. congruence. }
    rewrite nth_error_firstn in Hy.
    destruct (k <? Z.to_nat win_size)%nat eqn:Ek; [|apply Nat.ltb_ge in Ek; lia].
    now rewrite nth_error_skipn in Hy. }
  destruct window as [|x w] eqn:Ewin; [simpl in Hlen; lia|].
  exists x, w. split; [reflexivity|]. split; [simpl in Hlen |- *; lia | exact Hnth].
Qed.

Section ScanProperties64.

Variable sum_squared : list float -> float.
Variables (ecg_abs : list float) (win_size : Z) (thresh1 : float).

Lemma scan_loop64_unfold (fuel : nat) (ii : Z) (acc : B64.scan_lists) :
  B64.scan_loop sum_squared ecg_abs win_size thresh1 (S fuel) ii acc =
  if (ii <? len ecg_abs - win_size)%Z then
    let window := py_slice ecg_abs (Some ii) (Some (ii + win_size)%Z) in
    w0 <- py_index window 0 ;;
    if (thresh1 <? w0)%float then
      max_time <- B64.np_argmax window ;;
      B64.scan_loop sum_squared ecg_abs win_size thresh1 fuel (ii + win_size)%Z
        (B64.mk_scan (B64.time acc ++ [(ii + max_time)%Z])
           (B64.numcross acc ++ [B64.crossings thresh1 window])
           (B64.rms acc ++ [sqrt (sum_squared window / B64.of_int (len window))%float]))
    else B64.scan_loop sum_squared ecg_abs win_size thresh1 fuel (ii + 1)%Z acc
  else Returns acc.
Proof. reflexivity. Qed.

Hypothesis win_size_pos : (0 < win_size)%Z.

(** The loop from position [ii] on: it finishes within the fuel, adds
    one entry to each of the three lists per recorded peak, and the
    positions it records lie in the signal and increase. *)
Lemma scan_loop64_from (fuel : nat) :
  forall (ii : Z) (acc : B64.scan_lists),
    (0 <= ii)%Z -> (Z.to_nat (len ecg_abs - win_size - ii) <= fuel)%nat ->
    exists peaks nxs rs,
      B64.scan_loop sum_squared ecg_abs win_size thresh1 fuel ii acc
      = Returns (B64.mk_scan (B64.time acc ++ peaks) (B64.numcross acc ++ nxs)
                   (B64.rms acc ++ rs)) /\
      length nxs = length peaks /\ length rs = length peaks /\
      Forall (Spec64.recorded ecg_abs thresh1 ii) peaks /\
      StronglySorted Z.lt peaks.
Proof.
  induction fuel as [|fuel IH]; intros ii acc H0 Hfuel.
  - exists [], [], []. rewrite !app_nil_r.
    assert (E : (ii <? len ecg_abs - win_size)%Z = false) by (apply Z.ltb_ge; lia).
    simpl. rewrite E. destruct acc. repeat split; auto; constructor.
  - rewrite scan_loop64_unfold.
    destruct (ii <? len ecg_abs - win_size)%Z eqn:E.
    + apply Z.ltb_lt in E.
      destruct (@window_of_pass _ ecg_abs win_size ii win_size_pos H0 E)
        as (x & w & Hwin & Hlen & Hnth).
      rewrite Hwin. cbn zeta.
      change (py_index (x :: w) 0) with (Returns x). cbn [bind].
      destruct (thresh1 <? x)%float eqn:Ex.
      * destruct (@np_argmax64_range (x :: w) ltac:(discriminate)) as (k & Hk & Hkr).
        rewrite Hk. cbn [bind].
        destruct (IH (ii + win_size)%Z
                     (B64.mk_scan (B64.time acc ++ [(ii + k)%Z])
                        (B64.numcross acc ++ [B64.crossings thresh1 (x :: w)])
                        (B64.rms acc
                           ++ [sqrt (sum_squared (x :: w) / B64.of_int (len (x :: w)))%float])))
          as (peaks & nxs & rs & -> & Hn & Hr & Hall & Hsorted); [lia | lia |].
        cbn [B64.time B64.numcross B64.rms].
        exists ((ii + k)%Z :: peaks), (B64.crossings thresh1 (x :: w) :: nxs),
               (sqrt (sum_squared (x :: w) / B64.of_int (len (x :: w)))%float :: rs).
        rewrite <- !app_assoc. simpl app.
        split; [reflexivity|]. split; [simpl; lia|]. split; [simpl; lia|]. split.
        -- constructor.
           ++ split; [lia|]. intro Hnan.
              assert (Hw : Spec64.no_nan (x :: w)).
              { apply Forall_forall. intros y Hy.
                apply In_nth_error in Hy as (j & Hj). apply Hnth in Hj.
                exact (@no_nan_nth ecg_abs _ y Hnan Hj). }
              destruct (@np_argmax64_above thresh1 x w k Hw Ex Hk) as (v & Hv & Hthr).
              exists v. split; [|exact Hthr].
              apply Hnth in Hv. now replace (Z.to_nat (ii + k)) with
                (Z.to_nat ii + Z.to_nat k)%nat by lia.
           ++ eapply Forall_impl; [|exact Hall]. intros p [Hp Hv]. split; [lia | exact Hv].
        -- constructor; [exact Hsorted|].
           eapply Forall_impl; [|exact Hall]. intros p [Hp _]. lia.
      * destruct (IH (ii + 1)%Z acc) as (peaks & nxs & rs & -> & Hn & Hr & Hall & Hsorted);
          [lia | lia |].
        exists peaks, nxs, rs. repeat split; auto.
        eapply Forall_impl; [|exact Hall]. intros p [Hp Hv]. split; [lia | exact Hv].
    + exists [], [], []. rewrite !app_nil_r. destruct acc.
      repeat split; auto; constructor.
Qed.

End ScanProperties64.

(** *** One threshold run, on binary64 samples *)

(** Every pass through the loop adds to all three lists or to none. *)
Lemma scan_loop64_lockstep (sum_squared : list float -> float) (ecg_abs : list float)
      (win_size : Z) (thresh1 : float) (fuel : nat) :
  forall (ii : Z) (acc s : B64.scan_lists),
    B64.scan_loop sum_squared ecg_abs win_size thresh1 fuel ii acc = Returns s ->
    length (B64.numcross acc) = length (B64.time acc) ->
    length (B64.rms acc) = length (B64.time acc) ->
    length (B64.numcross s) = length (B64.time s) /\
    length (B64.rms s) = length (B64.time s).
Proof.
  induction fuel as [|fuel IH]; intros ii acc s Hrun Hn Hr.
  - simpl in Hrun. destruct (ii <? len ecg_abs - win_size)%Z; [discriminate|].
    injection Hrun as <-. auto.
  - rewrite scan_loop64_unfold in Hrun.
    destruct (ii <? len ecg_abs - win_size)%Z.
    2:{ injection Hrun as <-. auto. }
    cbn zeta in Hrun.
    destruct (py_index _ 0) as [w0| |]; cbn [bind] in Hrun; try discriminate.
    destruct (thresh1 <? w0)%float.
    + destruct (B64.np_argmax _) as [k| |]; cbn [bind] in Hrun; try discriminate.
      apply IH in Hrun; [exact Hrun | |]; cbn [B64.time B64.numcross B64.rms];
        rewrite !length_app; simpl; lia.
    + eapply IH; eauto.
Qed.

Lemma survivors64_mask (rmsThreshold : float) (n_thresh : Z) :
  forall (ts nxs : list Z) (rs : list float),
    length nxs = length ts -> length rs = length ts ->
    mask_select ts
      (map (fun p => fst p && (snd p <? n_thresh)%Z)
           (combine (map (fun r => (r <? rmsThreshold)%float) rs) nxs))
    = Spec64.survivors rmsThreshold n_thresh (combine (combine ts nxs) rs).
Proof.
  induction ts as [|t ts IH]; intros nxs rs Hn Hr.
  - reflexivity.
  - destruct nxs as [|nx nxs]; [discriminate|].
    destruct rs as [|r rs]; [discriminate|].
    simpl in Hn, Hr. unfold Spec64.survivors in *. simpl.
    destruct ((r <? rmsThreshold)%float && (nx <? n_thresh)%Z); simpl;
      [f_equal|]; apply IH; lia.
Qed.

Lemma survivors64_In (thr : float) (n_thresh : Z) (ts nxs : list Z) (rs : list float)
      (t : Z) :
  In t (Spec64.survivors thr n_thresh (combine (combine ts nxs) rs)) -> In t ts.
Proof.
  unfold Spec64.survivors. intro H.
  apply in_map_iff in H as ([[t' nx] r] & <- & H).
  apply filter_In in H as [H _].
  apply in_combine_l in H. now apply in_combine_l in H.
Qed.

Section RunProperties64.

Variable sum_squared : list float -> float.
Variables np_mean np_std : list float -> float.

(** Outlier rejection on three lists of one length, before the shift. *)
Lemma reject_outliers64_survivors (levels : float) (n_thresh n_samples_start : Z)
      (dt : dtype) (s : B64.scan_lists) :
  length (B64.numcross s) = length (B64.time s) ->
  length (B64.rms s) = length (B64.time s) ->
  B64.reject_outliers np_mean np_std levels n_thresh n_samples_start dt s
  = B64.add_offset dt
      (Spec64.survivors (B64.rms_thresh_of np_mean np_std levels (B64.rms s)) n_thresh
         (combine (combine (B64.time s) (B64.numcross s)) (B64.rms s)))
      n_samples_start.
Proof.
  intros Hn Hr. unfold B64.reject_outliers.
  set (thr := B64.rms_thresh_of np_mean np_std levels (B64.rms s)).
  set (mask := map (fun r => (r <? thr)%float) (B64.rms s)).
  assert (Hm : length mask = length (B64.time s))
    by (subst mask; rewrite length_map; exact Hr).
  rewrite (@np_take_np_where _ mask (B64.numcross s)) by congruence.
  cbn [bind]. unfold np_mask, np_where.
  rewrite length_map, (@mask_select_where_length _ mask (B64.numcross s) 0) by congruence.
  rewrite Nat.eqb_refl. cbn [bind].
  rewrite where_refined by congruence.
  rewrite (@np_take_np_where _ _ (B64.time s)).
  2:{ rewrite length_map, length_combine. lia. }
  cbn [bind]. subst mask. now rewrite survivors64_mask.
Qed.

(** Offsets and positions within [int64] are added without wrap-around. *)
Lemma add_offset_plain (ce : list Z) (n bound : Z) :
  int64 n = true -> int64 (bound + n) = true ->
  Forall (fun t => (0 <= t < bound)%Z) ce ->
  B64.add_offset Int64 ce n = Returns (map (fun t => (t + n)%Z) ce).
Proof.
  intros Hn Hb Hce. unfold B64.add_offset. rewrite Hn. f_equal.
  apply map_ext_in. intros t Ht. rewrite Forall_forall in Hce. apply Hce in Ht.
  apply wrap64_id. unfold int64 in *.
  apply andb_true_iff in Hn as [Hn1 Hn2]. apply andb_true_iff in Hb as [Hb1 Hb2].
  apply Z.leb_le in Hn1, Hb1. apply Z.ltb_lt in Hn2, Hb2.
  apply andb_true_iff. split; [apply Z.leb_le | apply Z.ltb_lt]; lia.
Qed.

Variables (ecg_abs : list float) (win_size : Z) (init_max levels : float).
Variables (n_thresh n_samples_start : Z) (thresh_value : float).

Let run := B64.threshold_run sum_squared np_mean np_std ecg_abs win_size init_max
             levels n_thresh n_samples_start thresh_value.
Let scan := B64.scan_loop sum_squared ecg_abs win_size (init_max * thresh_value)%float
              (length ecg_abs) 0 B64.no_peaks.

(** A run that recorded peaks keeps the survivors among them. *)
Lemma threshold_run64_genuine (s : B64.scan_lists) :
  scan = Returns s -> B64.time s <> [] ->
  run = (ce <- B64.add_offset Int64
                 (Spec64.survivors
                    (B64.rms_thresh_of np_mean np_std levels (B64.rms s)) n_thresh
                    (combine (combine (B64.time s) (B64.numcross s)) (B64.rms s)))
                 n_samples_start ;;
         Returns (Int64, ce)).
Proof.
  intros Hscan Ht. subst run scan. unfold B64.threshold_run. rewrite Hscan. cbn [bind].
  destruct (@scan_loop64_lockstep _ _ _ _ _ _ _ _ Hscan eq_refl eq_refl) as [Hn Hr].
  assert (Hrms : (len (B64.rms s) =? 0)%Z = false).
  { apply Z.eqb_neq. unfold len. destruct (B64.time s); [congruence|].
    simpl in Hr. lia. }
  unfold B64.with_sentinel, B64.time_dtype. rewrite Hrms.
  now rewrite reject_outliers64_survivors.
Qed.

(** A run that recorded no peak returns no event when the added entry
    is rejected, and raises when it is not. *)
Lemma threshold_run64_sentinel (s : B64.scan_lists) :
  scan = Returns s -> B64.time s = [] ->
  run = if (0 <? B64.rms_thresh_of np_mean np_std levels [0%float])%float
        then Raises IndexError else Returns (Float64, []).
Proof.
  intros Hscan Ht. subst run scan. unfold B64.threshold_run. rewrite Hscan. cbn [bind].
  destruct (@scan_loop64_lockstep _ _ _ _ _ _ _ _ Hscan eq_refl eq_refl) as [Hn Hr].
  rewrite Ht in Hn, Hr. apply length_zero_nil in Hn, Hr.
  unfold B64.with_sentinel, B64.time_dtype, B64.reject_outliers.
  rewrite Hr, Hn, Ht. simpl app.
  change (len [] =? 0)%Z with true. cbn [B64.rms B64.numcross B64.time map].
  destruct (0 <? B64.rms_thresh_of np_mean np_std levels [0%float])%float; reflexivity.
Qed.

End RunProperties64.

(** C4, in binary64: the events of a threshold run are the recorded
    peaks whose window RMS is below [rmsMean + levels * rmsStd] (taken
    over the RMS values of the run) and whose crossing count is below
    [n_thresh], each shifted by the start offset.  The mean and the
    standard deviation are those of numpy, whatever they round to; for
    the single value 0.0 of a run without peaks they do not make the
    threshold positive.  The offset and the positions it is added to
    lie within [int64]. *)
Theorem outlier_rejection_spec (sum_squared : list float -> float)
        (np_mean np_std : list float -> float) (ecg_abs : list float) (win_size : Z)
        (init_max levels : float) (n_thresh startOffset : Z) (fraction : float) :
  (0 < win_size)%Z ->
  (0 <? np_mean [0] + levels * np_std [0])%float = false ->
  int64 startOffset = true -> int64 (len ecg_abs + startOffset) = true ->
  exists s,
    B64.scan_loop sum_squared ecg_abs win_size (init_max * fraction)%float
      (length ecg_abs) 0 B64.no_peaks
    = Returns s /\
    let rmsMean := np_mean (B64.rms (B64.with_sentinel s)) in
    let rmsStd := np_std (B64.rms (B64.with_sentinel s)) in
    B64.threshold_run sum_squared np_mean np_std ecg_abs win_size init_max levels
      n_thresh startOffset fraction
    = Returns (B64.time_dtype s,
               map (fun t => (t + startOffset)%Z)
                 (Spec64.survivors (rmsMean + levels * rmsStd)%float n_thresh
                    (combine (combine (B64.time s) (B64.numcross s)) (B64.rms s)))).
Proof.
  intros Hw Hsent Hoff Hend.
  destruct (@scan_loop64_from sum_squared ecg_abs win_size (init_max * fraction)%float Hw
              (length ecg_abs) 0%Z B64.no_peaks)
    as (peaks & nxs & rs & Hrun & Hn & Hr & Hrec & _); [lia | unfold len; lia |].
  simpl in Hrun. eexists. split; [exact Hrun|]. cbn zeta.
  destruct peaks as [|p peaks].
  - rewrite (@threshold_run64_sentinel sum_squared np_mean np_std ecg_abs win_size
               init_max levels n_thresh startOffset fraction _ Hrun eq_refl).
    unfold B64.rms_thresh_of. rewrite (mul_comm (np_std [0%float]) levels), Hsent.
    simpl in Hn, Hr. apply length_zero_nil in Hn, Hr. subst nxs rs. reflexivity.
  - rewrite (@threshold_run64_genuine sum_squared np_mean np_std ecg_abs win_size
               init_max levels n_thresh startOffset fraction _ Hrun)
      by discriminate.
    cbn [B64.time B64.numcross B64.rms].
    destruct rs as [|r rs]; [discriminate|].
    unfold B64.time_dtype, B64.with_sentinel. cbn [B64.rms].
    change (len (r :: rs) =? 0)%Z with false. cbv iota.
    unfold B64.rms_thresh_of.
    rewrite (mul_comm (np_std (r :: rs)) levels).
    rewrite (@add_offset_plain _ startOffset (len ecg_abs) Hoff Hend); [reflexivity|].
    apply Forall_forall. intros t Ht. apply survivors64_In in Ht.
    rewrite Forall_forall in Hrec. apply Hrec in Ht as [Ht _]. exact Ht.
Qed.

Lemma outlier_rejection_spec_witness :
  (0 < 3)%Z /\
  (0 <? B64.mean_from_first [0] + 2.5 * B64.std_from_first [0])%float = false /\
  B64.threshold_run B64.sum_squared_from_first B64.mean_from_first B64.std_from_first
    [1; 0; 1; 0; 0; 0; 2; 3; 0; 0; 0]%float 3 1 2.5 3 4 0.5
  = Returns (Int64, [4; 11]%Z).
Proof.
  split; [reflexivity|]. split; [reflexivity|].
  destruct (@outlier_rejection_spec B64.sum_squared_from_first B64.mean_from_first
              B64.std_from_first [1; 0; 1; 0; 0; 0; 2; 3; 0; 0; 0]%float 3 1 2.5 3 4 0.5
              eq_refl eq_refl eq_refl eq_refl) as (s & Hs & Hrun).
  rewrite Hrun.
  assert (E : s = B64.mk_scan [0; 7]%Z [0; -1]%Z
                    [sqrt (2 / 3); sqrt (13 / 3)]%float).
  { vm_compute in Hs. injection Hs as <-. reflexivity. }
  subst s. vm_compute. reflexivity.
Defined.

(** Three equal beats, with the reductions that add from the first
    item on: the mean of the three equal RMS values and their
    deviation round so that the threshold lies above them, and all
    three beats are kept. *)
Example equal_beats_are_kept :
  B64.qrs_detector (fun l => l) B64.sum_squared_from_first B64.mean_from_first
    B64.std_from_first 6 (concat (repeat [1; 1; 0; 0; 0; 0]%float 3))
    (B64.ThreshFloat 0.6) 2.5 3 0
  = Returns (Int64, [0; 6; 12]%Z).
Proof. vm_compute. reflexivity. Qed.

(** *** [np.argmin] on binary64 numbers *)









(** *** The choice among the threshold runs, on binary64 rates *)



(** The target rate and the chosen position of lines 125-131. *)
Lemma pick_best64_inv (sfreq : float) (n_ecg : Z) (clean_events : list events)
      (ev : events) :
  B64.pick_best sfreq n_ecg clean_events = Returns ev ->
  exists rates idx,
    mapM (B64.implied_rate sfreq n_ecg) clean_events = Returns rates /\
    let target := if (0 <? len (filter B64.in_band rates))%Z
                  then B64.np_median (filter B64.in_band rates) else 80%float in
    B64.np_argmin (map (fun r => abs (r - target)) rates) = Returns idx /\
    py_index clean_events idx = Returns ev.
Proof.
  unfold B64.pick_best. intro H.
  destruct (mapM (B64.implied_rate sfreq n_ecg) clean_events) as [rates| |] eqn:Er;
    cbn [bind] in H; try discriminate.
  rewrite (@np_take_np_where _ (map B64.in_band rates) rates) in H
    by (now rewrite length_map).
  cbn [bind] in H. rewrite mask_select_filter in H.
  unfold len in H at 1. rewrite np_where_length in H.
  fold (len (filter B64.in_band rates)) in H.
  destruct (B64.np_argmin _) as [idx| |] eqn:Ei; cbn [bind] in H; try discriminate.
  exists rates, idx. split; [reflexivity|]. cbn zeta. split; [exact Ei | exact H].
Qed.











(** The binary64 reading and the reading on exact rationals choose
    differently where rounding breaks a tie: for a signal of 407
    samples at 100 Hz, runs of 6 and of 4 events are at the distances
    14.742014742014746 and 14.742014742014739 from their median, and
    the second is taken; on exact rationals the distances are equal
    and the first is. *)
Example pick_best_near_tie :
  Spec64.distances
    (Spec64.rates_of 100 407 [(Int64, repeat 0%Z 6); (Int64, repeat 0%Z 4)])
  = [14.742014742014746; 14.742014742014739]%float /\
  B64.pick_best 100 407 [(Int64, repeat 0%Z 6); (Int64, repeat 0%Z 4)]
  = Returns (Int64, repeat 0%Z 4) /\
  Ecg.pick_best 100 407 [(Int64, repeat 0%Z 6); (Int64, repeat 0%Z 4)]
  = Returns (Int64, repeat 0%Z 6).
Proof. vm_compute. repeat split; reflexivity. Qed.

(** *** Which events [qrs_detector] returns, on binary64 samples *)

Lemma pick_best64_member (sfreq : float) (n_ecg : Z) (clean_events : list events)
      (ev : events) :
  B64.pick_best sfreq n_ecg clean_events = Returns ev -> In ev clean_events.
Proof.
  intro H. apply pick_best64_inv in H as (rates & idx & _ & _ & H).
  eapply py_index_In; eauto.
Qed.

(** What [qrs_detector] returns is the result of the run of one of the
    threshold values tried. *)
Lemma qrs_detector64_returns_run (filter_data : list float -> list float)
      (sum_squared : list float -> float) (np_mean np_std : list float -> float)
      (sfreq : float) (ecg : list float) (thresh_value : B64.thresh_spec)
      (levels : float) (n_thresh : Z) (tstart : float) (ev : events) :
  B64.qrs_detector filter_data sum_squared np_mean np_std sfreq ecg thresh_value levels
    n_thresh tstart = Returns ev ->
  exists c runs fraction,
    B64.calibration filter_data np_mean sfreq ecg tstart = Returns c /\
    B64.thresh_runs_of thresh_value = Returns runs /\
    In fraction runs /\
    B64.threshold_run sum_squared np_mean np_std (B64.ecg_abs c) (B64.win_size c)
      (B64.init_max c) levels n_thresh (B64.n_samples_start c) fraction
    = Returns ev.
Proof.
  unfold B64.qrs_detector, B64.qrs_runs. intro H.
  destruct (B64.calibration _ _ _ _ _) as [c| |]; cbn [bind] in H; try discriminate.
  destruct (B64.thresh_runs_of thresh_value) as [runs| |]; cbn [bind] in H;
    try discriminate.
  destruct (mapM _ runs) as [cands| |] eqn:Ec; cbn [bind] in H; try discriminate.
  apply pick_best64_member in H.
  destruct (@mapM_In _ _ _ _ _ _ Ec H) as (fraction & Hin & Hrun).
  exists c, runs, fraction. auto.
Qed.

Lemma add_offset_int_inv (ce : list Z) (n : Z) (r : list Z) :
  B64.add_offset Int64 ce n = Returns r ->
  int64 n = true /\ r = map (fun t => wrap64 (t + n)) ce.
Proof.
  unfold B64.add_offset. destruct (int64 n); [|discriminate].
  intro H. injection H as <-. auto.
Qed.

(** Every event of a threshold run is a position its scan recorded,
    shifted by the start offset. *)
Lemma threshold_run64_events (sum_squared : list float -> float)
      (np_mean np_std : list float -> float) (ecg_abs : list float) (win_size : Z)
      (init_max levels : float) (n_thresh n_samples_start : Z) (fraction : float)
      (ev : events) :
  (0 < win_size)%Z ->
  int64 (len ecg_abs + n_samples_start) = true ->
  B64.threshold_run sum_squared np_mean np_std ecg_abs win_size init_max levels
    n_thresh n_samples_start fraction = Returns ev ->
  Forall (fun e => Spec64.recorded ecg_abs (init_max * fraction)%float 0
                     (e - n_samples_start))
         (snd ev).
Proof.
  intros Hw Hend Hrun.
  destruct (@scan_loop64_from sum_squared ecg_abs win_size (init_max * fraction)%float Hw
              (length ecg_abs) 0%Z B64.no_peaks)
    as (peaks & nxs & rs & Hscan & _ & _ & Hrec & _); [lia | unfold len; lia |].
  simpl in Hscan.
  destruct peaks as [|p peaks].
  - rewrite (@threshold_run64_sentinel sum_squared np_mean np_std ecg_abs win_size
               init_max levels n_thresh n_samples_start fraction _ Hscan eq_refl) in Hrun.
    destruct (0 <? _)%float; [discriminate|]. injection Hrun as <-. constructor.
  - rewrite (@threshold_run64_genuine sum_squared np_mean np_std ecg_abs win_size
               init_max levels n_thresh n_samples_start fraction _ Hscan) in Hrun
      by discriminate.
    destruct (B64.add_offset Int64 _ n_samples_start) as [ce| |] eqn:Eo;
      cbn [bind] in Hrun; try discriminate.
    injection Hrun as <-. cbn [snd].
    apply add_offset_int_inv in Eo as [Hn ->].
    apply Forall_forall. intros e He.
    apply in_map_iff in He as (t & <- & Ht). apply survivors64_In in Ht.
    cbn [B64.time] in Ht. rewrite Forall_forall in Hrec.
    pose proof (Hrec t Ht) as Hrt.
    assert (E : wrap64 (t + n_samples_start) = (t + n_samples_start)%Z).
    { apply wrap64_id. destruct Hrt as [Hrange _]. unfold int64 in *.
      apply andb_true_iff in Hn as [Hn1 Hn2]. apply andb_true_iff in Hend as [Hb1 Hb2].
      apply Z.leb_le in Hn1, Hb1. apply Z.ltb_lt in Hn2, Hb2.
      apply andb_true_iff. split; [apply Z.leb_le | apply Z.ltb_lt]; lia. }
    rewrite E. now replace (t + n_samples_start - n_samples_start)%Z with t by lia.
Qed.

(** *** The loops of the binary64 reading end *)

Lemma np_max64_returns (l : list float) (m : float) :
  B64.np_max l = Returns m -> l <> [].
Proof. destruct l; [discriminate | discriminate]. Qed.

(** The calibration of lines 71-76 needs [init >= 1] and a signal that
    is not empty. *)
Lemma init_max64_returns (np_mean : list float -> float) (ecg_abs : list float)
      (init : Z) (im : float) :
  B64.init_max_of np_mean ecg_abs init = Returns im -> (1 <= init)%Z /\ ecg_abs <> [].
Proof.
  unfold B64.init_max_of. intro H.
  destruct (B64.np_max (py_slice ecg_abs None (Some init))) as [m0| |] eqn:E0;
    cbn [bind] in H; try discriminate.
  destruct (B64.np_max (py_slice ecg_abs (Some init) (Some (init * 2)%Z)))
    as [m1| |] eqn:E1; cbn [bind] in H; try discriminate.
  apply np_max64_returns in E0, E1. split.
  - destruct (Z.lt_trichotomy init 0) as [Hneg|[Hz|Hpos]]; [| |lia]; exfalso.
    + apply E1. unfold py_slice, clip_index.
      destruct (init <? 0)%Z eqn:Ea; [|apply Z.ltb_ge in Ea; lia].
      destruct (init * 2 <? 0)%Z eqn:Eb; [|apply Z.ltb_ge in Eb; lia].
      replace (Z.to_nat _) with 0%nat by lia. apply firstn_O.
    + apply E0. subst init. now rewrite py_slice_to by lia.
  - intro E. subst ecg_abs. apply E0. apply py_slice_nil.
Qed.

(** Rounding keeps the sign. *)
Lemma binary_round_aux_sign (mx ex : Z) (lx : location) :
  Spec64.not_negative (binary_round_aux prec emax false mx ex lx).
Proof.
  unfold binary_round_aux.
  destruct (shr_fexp prec emax mx ex lx) as [mrs' e'].
  destruct (shr_fexp prec emax _ e' loc_Exact) as [mrs'' e''].
  destruct (shr_m mrs''); [exact I | destruct (Z.leb _ _); exact I | exact I].
Qed.

Lemma to_Q_not_negative (x : float) (q : Q) :
  Spec64.not_negative (Prim2SF x) -> B64.to_Q x = Some q -> 0 <= q.
Proof.
  unfold B64.to_Q. destruct (Prim2SF x) as [s|s| |s m e]; intros Hs H; try discriminate.
  - injection H as <-. apply Qle_refl.
  - destruct s; [contradiction|].
    assert (Hq : q = Qred (1 * inject_Z (Z.pos m) * Qpower 2 e)) by congruence.
    rewrite Hq.
    eapply Qle_trans; [|apply Qle_lteq; right; symmetry; apply Qred_correct].
    apply Qmult_le_0_compat; [discriminate|]. apply Qpower_0_le. discriminate.
Qed.

(** A rate whose [int] is at least 1 is a positive number. *)
Lemma init_pos_finite (sfreq : float) (init : Z) :
  B64.init_of sfreq = Returns init -> (1 <= init)%Z ->
  exists m e, Prim2SF sfreq = S754_finite false m e.
Proof.
  unfold B64.init_of, B64.py_int, B64.to_int, B64.to_Q. intros H Hi.
  destruct (Prim2SF sfreq) as [s|s| |s m e]; try discriminate.
  - injection H as <-. vm_compute in Hi. contradiction.
  - destruct s; [|now exists m, e]. exfalso.
    assert (Hinit : init = Py.py_int (Qred (-1 * inject_Z (Z.pos m) * Qpower 2 e)))
      by congruence.
    rewrite Hinit in Hi.
    assert (Hq : Qred (-1 * inject_Z (Z.pos m) * Qpower 2 e) <= 0).
    { eapply Qle_trans; [apply Qle_lteq; right; apply Qred_correct|].
      assert (0 <= inject_Z (Z.pos m) * Qpower 2 e).
      { apply Qmult_le_0_compat; [discriminate|]. apply Qpower_0_le. discriminate. }
      lra. }
    rewrite (@py_int_ceiling _ Hq) in Hi.
    assert (Qceiling (Qred (-1 * inject_Z (Z.pos m) * Qpower 2 e)) <= Qceiling 0)%Z
      by (now apply Qceiling_resp_le).
    change (Qceiling 0) with 0%Z in *. lia.
Qed.

(** The window size of a calibration that returned is not negative. *)
Lemma win_size64_nonneg (sfreq : float) (init w : Z) :
  B64.init_of sfreq = Returns init -> (1 <= init)%Z ->
  B64.win_size_of sfreq = Returns w -> (0 <= w)%Z.
Proof.
  intros Hinit Hi Hw.
  destruct (@init_pos_finite sfreq init Hinit Hi) as (m & e & Hs).
  unfold B64.win_size_of, B64.py_round, B64.to_int in Hw.
  destruct (B64.to_Q _) as [q|] eqn:Eq; [|discriminate].
  injection Hw as <-. apply py_round_nonneg.
  refine (@to_Q_not_negative _ q _ Eq).
  rewrite FloatAxioms.div_spec, FloatAxioms.mul_spec, Hs.
  assert (E60 : Prim2SF 60.0 = S754_finite false 8444249301319680 (-47))
    by (vm_compute; reflexivity).
  assert (E120 : Prim2SF 120.0 = S754_finite false 8444249301319680 (-46))
    by (vm_compute; reflexivity).
  rewrite E60, E120. unfold SF64div, SF64mul. cbn [SFmul xorb].
  pose proof (binary_round_aux_sign (Z.pos (8444249301319680 * m)) (-47 + e) loc_Exact)
    as Hp.
  destruct (binary_round_aux prec emax false _ _ loc_Exact) as [s|s| |s m' e'];
    cbn [SFdiv]; try exact I.
  - destruct s; [contradiction | exact I].
  - destruct s; [contradiction|]. cbn [xorb].
    destruct (SFdiv_core_binary prec emax _ _ _ _) as [[mz ez] lz].
    apply binary_round_aux_sign.
Qed.

(** With a window size 0 the first pass of the loop raises at
    [window[0]]. *)
Lemma scan64_zero_window (sum_squared : list float -> float) (ecg_abs : list float)
      (thresh1 : float) :
  ecg_abs <> [] ->
  B64.scan_loop sum_squared ecg_abs 0 thresh1 (length ecg_abs) 0 B64.no_peaks
  = Raises IndexError.
Proof.
  destruct ecg_abs as [|x l]; [congruence|]. intros _.
  simpl length. rewrite scan_loop64_unfold.
  replace (0 <? len (x :: l) - 0)%Z with true
    by (symmetry; apply Z.ltb_lt; unfold len; simpl length; lia).
  rewrite py_slice_nonneg by lia. reflexivity.
Qed.

Lemma threshold_run64_terminates (sum_squared : list float -> float)
      (np_mean np_std : list float -> float) (ecg_abs : list float) (win_size : Z)
      (init_max levels : float) (n_thresh n_samples_start : Z) (fraction : float) :
  (0 <= win_size)%Z ->
  B64.threshold_run sum_squared np_mean np_std ecg_abs win_size init_max levels
    n_thresh n_samples_start fraction <> Diverges.
Proof.
  intro Hw. unfold B64.threshold_run. apply bind_terminates.
  - destruct (Z.eq_dec win_size 0) as [->|Hnz].
    + destruct ecg_abs as [|x l] eqn:E; [simpl; discriminate|].
      rewrite scan64_zero_window; discriminate.
    + destruct (@scan_loop64_from sum_squared ecg_abs win_size (init_max * fraction)%float
                  ltac:(lia) (length ecg_abs) 0%Z B64.no_peaks)
        as (peaks & nxs & rs & -> & _); [lia | unfold len; lia | discriminate].
  - intros s _. apply bind_terminates; [|discriminate].
    unfold B64.reject_outliers.
    apply bind_terminates; [apply np_take_terminates|]. intros a _.
    apply bind_terminates.
    { unfold np_mask. destruct (_ =? _)%nat; discriminate. }
    intros keep _. apply bind_terminates; [apply np_take_terminates|].
    intros ce _. unfold B64.add_offset.
    destruct (B64.time_dtype s); [destruct (int64 _)|]; discriminate.
Qed.

Lemma pick_best64_terminates (sfreq : float) (n_ecg : Z) (clean_events : list events) :
  B64.pick_best sfreq n_ecg clean_events <> Diverges.
Proof.
  unfold B64.pick_best. apply bind_terminates.
  { apply mapM_terminates. intro cev. unfold B64.implied_rate, B64.py_div.
    apply bind_terminates; [destruct (_ =? _)%float; discriminate|].
    intros d _. destruct (_ =? _)%float; discriminate. }
  intros rates _. apply bind_terminates; [apply np_take_terminates|].
  intros band _. apply bind_terminates.
  { destruct (map _ rates); discriminate. }
  intros idx _. apply py_index_terminates.
Qed.

(** Every call of [qrs_detector] returns or raises: the loop of each
    threshold run ends within its fuel. *)
Lemma qrs_detector64_terminates (filter_data : list float -> list float)
      (sum_squared : list float -> float) (np_mean np_std : list float -> float)
      (sfreq : float) (ecg : list float) (thresh_value : B64.thresh_spec)
      (levels : float) (n_thresh : Z) (tstart : float) :
  B64.qrs_detector filter_data sum_squared np_mean np_std sfreq ecg thresh_value levels
    n_thresh tstart <> Diverges.
Proof.
  unfold B64.qrs_detector.
  apply bind_terminates; [|intros; apply pick_best64_terminates].
  unfold B64.qrs_runs.
  apply bind_terminates; [apply calibration_terminates|].
  intros c Hc.
  assert (Hw : (0 <= B64.win_size c)%Z).
  { unfold B64.calibration in Hc.
    destruct (B64.win_size_of sfreq) as [w| |] eqn:Ew; cbn [bind] in Hc; try discriminate.
    destruct (B64.init_of sfreq) as [i| |] eqn:Ei; cbn [bind] in Hc; try discriminate.
    destruct (B64.n_samples_start_of sfreq tstart) as [n| |]; cbn [bind] in Hc;
      try discriminate.
    destruct (B64.init_max_of _ _ _) as [im| |] eqn:Em; cbn [bind] in Hc;
      try discriminate.
    injection Hc as <-. cbn [B64.win_size].
    apply init_max64_returns in Em as [Hi _].
    exact (@win_size64_nonneg sfreq i w Ei Hi Ew). }
  apply bind_terminates.
  { destruct thresh_value as [str|q]; simpl; [destruct (String.eqb _ _)|]; discriminate. }
  intros runs _. apply mapM_terminates. intro fr.
  now apply threshold_run64_terminates.
Qed.

(** ** Further properties of the detector *)

(** *** The calibration of the threshold scale *)

Lemma np_max_cases (l : list Q) :
  (l <> [] /\ exists m, np_max l = Returns m) \/
  (l = [] /\ np_max l = Raises ValueError_zero_size).
Proof.
  destruct l as [|x r]; [right; auto|].
  left. split; [discriminate | eexists; reflexivity].
Qed.

Lemma firstn_skipn_nil {A : Type} (l : list A) (k s : nat) :
  firstn k (skipn s l) = [] <-> (k = 0 \/ length l <= s)%nat.
Proof.
  split.
  - intro H. apply (f_equal (@length A)) in H.
    rewrite length_firstn, length_skipn in H. simpl in H. lia.
  - intros [->|H]; [reflexivity|].
    rewrite skipn_all2 by exact H. apply firstn_nil.
Qed.

(** X1: lines 71-76 succeed exactly when [init >= 1] and the signal
    after the start offset has more than [2 * init] samples; otherwise
    [np.max] of an empty block raises, and so does [qrs_detector],
    whatever its threshold argument. *)
Theorem calibration_needs_two_blocks (sqrtQ : Q -> Q) (filter_data : list Q -> list Q)
        (sfreq : Q) (ecg : list Q) (thresh_value : thresh_spec) (levels : Q)
        (n_thresh : Z) (tstart : Q) :
  let ecg_abs := ecg_abs_of filter_data sfreq tstart ecg in
  let init := init_of sfreq in
  ((1 <= init)%Z /\ (2 * init < len ecg_abs)%Z ->
   exists init_max, init_max_of ecg_abs init = Returns init_max) /\
  (~ ((1 <= init)%Z /\ (2 * init < len ecg_abs)%Z) ->
   init_max_of ecg_abs init = Raises ValueError_zero_size /\
   qrs_detector sqrtQ filter_data sfreq ecg thresh_value levels n_thresh tstart
   = Raises ValueError_zero_size).
Proof.
  intros ecg_abs init. split.
  - intros [H1 H2]. unfold init_max_of.
    rewrite (@py_slice_to _ ecg_abs init) by lia.
    rewrite (@py_slice_nonneg _ ecg_abs init (init * 2)) by lia.
    rewrite (@py_slice_nonneg _ ecg_abs (init * 2) (init * 3)) by lia.
    destruct (np_max_cases (firstn (Z.to_nat init) ecg_abs)) as [[_ (m0 & ->)]|[E _]].
    2:{ apply (f_equal (@length Q)) in E. rewrite length_firstn in E.
        unfold len in H2. simpl in E. lia. }
    destruct (np_max_cases (firstn (Z.to_nat (init * 2 - init))
                              (skipn (Z.to_nat init) ecg_abs)))
      as [[_ (m1 & ->)]|[E _]].
    2:{ apply firstn_skipn_nil in E. unfold len in H2. lia. }
    destruct (np_max_cases (firstn (Z.to_nat (init * 3 - init * 2))
                              (skipn (Z.to_nat (init * 2)) ecg_abs)))
      as [[_ (m2 & ->)]|[E _]].
    2:{ apply firstn_skipn_nil in E. unfold len in H2. lia. }
    eexists. reflexivity.
  - intro Hnot.
    assert (Hcal : init_max_of ecg_abs init = Raises ValueError_zero_size).
    { destruct (init_max_of ecg_abs init) as [im|e|] eqn:E.
      - exfalso. apply Hnot.
        pose proof (init_max_returns _ _ E) as [Hinit _]. split; [exact Hinit|].
        unfold init_max_of in E.
        destruct (np_max (py_slice ecg_abs None (Some init))); cbn [bind] in E;
          try discriminate.
        destruct (np_max (py_slice ecg_abs (Some init) (Some (init * 2)%Z)));
          cbn [bind] in E; try discriminate.
        destruct (np_max (py_slice ecg_abs (Some (init * 2)%Z) (Some (init * 3)%Z)))
          as [m2| |] eqn:E2; cbn [bind] in E; try discriminate.
        apply np_max_returns in E2. rewrite py_slice_nonneg in E2 by lia.
        destruct (Z.lt_ge_cases (2 * init) (len ecg_abs)) as [Hlt|Hge]; [exact Hlt|].
        exfalso. apply E2. apply firstn_skipn_nil. right. unfold len in Hge. lia.
      - unfold init_max_of in E.
        destruct (np_max_cases (py_slice ecg_abs None (Some init)))
          as [[_ (m0 & E0)]|[_ E0]]; rewrite E0 in E; cbn [bind] in E;
          [|congruence].
        destruct (np_max_cases (py_slice ecg_abs (Some init) (Some (init * 2)%Z)))
          as [[_ (m1 & E1)]|[_ E1]]; rewrite E1 in E; cbn [bind] in E;
          [|congruence].
        destruct (np_max_cases (py_slice ecg_abs (Some (init * 2)%Z) (Some (init * 3)%Z)))
          as [[_ (m2 & E2)]|[_ E2]]; rewrite E2 in E; cbn [bind] in E;
          [discriminate|congruence].
      - exfalso. unfold init_max_of in E.
        destruct (np_max_cases (py_slice ecg_abs None (Some init)))
          as [[_ (m0 & E0)]|[_ E0]]; rewrite E0 in E; cbn [bind] in E;
          [|discriminate].
        destruct (np_max_cases (py_slice ecg_abs (Some init) (Some (init * 2)%Z)))
          as [[_ (m1 & E1)]|[_ E1]]; rewrite E1 in E; cbn [bind] in E;
          [|discriminate].
        destruct (np_max_cases (py_slice ecg_abs (Some (init * 2)%Z) (Some (init * 3)%Z)))
          as [[_ (m2 & E2)]|[_ E2]]; rewrite E2 in E; cbn [bind] in E; discriminate. }
    split; [exact Hcal|].
    unfold qrs_detector, qrs_runs. fold ecg_abs init. rewrite Hcal. reflexivity.
Qed.

Lemma calibration_needs_two_blocks_witness :
  ((1 <= init_of 6)%Z /\
   (2 * init_of 6 < len (ecg_abs_of (fun l => l) 6 0 (repeat 1%Q 13)))%Z) /\
  (exists init_max,
      init_max_of (ecg_abs_of (fun l => l) 6 0 (repeat 1%Q 13)) (init_of 6)
      = Returns init_max) /\
  ~ ((1 <= init_of 6)%Z /\
     (2 * init_of 6 < len (ecg_abs_of (fun l => l) 6 0 (repeat 1%Q 12)))%Z) /\
  qrs_detector (fun q => q) (fun l => l) 6 (repeat 1%Q 12) (ThreshStr "auto") 2.5 3 0
  = Raises ValueError_zero_size.
Proof.
  assert (H1 : (1 <= init_of 6)%Z /\
               (2 * init_of 6 < len (ecg_abs_of (fun l => l) 6 0 (repeat 1%Q 13)))%Z)
    by (split; [vm_compute; discriminate | vm_compute; reflexivity]).
  assert (H2 : ~ ((1 <= init_of 6)%Z /\
               (2 * init_of 6 < len (ecg_abs_of (fun l => l) 6 0 (repeat 1%Q 12)))%Z))
    by (intros [_ H]; vm_compute in H; discriminate).
  split; [exact H1|]. split.
  - exact (proj1 (@calibration_needs_two_blocks (fun q => q) (fun l => l) 6
                    (repeat 1%Q 13) (ThreshStr "auto") 2.5 3 0) H1).
  - split; [exact H2|].
    exact (proj2 (proj2 (@calibration_needs_two_blocks (fun q => q) (fun l => l) 6
                    (repeat 1%Q 12) (ThreshStr "auto") 2.5 3 0) H2)).
Defined.

(** *** A window size of zero *)

Lemma thresh_runs_nonempty (thresh_value : thresh_spec) (runs : list Q) :
  thresh_runs_of thresh_value = Returns runs -> runs <> [].
Proof.
  destruct thresh_value as [str|q]; simpl.
  - destruct (String.eqb str "auto"); [|discriminate].
    intro H. injection H as <-. discriminate.
  - intro H. injection H as <-. discriminate.
Qed.

(** X2: when the rounded half of the sampling rate is 0 (a rate of
    1 Hz) and the calibration succeeded, the first pass of the loop
    reads [window[0]] of an empty window: [qrs_detector] raises
    [IndexError] for every accepted threshold argument. *)
Theorem zero_window_raises (sqrtQ : Q -> Q) (filter_data : list Q -> list Q)
        (sfreq : Q) (ecg : list Q) (thresh_value : thresh_spec) (levels : Q)
        (n_thresh : Z) (tstart : Q) (init_max : Q) (runs : list Q) :
  win_size_of sfreq = 0%Z ->
  init_max_of (ecg_abs_of filter_data sfreq tstart ecg) (init_of sfreq)
  = Returns init_max ->
  thresh_runs_of thresh_value = Returns runs ->
  qrs_detector sqrtQ filter_data sfreq ecg thresh_value levels n_thresh tstart
  = Raises IndexError.
Proof.
  intros Hw Hcal Hruns. unfold qrs_detector, qrs_runs.
  rewrite Hcal, Hruns, Hw. cbn [bind].
  pose proof (init_max_returns _ _ Hcal) as [_ Hne].
  pose proof (thresh_runs_nonempty _ Hruns) as Hr.
  destruct runs as [|fr runs]; [congruence|].
  simpl mapM. unfold threshold_run at 1.
  rewrite scan_zero_window by exact Hne. reflexivity.
Qed.

Lemma zero_window_raises_witness :
  win_size_of 1 = 0%Z /\
  init_max_of (ecg_abs_of (fun l => l) 1 0 [1; 2; 3]) (init_of 1) = Returns (6 # 3) /\
  thresh_runs_of (ThreshFloat 0.6) = Returns [0.6] /\
  qrs_detector (fun q => q) (fun l => l) 1 [1; 2; 3] (ThreshFloat 0.6) 2.5 3 0
  = Raises IndexError.
Proof.
  assert (Hcal : init_max_of (ecg_abs_of (fun l => l) 1 0 [1; 2; 3]) (init_of 1)
                 = Returns (6 # 3)) by (vm_compute; reflexivity).
  split; [reflexivity|]. split; [exact Hcal|]. split; [reflexivity|].
  exact (@zero_window_raises (fun q => q) (fun l => l) 1 [1; 2; 3] (ThreshFloat 0.6)
           2.5 3 0 (6 # 3) [0.6] eq_refl Hcal eq_refl).
Defined.

(** *** How many peaks a scan can record *)

Lemma scan_from_count (signal : list Q) (windowSize : Z) (threshold : Q)
      (i : Z) (peaks : list Z) :
  (0 < windowSize)%Z ->
  scan_from signal windowSize threshold i peaks ->
  (Z.of_nat (length peaks) * windowSize <= Z.max 0 (len signal - i - 1))%Z.
Proof.
  intros Hw H.
  induction H as [i Hi | i x peaks Hi Hx Hle _ IH | i x k peaks Hi Hx Hlt Hmax _ IH].
  - simpl. lia.
  - lia.
  - simpl length. rewrite Nat2Z.inj_succ. lia.
Qed.

(** The events of a run are some of the peaks its scan recorded, in
    their order, shifted by the start offset. *)
Lemma threshold_run_shape (sqrtQ : Q -> Q) (ecg_abs : list Q) (win_size : Z)
      (init_max levels : Q) (n_thresh n_samples_start : Z) (fraction : Q)
      (ev : events) :
  (0 < win_size)%Z ->
  threshold_run sqrtQ ecg_abs win_size init_max levels n_thresh n_samples_start fraction
  = Returns ev ->
  exists s mask,
    scan_loop sqrtQ ecg_abs win_size (init_max * fraction) (length ecg_abs) 0 no_peaks
    = Returns s /\
    scan_from ecg_abs win_size (init_max * fraction) 0 (time s) /\
    StronglySorted Z.lt (time s) /\
    Forall (fun p => (0 <= p < len ecg_abs)%Z) (time s) /\
    snd ev = map (fun t => (t + n_samples_start)%Z) (mask_select (time s) mask).
Proof.
  intros Hw Hrun.
  destruct (@scan_loop_from sqrtQ ecg_abs win_size (init_max * fraction) Hw
              (length ecg_abs) 0%Z no_peaks)
    as (peaks & nxs & rs & Hscan & Hfrom & Hn & Hr & Hrange & Hsorted);
    [lia | unfold len; lia |].
  simpl in Hscan.
  remember (mk_scan peaks nxs rs) as s eqn:Es.
  assert (Ht : time s = peaks) by (now subst s).
  assert (Hrs : length (rms s) = length (time s)) by (subst s; exact Hr).
  assert (Hns : length (numcross s) = length (time s)) by (subst s; exact Hn).
  clear Es. rewrite <- Ht in Hfrom, Hrange, Hsorted. clear Ht.
  exists s. destruct (time s) as [|p ps] eqn:Etime.
  - exists []. split; [exact Hscan|]. split; [exact Hfrom|].
    split; [constructor|]. split; [constructor|].
    simpl in Hrs, Hns. apply length_zero_nil in Hrs, Hns.
    unfold threshold_run in Hrun. rewrite Hscan in Hrun. cbn [bind] in Hrun.
    unfold with_sentinel, reject_outliers in Hrun.
    rewrite Hrs, Hns, Etime in Hrun. simpl app in Hrun.
    change (len [] =? 0)%Z with true in Hrun. cbn [rms numcross time map] in Hrun.
    destruct (Qltb 0 (rms_thresh_of sqrtQ levels [0])); simpl in Hrun;
      [discriminate|].
    now injection Hrun as <-.
  - rewrite (@threshold_run_genuine sqrtQ ecg_abs win_size init_max levels n_thresh
               n_samples_start fraction _ Hscan) in Hrun by congruence.
    injection Hrun as <-. rewrite <- Etime in *.
    destruct (@survivors_sublist (rms_thresh_of sqrtQ levels (rms s)) n_thresh
                (time s) (numcross s) (rms s) Hns Hrs) as (mask & _ & Hsub).
    exists mask. split; [exact Hscan|]. split; [exact Hfrom|].
    split; [exact Hsorted|]. split; [exact Hrange|].
    cbn [snd]. now rewrite Hsub.
Qed.

Lemma mask_select_length {A : Type} (l : list A) (mask : list bool) :
  (length (mask_select l mask) <= length l)%nat.
Proof.
  revert mask. induction l as [|a l IH]; intros [|m mask]; simpl; try lia.
  destruct m; simpl; specialize (IH mask); lia.
Qed.

(** X3: each recorded peak uses up a whole window, so the events
    [qrs_detector] returns number fewer than
    [len(ecg_abs) / win_size]: with a window of half a second of
    samples, no more than two events per second of signal. *)
Theorem events_bounded_by_windows (sqrtQ : Q -> Q) (filter_data : list Q -> list Q)
        (sfreq : Q) (ecg : list Q) (thresh_value : thresh_spec) (levels : Q)
        (n_thresh : Z) (tstart : Q) (ev : events) :
  (0 < win_size_of sfreq)%Z ->
  qrs_detector sqrtQ filter_data sfreq ecg thresh_value levels n_thresh tstart
  = Returns ev ->
  (len (snd ev) * win_size_of sfreq < len (ecg_abs_of filter_data sfreq tstart ecg))%Z.
Proof.
  intros Hw H.
  apply qrs_detector_returns_run in H as (im & fr & Hcal & Hrun).
  apply init_max_returns in Hcal as [_ Hne].
  destruct (@threshold_run_shape _ _ _ _ _ _ _ _ _ Hw Hrun)
    as (s & mask & _ & Hfrom & _ & _ & ->).
  pose proof (@scan_from_count _ _ _ _ _ Hw Hfrom) as Hc.
  pose proof (mask_select_length (time s) mask) as Hm.
  assert (Hpos : (0 < len (ecg_abs_of filter_data sfreq tstart ecg))%Z).
  { unfold len. destruct (ecg_abs_of filter_data sfreq tstart ecg);
      [congruence | simpl; lia]. }
  unfold len in *. rewrite length_map. nia.
Qed.

Lemma events_bounded_by_windows_witness :
  (0 < win_size_of 6)%Z /\
  qrs_detector (fun q => q) (fun l => l) 6
    [1; 0; 1; 0; 0; 0; 0; 0; 0; 0; 0; 1; 0; 0; 0; 0; 3; 0; 0; 0; 1; 0; 0; 0; 1; 1; 1; 0; 0; 0]
    (ThreshStr "auto") 2.5 3 0
  = Returns (Int64, [0; 11; 16; 20; 24]%Z) /\
  (len [0; 11; 16; 20; 24]%Z * win_size_of 6 < 30)%Z.
Proof.
  assert (Hrun :
    qrs_detector (fun q => q) (fun l => l) 6
      [1; 0; 1; 0; 0; 0; 0; 0; 0; 0; 0; 1; 0; 0; 0; 0; 3; 0; 0; 0; 1; 0; 0; 0; 1; 1; 1; 0; 0; 0]
      (ThreshStr "auto") 2.5 3 0
    = Returns (Int64, [0; 11; 16; 20; 24]%Z)) by (vm_compute; reflexivity).
  split; [reflexivity|]. split; [exact Hrun|].
  exact (@events_bounded_by_windows (fun q => q) (fun l => l) 6 _ _ _ _ _ _ eq_refl Hrun).
Defined.

(** *** The crossing limit *)

Lemma scan_numcross_nonpos (sqrtQ : Q -> Q) (ecg_abs : list Q) (win_size : Z)
      (thresh1 : Q) (fuel : nat) :
  forall (ii : Z) (acc s : scan_lists),
    scan_loop sqrtQ ecg_abs win_size thresh1 fuel ii acc = Returns s ->
    Forall (fun nx => (nx <= 0)%Z) (numcross acc) ->
    Forall (fun nx => (nx <= 0)%Z) (numcross s).
Proof.
  induction fuel as [|fuel IH]; intros ii acc s Hrun Hacc.
  - simpl in Hrun. destruct (ii <? len ecg_abs - win_size)%Z; [discriminate|].
    now injection Hrun as <-.
  - rewrite scan_loop_unfold in Hrun.
    destruct (ii <? len ecg_abs - win_size)%Z.
    2:{ now injection Hrun as <-. }
    cbn zeta in Hrun.
    destruct (py_index _ 0) as [w0| |] eqn:Ew; cbn [bind] in Hrun; try discriminate.
    destruct (Qgtb w0 thresh1) eqn:Eg.
    + destruct (np_argmax _) as [k| |]; cbn [bind] in Hrun; try discriminate.
      apply IH in Hrun; [exact Hrun|]. cbn [numcross].
      apply Forall_app. split; [exact Hacc|]. constructor; [|constructor].
      apply py_index_inv in Ew as [_ Ew]. simpl in Ew.
      destruct (py_slice ecg_abs (Some ii) (Some (ii + win_size)%Z)) as [|x rest];
        [discriminate|].
      simpl in Ew. injection Ew as ->.
      rewrite crossings_net_change by (now apply Qgtb_gt).
      destruct (Qgtb (last rest w0) thresh1); lia.
    + eapply IH; eauto.
Qed.

Lemma np_take_In {A : Type} (a : list A) (idx : list Z) (xs : list A) (x : A) :
  np_take a idx = Returns xs -> In x xs -> In x a.
Proof.
  intros H Hx. apply np_take_Forall2 in H.
  destruct (@Forall2_In_r _ _ _ _ _ _ H Hx) as (i & _ & Hi).
  eapply py_index_In; eauto.
Qed.

Lemma reject_outliers_any_limit (sqrtQ : Q -> Q) (levels : Q)
      (n_thresh n_thresh' n_samples_start : Z) (s : scan_lists) :
  Forall (fun nx => (nx <= 0)%Z) (numcross s) ->
  (1 <= n_thresh)%Z -> (1 <= n_thresh')%Z ->
  reject_outliers sqrtQ levels n_thresh n_samples_start s
  = reject_outliers sqrtQ levels n_thresh' n_samples_start s.
Proof.
  intros Hnx H1 H2. unfold reject_outliers.
  destruct (np_take (numcross s) _) as [a| |] eqn:Ea; cbn [bind]; try reflexivity.
  replace (map (fun x => (x <? n_thresh)%Z) a)
    with (map (fun x => (x <? n_thresh')%Z) a); [reflexivity|].
  apply map_ext_in. intros x Hx.
  assert (x <= 0)%Z.
  { rewrite Forall_forall in Hnx. apply Hnx. eapply np_take_In; eauto. }
  transitivity true; [|symmetry]; apply Z.ltb_lt; lia.
Qed.

Lemma mapM_ext {A B : Type} (f g : A -> outcome B) (l : list A) :
  (forall x, f x = g x) -> mapM f l = mapM g l.
Proof.
  intro H. induction l as [|x r IH]; [reflexivity|].
  simpl. now rewrite H, IH.
Qed.

(** X4: the value recorded as crossing count is never above 0, so the
    test [a < n_thresh] keeps every peak once [n_thresh >= 1]: for
    such limits neither a threshold run nor [qrs_detector] depends on
    [n_thresh]. *)
Theorem crossing_limit_has_no_effect (sqrtQ : Q -> Q) (filter_data : list Q -> list Q)
        (sfreq : Q) (ecg : list Q) (thresh_value : thresh_spec) (levels : Q)
        (n_thresh n_thresh' : Z) (tstart : Q) :
  (1 <= n_thresh)%Z -> (1 <= n_thresh')%Z ->
  (forall ecg_abs win_size init_max n_samples_start fraction,
      threshold_run sqrtQ ecg_abs win_size init_max levels n_thresh
                    n_samples_start fraction
      = threshold_run sqrtQ ecg_abs win_size init_max levels n_thresh'
                      n_samples_start fraction) /\
  qrs_detector sqrtQ filter_data sfreq ecg thresh_value levels n_thresh tstart
  = qrs_detector sqrtQ filter_data sfreq ecg thresh_value levels n_thresh' tstart.
Proof.
  intros H1 H2.
  assert (Hrun : forall ecg_abs win_size init_max n_samples_start fraction,
      threshold_run sqrtQ ecg_abs win_size init_max levels n_thresh
                    n_samples_start fraction
      = threshold_run sqrtQ ecg_abs win_size init_max levels n_thresh'
                      n_samples_start fraction).
  { intros. unfold threshold_run.
    destruct (scan_loop _ _ _ _ _ _ _) as [s| |] eqn:Es; cbn [bind]; try reflexivity.
    rewrite (@reject_outliers_any_limit sqrtQ levels n_thresh n_thresh'); auto.
    apply scan_numcross_nonpos in Es; [|constructor].
    unfold with_sentinel. destruct (len (rms s) =? 0)%Z; exact Es. }
  split; [exact Hrun|].
  unfold qrs_detector, qrs_runs.
  destruct (init_max_of _ _) as [im| |]; cbn [bind]; try reflexivity.
  destruct (thresh_runs_of thresh_value) as [runs| |]; cbn [bind]; try reflexivity.
  now rewrite (mapM_ext _ _ runs (Hrun _ _ im _)).
Qed.

Lemma crossing_limit_has_no_effect_witness :
  (1 <= 3)%Z /\ (1 <= 1)%Z /\
  qrs_detector (fun q => q) (fun l => l) 6
    [1; 0; 1; 0; 0; 0; 0; 0; 0; 0; 0; 1; 0; 0; 0; 0; 3; 0; 0; 0; 1; 0; 0; 0; 1; 1; 1; 0; 0; 0]
    (ThreshStr "auto") 2.5 3 0
  = qrs_detector (fun q => q) (fun l => l) 6
    [1; 0; 1; 0; 0; 0; 0; 0; 0; 0; 0; 1; 0; 0; 0; 0; 3; 0; 0; 0; 1; 0; 0; 0; 1; 1; 1; 0; 0; 0]
    (ThreshStr "auto") 2.5 1 0.
Proof.
  split; [lia|]. split; [lia|].
  apply (@crossing_limit_has_no_effect (fun q => q) (fun l => l) 6 _ (ThreshStr "auto")
           2.5 3 1 0); lia.
Defined.

(** *** A run with a single peak *)

Lemma np_mean_single (r : Q) : np_mean [r] == r.
Proof.
  unfold np_mean, Qsum, len. simpl. change (inject_Z 1) with 1. field.
Qed.

Lemma np_std_single (sqrtQ : Q -> Q) (r : Q) :
  sqrtQ 0 == 0 -> (forall a b, a == b -> sqrtQ a == sqrtQ b) ->
  np_std sqrtQ [r] == 0.
Proof.
  intros H0 Hproper. unfold np_std. rewrite <- H0. apply Hproper.
  cbn [map]. rewrite np_mean_single.
  assert (E : r - np_mean [r] == 0) by (rewrite np_mean_single; ring).
  rewrite E. reflexivity.
Qed.

(** X5: a threshold run whose scan recorded exactly one peak returns
    no event: the standard deviation of a single RMS value is 0, the
    RMS threshold is that value, and the strict comparison fails. *)
Theorem lone_peak_rejected (sqrtQ : Q -> Q) (ecg_abs : list Q) (win_size : Z)
        (init_max levels : Q) (n_thresh n_samples_start : Z) (fraction : Q)
        (s : scan_lists) :
  sqrtQ 0 == 0 -> (forall a b, a == b -> sqrtQ a == sqrtQ b) ->
  scan_loop sqrtQ ecg_abs win_size (init_max * fraction) (length ecg_abs) 0 no_peaks
  = Returns s ->
  length (time s) = 1%nat ->
  threshold_run sqrtQ ecg_abs win_size init_max levels n_thresh n_samples_start fraction
  = Returns (Int64, []).
Proof.
  intros H0 Hproper Hscan Hone.
  destruct (scan_lists_lengths_aux _ _ _ _ Hscan) as [Hn Hr].
  rewrite (@threshold_run_genuine sqrtQ ecg_abs win_size init_max levels n_thresh
             n_samples_start fraction _ Hscan).
  2:{ intro E. rewrite E in Hone. discriminate. }
  rewrite Hone in Hn, Hr.
  destruct (time s) as [|t [|? ?]]; try discriminate.
  destruct (numcross s) as [|nx [|? ?]]; try discriminate.
  destruct (rms s) as [|r [|? ?]]; try discriminate.
  unfold survivors. cbn [combine filter snd fst].
  assert (E : Qltb r (rms_thresh_of sqrtQ levels [r]) = false).
  { apply Qltb_ge. unfold rms_thresh_of.
    rewrite np_mean_single, (@np_std_single sqrtQ r H0 Hproper). lra. }
  rewrite E. reflexivity.
Qed.

Lemma lone_peak_rejected_witness :
  (fun q : Q => q) 0 == 0 /\
  (forall a b : Q, a == b -> (fun q : Q => q) a == (fun q : Q => q) b) /\
  scan_loop (fun q => q) [0; 0; 0; 0; 5; 1; 0; 0; 0; 0] 3 (1 * 2) 10 0 no_peaks
  = Returns (mk_scan [4%Z] [(-1)%Z] [26 # 3]) /\
  threshold_run (fun q => q) [0; 0; 0; 0; 5; 1; 0; 0; 0; 0] 3 1 2.5 3 0 2
  = Returns (Int64, []).
Proof.
  assert (Hscan :
    scan_loop (fun q => q) [0; 0; 0; 0; 5; 1; 0; 0; 0; 0] 3 (1 * 2) 10 0 no_peaks
    = Returns (mk_scan [4%Z] [(-1)%Z] [26 # 3])) by (vm_compute; reflexivity).
  split; [reflexivity|]. split; [intros a b H; exact H|]. split; [exact Hscan|].
  exact (@lone_peak_rejected (fun q => q) _ 3 1 2.5 3 0 2 _ (Qeq_refl 0)
           (fun a b H => H) Hscan eq_refl).
Defined.

(** *** A flat signal *)

Lemma fold_Qmax_In (r : list Q) (x : Q) : In (fold_left Qmax r x) (x :: r).
Proof.
  revert x. induction r as [|y r IH]; intro x; simpl; [now left|].
  destruct (IH (Qmax x y)) as [H|H]; [|right; now right].
  unfold Qmax in H at 1. destruct (Qltb x y); [right; left | left]; exact H.
Qed.

Lemma np_max_In (l : list Q) (m : Q) : np_max l = Returns m -> In m l.
Proof.
  destruct l as [|x r]; [discriminate|]. simpl. intro H. injection H as <-.
  apply fold_Qmax_In.
Qed.

Lemma py_slice_In {A : Type} (l : list A) (start stop : option Z) (x : A) :
  In x (py_slice l start stop) -> In x l.
Proof.
  unfold py_slice. set (k := Z.to_nat _). set (s := Z.to_nat _). intro H.
  rewrite <- (firstn_skipn s l). apply in_or_app. right.
  rewrite <- (firstn_skipn k (skipn s l)). apply in_or_app. now left.
Qed.

Lemma py_int_nonzero (x : Q) : (1 <= py_int x)%Z -> ~ x == 0.
Proof.
  intros H E. destruct x as [n d]. unfold Qeq in E. simpl in E.
  unfold py_int in H. simpl in H.
  assert (n = 0)%Z by lia. subst n. rewrite Z.quot_0_l in H by lia. lia.
Qed.

Lemma scan_from_none (signal : list Q) (windowSize : Z) (threshold : Q)
      (i : Z) (peaks : list Z) :
  (forall x, In x signal -> x <= threshold) ->
  scan_from signal windowSize threshold i peaks -> peaks = [].
Proof.
  intros Hall H.
  induction H as [i Hi | i x peaks Hi Hx Hle _ IH | i x k peaks Hi Hx Hlt Hmax _ IH].
  - reflexivity.
  - exact IH.
  - exfalso. apply nth_error_In in Hx. apply Hall in Hx. lra.
Qed.

Lemma scan_no_peaks (sqrtQ : Q -> Q) (ecg_abs : list Q) (win_size : Z) (thresh1 : Q) :
  (0 < win_size)%Z ->
  (forall x, In x ecg_abs -> x <= thresh1) ->
  scan_loop sqrtQ ecg_abs win_size thresh1 (length ecg_abs) 0 no_peaks
  = Returns no_peaks.
Proof.
  intros Hw Hall.
  destruct (@scan_loop_from sqrtQ ecg_abs win_size thresh1 Hw
              (length ecg_abs) 0%Z no_peaks)
    as (peaks & nxs & rs & Hscan & Hfrom & Hn & Hr & _);
    [lia | unfold len; lia |].
  apply (scan_from_none Hall) in Hfrom. subst peaks.
  apply length_zero_nil in Hn, Hr. subst nxs rs. exact Hscan.
Qed.

Lemma mapM_const {A B : Type} (f : A -> outcome B) (c : B) (l : list A) :
  (forall x, f x = Returns c) -> mapM f l = Returns (map (fun _ => c) l).
Proof.
  intro H. induction l as [|x r IH]; [reflexivity|].
  simpl. now rewrite H, IH.
Qed.

(** A signal that is zero after filtering: the calibrated amplitude is
    0 and no run records a peak. *)
Lemma qrs_runs_flat (sqrtQ : Q -> Q) (filter_data : list Q -> list Q)
      (sfreq : Q) (ecg : list Q) (thresh_value : thresh_spec) (levels : Q)
      (n_thresh : Z) (tstart : Q) (init_max : Q) (runs : list Q) :
  sqrtQ 0 == 0 ->
  Forall (fun x => x == 0) (filter_data ecg) ->
  (0 < win_size_of sfreq)%Z ->
  init_max_of (ecg_abs_of filter_data sfreq tstart ecg) (init_of sfreq)
  = Returns init_max ->
  thresh_runs_of thresh_value = Returns runs ->
  init_max == 0 /\
  qrs_runs sqrtQ filter_data sfreq ecg thresh_value levels n_thresh tstart
  = Returns (map (fun _ : Q => ((Float64, []) : events)) runs).
Proof.
  intros Hsqrt Hflat Hw Hcal Hruns.
  assert (Hzero : forall x, In x (ecg_abs_of filter_data sfreq tstart ecg) -> x == 0).
  { intros x Hx. unfold ecg_abs_of in Hx. apply py_slice_In in Hx.
    apply in_map_iff in Hx as (y & <- & Hy).
    rewrite Forall_forall in Hflat. rewrite (Hflat y Hy). reflexivity. }
  assert (Him : init_max == 0).
  { unfold init_max_of in Hcal.
    destruct (np_max _) as [m0| |] eqn:E0; cbn [bind] in Hcal; try discriminate.
    destruct (np_max (py_slice _ (Some (init_of sfreq)) _)) as [m1| |] eqn:E1;
      cbn [bind] in Hcal; try discriminate.
    destruct (np_max (py_slice _ (Some (init_of sfreq * 2)%Z) _)) as [m2| |] eqn:E2;
      cbn [bind] in Hcal; try discriminate.
    injection Hcal as <-.
    apply np_max_In, py_slice_In, Hzero in E0, E1, E2.
    unfold np_mean, Qsum, len. simpl. rewrite E0, E1, E2. reflexivity. }
  split; [exact Him|].
  unfold qrs_runs. rewrite Hcal, Hruns. cbn [bind].
  apply mapM_const. intro fr.
  apply (@threshold_run_sentinel sqrtQ _ _ init_max levels n_thresh _ fr Hsqrt
           no_peaks); [|reflexivity].
  apply scan_no_peaks; [exact Hw|].
  intros x Hx. apply Hzero in Hx. rewrite Hx, Him. lra.
Qed.

(** Runs that all found the same events leave nothing to choose. *)
Lemma pick_best_const (sfreq : Q) (n_ecg : Z) (runs : list Q) (ev : events) :
  ~ sfreq == 0 -> n_ecg <> 0%Z -> runs <> [] ->
  pick_best sfreq n_ecg (map (fun _ => ev) runs) = Returns ev.
Proof.
  intros Hsf Hn Hne.
  destruct (@pick_best_returns sfreq n_ecg (map (fun _ => ev) runs)) as (ev' & Hev);
    auto.
  - destruct runs; [congruence | discriminate].
  - rewrite Hev. apply pick_best_member in Hev.
    apply in_map_iff in Hev as (fr & <- & _). reflexivity.
Qed.

(** X6: on a signal that is zero after filtering, with the
    calibration done and a positive window size, every threshold run
    records no peak and [qrs_detector] returns the empty float array
    of such a run; it raises nothing. *)
Theorem flat_signal_finds_nothing (sqrtQ : Q -> Q) (filter_data : list Q -> list Q)
        (sfreq : Q) (ecg : list Q) (thresh_value : thresh_spec) (levels : Q)
        (n_thresh : Z) (tstart : Q) (init_max : Q) (runs : list Q) :
  sqrtQ 0 == 0 ->
  Forall (fun x => x == 0) (filter_data ecg) ->
  (0 < win_size_of sfreq)%Z ->
  init_max_of (ecg_abs_of filter_data sfreq tstart ecg) (init_of sfreq)
  = Returns init_max ->
  thresh_runs_of thresh_value = Returns runs ->
  len ecg <> 0%Z ->
  init_max == 0 /\
  qrs_detector sqrtQ filter_data sfreq ecg thresh_value levels n_thresh tstart
  = Returns (Float64, []).
Proof.
  intros Hsqrt Hflat Hw Hcal Hruns Hlen.
  destruct (@qrs_runs_flat sqrtQ filter_data sfreq ecg thresh_value levels n_thresh
              tstart init_max runs Hsqrt Hflat Hw Hcal Hruns) as [Him Hall].
  split; [exact Him|].
  pose proof (init_max_returns _ _ Hcal) as [Hinit _].
  unfold qrs_detector. rewrite Hall. cbn [bind].
  apply pick_best_const.
  - now apply py_int_nonzero.
  - exact Hlen.
  - now apply thresh_runs_nonempty in Hruns.
Qed.

Lemma flat_signal_finds_nothing_witness :
  (fun q : Q => q) 0 == 0 /\
  Forall (fun x => x == 0) ((fun l : list Q => l) (repeat 0 18)) /\
  (0 < win_size_of 6)%Z /\
  init_max_of (ecg_abs_of (fun l => l) 6 0 (repeat 0 18)) (init_of 6) = Returns (0 # 3) /\
  thresh_runs_of (ThreshFloat 0.6) = Returns [0.6] /\
  len (repeat (0 : Q) 18) <> 0%Z /\
  qrs_detector (fun q => q) (fun l => l) 6 (repeat 0 18) (ThreshFloat 0.6) 2.5 3 0
  = Returns (Float64, []).
Proof.
  assert (Hflat : Forall (fun x => x == 0) ((fun l : list Q => l) (repeat 0 18)))
    by (apply Forall_forall; intros x Hx; apply repeat_spec in Hx; now subst x).
  assert (Hcal : init_max_of (ecg_abs_of (fun l => l) 6 0 (repeat 0 18)) (init_of 6)
                 = Returns (0 # 3)) by (vm_compute; reflexivity).
  split; [reflexivity|]. split; [exact Hflat|]. split; [reflexivity|].
  split; [exact Hcal|]. split; [reflexivity|]. split; [discriminate|].
  exact (proj2 (@flat_signal_finds_nothing (fun q => q) (fun l => l) 6 (repeat 0 18)
                  (ThreshFloat 0.6) 2.5 3 0 (0 # 3) [0.6] (Qeq_refl 0) Hflat eq_refl
                  Hcal eq_refl ltac:(discriminate))).
Defined.

(** *** The events as positions of the input signal *)

Lemma init_pos_sfreq (sfreq : Q) : (1 <= init_of sfreq)%Z -> 1 <= sfreq.
Proof.
  unfold init_of. intro H.
  assert (Hs : 0 <= sfreq).
  { destruct (Qlt_le_dec sfreq 0) as [Hneg|Hpos]; [|exact Hpos]. exfalso.
    rewrite py_int_ceiling in H by lra.
    assert (Qceiling sfreq <= Qceiling 0)%Z by (apply Qceiling_resp_le; lra).
    change (Qceiling 0) with 0%Z in *. lia. }
  rewrite py_int_floor in H by exact Hs.
  pose proof (Qfloor_le sfreq) as Hf.
  assert (inject_Z 1 <= inject_Z (Qfloor sfreq)) by (rewrite <- Zle_Qle; exact H).
  change (inject_Z 1) with 1 in *. lra.
Qed.

(** X7: with a filter that keeps the length of its input and a start
    time that is not negative, the events [qrs_detector] returns are
    strictly increasing positions of the input signal, none before the
    start offset. *)
Theorem events_are_signal_positions (sqrtQ : Q -> Q) (filter_data : list Q -> list Q)
        (sfreq : Q) (ecg : list Q) (thresh_value : thresh_spec) (levels : Q)
        (n_thresh : Z) (tstart : Q) (ev : events) :
  (forall l, length (filter_data l) = length l) ->
  0 <= tstart ->
  qrs_detector sqrtQ filter_data sfreq ecg thresh_value levels n_thresh tstart
  = Returns ev ->
  (0 <= n_samples_start_of sfreq tstart)%Z /\
  StronglySorted Z.lt (snd ev) /\
  Forall (fun e => (n_samples_start_of sfreq tstart <= e < len ecg)%Z) (snd ev).
Proof.
  intros Hfilter Hts H.
  apply qrs_detector_returns_run in H as (im & fr & Hcal & Hrun).
  apply init_max_returns in Hcal as [Hinit Hne].
  pose proof (win_size_nonneg _ Hinit) as Hw0.
  pose proof (init_pos_sfreq _ Hinit) as Hsf.
  assert (Hnss : (0 <= n_samples_start_of sfreq tstart)%Z).
  { unfold n_samples_start_of.
    assert (0 <= sfreq * tstart) by (apply Qmult_le_0_compat; lra).
    rewrite py_int_floor by assumption.
    change 0%Z with (Qfloor 0). now apply Qfloor_resp_le. }
  split; [exact Hnss|].
  destruct (Z.eq_dec (win_size_of sfreq) 0) as [E|Hnz].
  { unfold threshold_run in Hrun. rewrite E, scan_zero_window in Hrun by exact Hne.
    discriminate. }
  assert (Hw : (0 < win_size_of sfreq)%Z) by lia.
  destruct (@threshold_run_shape _ _ _ _ _ _ _ _ _ Hw Hrun)
    as (s & mask & _ & _ & Hsorted & Hrange & ->).
  split.
  - apply map_shift_sorted. now apply mask_select_sorted.
  - assert (Hlen : (len (ecg_abs_of filter_data sfreq tstart ecg)
                    + n_samples_start_of sfreq tstart = len ecg)%Z).
    { unfold ecg_abs_of in *. rewrite py_slice_from in * by exact Hnss.
      unfold len. rewrite length_skipn, length_map, Hfilter.
      assert (length (skipn (Z.to_nat (n_samples_start_of sfreq tstart))
                        (map Qabs (filter_data ecg))) <> 0)%nat
        by (intro E0; apply length_zero_nil in E0; contradiction).
      rewrite length_skipn, length_map, Hfilter in H. lia. }
    apply Forall_forall. intros e He.
    apply in_map_iff in He as (t & <- & Ht). apply mask_select_In in Ht.
    rewrite Forall_forall in Hrange. apply Hrange in Ht. lia.
Qed.

Lemma events_are_signal_positions_witness :
  (forall l : list Q, length ((fun l : list Q => l) l) = length l) /\
  0 <= 1 /\
  qrs_detector (fun q => q) (fun l => l) 6
    [1; 0; 1; 0; 0; 0; 0; 0; 0; 0; 0; 1; 0; 0; 0; 0; 3; 0; 0; 0; 1; 0; 0; 0; 1; 1; 1; 0; 0; 0]
    (ThreshStr "auto") 2.5 3 1
  = Returns (Int64, [11; 16; 20; 24]%Z) /\
  StronglySorted Z.lt [11; 16; 20; 24]%Z.
Proof.
  assert (Hrun :
    qrs_detector (fun q => q) (fun l => l) 6
      [1; 0; 1; 0; 0; 0; 0; 0; 0; 0; 0; 1; 0; 0; 0; 0; 3; 0; 0; 0; 1; 0; 0; 0; 1; 1; 1; 0; 0; 0]
      (ThreshStr "auto") 2.5 3 1
    = Returns (Int64, [11; 16; 20; 24]%Z)) by (vm_compute; reflexivity).
  split; [reflexivity|]. split; [discriminate|]. split; [exact Hrun|].
  exact (proj1 (proj2 (@events_are_signal_positions (fun q => q) (fun l => l) 6 _
                         (ThreshStr "auto") 2.5 3 1 _ (fun l => eq_refl)
                         ltac:(discriminate) Hrun))).
Defined.

(** *** A numeric threshold *)

(** X8: with a float threshold there is one run and nothing to choose:
    once the calibration is done, on a signal that is not empty,
    [qrs_detector] returns or raises exactly what that run does. *)
Theorem float_threshold_is_its_run (sqrtQ : Q -> Q) (filter_data : list Q -> list Q)
        (sfreq : Q) (ecg : list Q) (q : Q) (levels : Q)
        (n_thresh : Z) (tstart : Q) (init_max : Q) :
  init_max_of (ecg_abs_of filter_data sfreq tstart ecg) (init_of sfreq)
  = Returns init_max ->
  len ecg <> 0%Z ->
  qrs_detector sqrtQ filter_data sfreq ecg (ThreshFloat q) levels n_thresh tstart
  = threshold_run sqrtQ (ecg_abs_of filter_data sfreq tstart ecg) (win_size_of sfreq)
      init_max levels n_thresh (n_samples_start_of sfreq tstart) q.
Proof.
  intros Hcal Hlen.
  pose proof (init_max_returns _ _ Hcal) as [Hinit _].
  unfold qrs_detector, qrs_runs. rewrite Hcal. cbn [bind thresh_runs_of mapM].
  destruct (threshold_run _ _ _ _ _ _ _ _) as [ev| |]; cbn [bind]; try reflexivity.
  destruct (@pick_best_returns sfreq (len ecg) [ev]) as (ev' & Hev).
  - now apply py_int_nonzero.
  - exact Hlen.
  - discriminate.
  - rewrite Hev. apply pick_best_member in Hev as [<-|[]]. reflexivity.
Qed.

Lemma float_threshold_is_its_run_witness :
  init_max_of (ecg_abs_of (fun l => l) 1 0 [1; 2; 3]) (init_of 1) = Returns (6 # 3) /\
  len [1; 2; 3] <> 0%Z /\
  qrs_detector (fun q => q) (fun l => l) 1 [1; 2; 3] (ThreshFloat 0.6) 2.5 3 0
  = threshold_run (fun q => q) (ecg_abs_of (fun l => l) 1 0 [1; 2; 3]) (win_size_of 1)
      (6 # 3) 2.5 3 (n_samples_start_of 1 0) 0.6.
Proof.
  assert (Hcal : init_max_of (ecg_abs_of (fun l => l) 1 0 [1; 2; 3]) (init_of 1)
                 = Returns (6 # 3)) by (vm_compute; reflexivity).
  split; [exact Hcal|]. split; [discriminate|].
  exact (@float_threshold_is_its_run (fun q => q) (fun l => l) 1 [1; 2; 3] 0.6 2.5 3 0
           (6 # 3) Hcal ltac:(discriminate)).
Defined.

(** ** Further properties of the event finder *)

Import Annotate.

(** *** When the index table can be built *)

Lemma slice_assign_exact (done junk v : list Z) (offset k : Z) :
  offset = len done -> (0 <= k)%Z -> (k <= len junk)%Z -> len v = k ->
  slice_assign (done ++ junk) offset (offset + k) v
  = Returns ((done ++ v) ++ skipn (Z.to_nat k) junk).
Proof.
  intros Hoff Hk Hfit Hv. unfold slice_assign, clip_index, len in *.
  rewrite length_app in *.
  destruct (offset <? 0)%Z eqn:E0; [apply Z.ltb_lt in E0; lia|].
  destruct (offset + k <? 0)%Z eqn:E1; [apply Z.ltb_lt in E1; lia|].
  rewrite !Z.min_l by lia.
  replace (offset + k - offset)%Z with k by lia.
  replace (length v =? Z.to_nat k)%nat with true by (symmetry; apply Nat.eqb_eq; lia).
  replace (Z.to_nat offset) with (length done) by lia.
  rewrite firstn_app, firstn_all, Nat.sub_diag, firstn_O, app_nil_r.
  rewrite skipn_app, (@skipn_all2 _ _ done) by lia.
  replace (length done + Z.to_nat k - length done)%nat with (Z.to_nat k) by lia.
  simpl. now rewrite <- app_assoc.
Qed.

Lemma segments_length_nonneg (segments : list (Z * Z)) :
  Forall (fun seg => (fst seg <= snd seg)%Z) segments ->
  (0 <= segments_length segments)%Z.
Proof. induction 1 as [|seg rest Hseg _ IH]; simpl; lia. Qed.

Lemma indexMap_length (segments : list (Z * Z)) :
  Forall (fun seg => (fst seg <= snd seg)%Z) segments ->
  len (indexMap segments) = segments_length segments.
Proof.
  induction 1 as [|seg rest Hseg _ IH]; [reflexivity|].
  unfold len in *. simpl. rewrite length_app, np_arange_int_length. lia.
Qed.

Lemma remap_loop_well_formed (segments : list (Z * Z)) :
  forall cur offset r off',
    remap_loop segments cur offset = Returns (r, off') ->
    Forall (fun seg => (fst seg <= snd seg)%Z) segments.
Proof.
  induction segments as [|[start stop] rest IH]; intros cur offset r off' H;
    [constructor|].
  simpl in H. destruct (stop - start <? 0)%Z eqn:E; [discriminate|].
  apply Z.ltb_ge in E.
  destruct (slice_assign cur offset _ _) as [cur'| |]; cbn [bind] in H;
    try discriminate.
  constructor; [simpl; lia | eapply IH; eauto].
Qed.

Lemma remap_loop_fits (segments : list (Z * Z)) :
  forall (done junk : list Z) (offset : Z),
    offset = len done ->
    Forall (fun seg => (fst seg <= snd seg)%Z) segments ->
    (segments_length segments <= len junk)%Z ->
    remap_loop segments (done ++ junk) offset
    = Returns ((done ++ indexMap segments)
                 ++ skipn (Z.to_nat (segments_length segments)) junk,
               (offset + segments_length segments)%Z).
Proof.
  induction segments as [|[start stop] rest IH]; intros done junk offset Hoff Hwf Hfit.
  - simpl. now rewrite app_nil_r, Z.add_0_r.
  - inversion_clear Hwf as [|? ? Hseg Hrest]. simpl in Hseg, Hfit.
    pose proof (segments_length_nonneg Hrest) as Hnn.
    simpl remap_loop.
    replace (stop - start <? 0)%Z with false by (symmetry; apply Z.ltb_ge; lia).
    rewrite slice_assign_exact; try lia.
    2:{ unfold len. rewrite np_arange_int_length. lia. }
    cbn [bind].
    rewrite IH; try assumption.
    + simpl. rewrite skipn_skipn, <- !app_assoc.
      replace (Z.to_nat (segments_length rest) + Z.to_nat (stop - start))%nat
        with (Z.to_nat (stop - start + segments_length rest)) by lia.
      replace (offset + (stop - start) + segments_length rest)%Z
        with (offset + (stop - start + segments_length rest))%Z by lia.
      reflexivity.
    + unfold len in *. rewrite length_app, np_arange_int_length. lia.
    + unfold len in *. rewrite length_skipn. lia.
Qed.

(** X9: lines 213-220 build the index table without raising exactly
    when every segment has [start <= stop] and the segment lengths sum
    to the length of the concatenated signal; the table is then the
    index map of the segments. *)
Theorem remap_needs_matching_lengths (segments : list (Z * Z)) (n : nat)
        (remap : list Z) :
  remap_of segments n = Returns remap <->
  Forall (fun seg => (fst seg <= snd seg)%Z) segments /\
  segments_length segments = Z.of_nat n /\
  remap = indexMap segments.
Proof.
  split.
  - intro H.
    assert (Hwf : Forall (fun seg => (fst seg <= snd seg)%Z) segments).
    { unfold remap_of in H.
      destruct (remap_loop segments (np_empty n) 0) as [[r off]| |] eqn:El;
        cbn [bind] in H; try discriminate.
      eapply remap_loop_well_formed; eauto. }
    apply remap_of_spec in H as [-> Hlen].
    split; [exact Hwf|]. split; [|reflexivity].
    rewrite <- (indexMap_length Hwf). unfold len. lia.
  - intros (Hwf & Hlen & ->). unfold remap_of.
    assert (Hfit : (segments_length segments <= len (np_empty n))%Z)
      by (unfold len, np_empty; rewrite repeat_length; lia).
    pose proof (@remap_loop_fits segments [] (np_empty n) 0 eq_refl Hwf Hfit) as Hl.
    simpl app in Hl. rewrite Hl.
    cbn [bind]. rewrite Z.add_0_l, Hlen, Z.eqb_refl.
    rewrite skipn_all2 by (unfold np_empty; rewrite repeat_length; lia).
    simpl. now rewrite app_nil_r.
Qed.

Lemma remap_needs_matching_lengths_witness :
  remap_of [(0, 3); (5, 7)]%Z 5 = Returns [0; 1; 2; 5; 6]%Z /\
  segments_length [(0, 3); (5, 7)]%Z = 5%Z.
Proof.
  assert (H : remap_of [(0, 3); (5, 7)]%Z 5 = Returns [0; 1; 2; 5; 6]%Z)
    by (vm_compute; reflexivity).
  split; [exact H|].
  exact (proj1 (proj2 (proj1 (@remap_needs_matching_lengths _ _ _) H))).
Defined.

(** *** The average pulse *)

Section Finder.

Variable sqrtQ : Q -> Q.
Variables filter_data segment_filter : list Q -> list Q.

Lemma find_ecg_events_inv (ecg : list Q) (segments : list (Z * Z)) (sfreq tstart : Q)
      (qrs_threshold : thresh_spec) (first_samp event_id : Z)
      (table : list (Z * Z * Z)) (pulse : Q) :
  find_ecg_events sqrtQ filter_data segment_filter ecg segments sfreq tstart
    qrs_threshold first_samp event_id = Returns (table, pulse) ->
  let conc := concatenated segment_filter ecg segments in
  exists evs rs d,
    qrs_detector sqrtQ filter_data sfreq conc qrs_threshold 2.5 3 tstart
    = Returns (Int64, evs) /\
    remap_of segments (length conc) = Returns (indexMap segments) /\
    np_take (indexMap segments) evs = Returns rs /\
    table = event_table rs first_samp event_id /\
    py_div (inject_Z (len conc)) sfreq = Returns d /\
    py_div (inject_Z (len rs)) ((d - tstart) / 60) = Returns pulse.
Proof.
  intros H conc. unfold find_ecg_events in H. fold conc in H.
  destruct segments as [|seg0 rest] eqn:Esegs; [discriminate|].
  rewrite <- Esegs in *. cbn [bind] in H.
  destruct (qrs_detector _ _ _ _ _ _ _ _) as [[dt evs]| |] eqn:Eq;
    cbn [bind] in H; try discriminate.
  destruct (remap_of segments _) as [remap| |] eqn:Er; cbn [bind] in H;
    try discriminate.
  pose proof (remap_of_spec _ _ Er) as [-> _].
  unfold index_by_events in H. cbn [fst snd] in H.
  destruct dt; [|discriminate].
  destruct (np_take (indexMap segments) evs) as [rs| |] eqn:Et; cbn [bind] in H;
    try discriminate.
  destruct (py_div _ sfreq) as [d| |] eqn:Ed; cbn [bind] in H; try discriminate.
  destruct (py_div (inject_Z (len rs)) _) as [p| |] eqn:Ep; cbn [bind] in H;
    try discriminate.
  injection H as <- <-.
  exists evs, rs, d. repeat split; auto.
Qed.

Hypothesis filter_keeps_length : forall l, length (filter_data l) = length l.

(** The signal is longer than the start time once the calibration is
    done. *)
Lemma duration_positive (sfreq tstart : Q) (conc : list Q) :
  (1 <= init_of sfreq)%Z ->
  ecg_abs_of filter_data sfreq tstart conc <> [] ->
  0 < inject_Z (len conc) / sfreq - tstart.
Proof.
  intros Hinit Hne.
  pose proof (init_pos_sfreq _ Hinit) as Hsf.
  assert (Hlen0 : 0 <= inject_Z (len conc))
    by (change 0 with (inject_Z 0); rewrite <- Zle_Qle; unfold len; lia).
  destruct (Qlt_le_dec tstart 0) as [Hneg|Hpos].
  - assert (0 <= inject_Z (len conc) / sfreq)
      by (apply Qle_shift_div_l; lra).
    lra.
  - assert (Hx : 0 <= sfreq * tstart) by (apply Qmult_le_0_compat; lra).
    assert (Hnss : (0 <= n_samples_start_of sfreq tstart)%Z).
    { unfold n_samples_start_of. rewrite py_int_floor by exact Hx.
      change 0%Z with (Qfloor 0). now apply Qfloor_resp_le. }
    assert (Hlt : (n_samples_start_of sfreq tstart < len conc)%Z).
    { unfold ecg_abs_of in Hne. rewrite py_slice_from in Hne by exact Hnss.
      destruct (Z.lt_ge_cases (n_samples_start_of sfreq tstart) (len conc))
        as [Hlt|Hge]; [exact Hlt|].
      exfalso. apply Hne. apply skipn_all2.
      rewrite length_map, filter_keeps_length. unfold len in Hge. lia. }
    unfold n_samples_start_of in Hlt. rewrite py_int_floor in Hlt by exact Hx.
    pose proof (Qlt_floor (sfreq * tstart)) as Hfl.
    assert (Hle : inject_Z (Qfloor (sfreq * tstart) + 1) <= inject_Z (len conc))
      by (rewrite <- Zle_Qle; lia).
    assert (Hprod : tstart * sfreq < inject_Z (len conc)) by (rewrite Qmult_comm; lra).
    assert (tstart < inject_Z (len conc) / sfreq)
      by (apply Qlt_shift_div_l; lra).
    lra.
Qed.

Lemma find_ecg_events_seconds (ecg : list Q) (segments : list (Z * Z)) (sfreq tstart : Q)
      (qrs_threshold : thresh_spec) (first_samp event_id : Z)
      (table : list (Z * Z * Z)) (pulse : Q) :
  find_ecg_events sqrtQ filter_data segment_filter ecg segments sfreq tstart
    qrs_threshold first_samp event_id = Returns (table, pulse) ->
  let seconds :=
    inject_Z (len (concatenated segment_filter ecg segments)) / sfreq - tstart in
  0 < seconds /\ pulse = inject_Z (len table) / (seconds / 60).
Proof.
  intros H seconds.
  apply find_ecg_events_inv in H as (evs & rs & d & Hq & _ & _ & -> & Hd & Hp).
  apply qrs_detector_returns_run in Hq as (im & fr & Hcal & _).
  apply init_max_returns in Hcal as [Hinit Hne].
  pose proof (@duration_positive _ _ _ Hinit Hne) as Hpos.
  apply py_div_inv in Hd as [_ ->]. apply py_div_inv in Hp as [_ ->].
  split; [exact Hpos|]. unfold len, event_table. now rewrite length_map.
Qed.

End Finder.



(** *** A flat recording *)

Lemma remap_of_fits (segments : list (Z * Z)) (n : nat) :
  Forall (fun seg => (fst seg <= snd seg)%Z) segments ->
  segments_length segments = Z.of_nat n ->
  remap_of segments n = Returns (indexMap segments).
Proof.
  intros Hwf Hlen. unfold remap_of.
  assert (Hfit : (segments_length segments <= len (np_empty n))%Z)
    by (unfold len, np_empty; rewrite repeat_length; lia).
  pose proof (@remap_loop_fits segments [] (np_empty n) 0 eq_refl Hwf Hfit) as Hl.
  simpl app in Hl. rewrite Hl. cbn [bind].
  rewrite Z.add_0_l, Hlen, Z.eqb_refl.
  rewrite skipn_all2 by (unfold np_empty; rewrite repeat_length; lia).
  now rewrite app_nil_r.
Qed.

(** X11: on a recording whose concatenated signal is zero after the
    detector's filter (calibration done, positive window size, index
    table built), [qrs_detector] hands back the empty float array of a
    run without peaks, and [find_ecg_events] raises [IndexError] at
    [remap[ecg_events]] instead of returning an empty table. *)
Theorem flat_recording_raises (sqrtQ : Q -> Q)
        (filter_data segment_filter : list Q -> list Q)
        (ecg : list Q) (segments : list (Z * Z)) (sfreq tstart : Q)
        (qrs_threshold : thresh_spec) (first_samp event_id : Z)
        (init_max : Q) (runs : list Q) :
  let conc := concatenated segment_filter ecg segments in
  sqrtQ 0 == 0 ->
  Forall (fun x => x == 0) (filter_data conc) ->
  (0 < win_size_of sfreq)%Z ->
  init_max_of (ecg_abs_of filter_data sfreq tstart conc) (init_of sfreq)
  = Returns init_max ->
  thresh_runs_of qrs_threshold = Returns runs ->
  len conc <> 0%Z ->
  Forall (fun seg => (fst seg <= snd seg)%Z) segments ->
  segments_length segments = len conc ->
  find_ecg_events sqrtQ filter_data segment_filter ecg segments sfreq tstart
    qrs_threshold first_samp event_id = Raises IndexError.
Proof.
  intros conc Hsqrt Hflat Hw Hcal Hruns Hlen Hwf Hsum.
  unfold find_ecg_events. fold conc.
  destruct segments as [|seg0 rest] eqn:Esegs.
  { exfalso. apply Hlen. reflexivity. }
  rewrite <- Esegs in *. cbn [bind].
  destruct (@qrs_runs_flat sqrtQ filter_data sfreq conc qrs_threshold 2.5 3
              tstart init_max runs Hsqrt Hflat Hw Hcal Hruns) as [_ Hall].
  pose proof (init_max_returns _ _ Hcal) as [Hinit _].
  unfold qrs_detector. rewrite Hall. cbn [bind].
  rewrite pick_best_const;
    [| now apply py_int_nonzero | exact Hlen | now apply thresh_runs_nonempty in Hruns].
  cbn [bind]. rewrite (@remap_of_fits segments (length conc) Hwf Hsum). reflexivity.
Qed.

Lemma flat_recording_raises_witness :
  (fun q : Q => q) 0 == 0 /\
  len (concatenated (fun l => l) (repeat (0 : Q) 30) [(0, 10); (15, 30)]%Z) <> 0%Z /\
  find_ecg_events (fun q => q) (fun l => l) (fun l => l) (repeat 0 30)
    [(0, 10); (15, 30)]%Z 6 0 (ThreshStr "auto") 100 999
  = Raises IndexError.
Proof.
  split; [reflexivity|]. split; [discriminate|].
  eapply (@flat_recording_raises (fun q => q) (fun l => l) (fun l => l) (repeat 0 30)
            [(0, 10); (15, 30)]%Z 6 0 (ThreshStr "auto") 100 999 (0 # 3)).
  - reflexivity.
  - apply Forall_forall. intros x Hx. vm_compute in Hx.
    repeat (destruct Hx as [<-|Hx]; [reflexivity|]). contradiction.
  - reflexivity.
  - vm_compute. reflexivity.
  - reflexivity.
  - discriminate.
  - repeat constructor; simpl; lia.
  - reflexivity.
Defined.

(** ** Further properties of the heartbeat window *)

Lemma ecg_segment_window_pos (heart_rate : Q) :
  0 < heart_rate ->
  exists onset offset,
    _ecg_segment_window heart_rate = Returns (onset, offset) /\
    onset < 0 /\ 0 < offset /\
    (heart_rate < 80 -> offset - onset == 51 / heart_rate) /\
    (80 <= heart_rate -> offset - onset == 51 / heart_rate + 0.2).
Proof.
  intro Hpos.
  assert (Hm : 0 < heart_rate / 60) by (apply Qlt_shift_div_l; lra).
  assert (Hmz : ~ heart_rate / 60 == 0) by lra.
  assert (Hhz : ~ heart_rate == 0) by lra.
  assert (Hon : -0.35 / (heart_rate / 60) < 0).
  { apply Qlt_shift_div_r; [exact Hm|]. lra. }
  assert (Hoff : 0 < 0.5 / (heart_rate / 60)).
  { apply Qlt_shift_div_l; [exact Hm|]. lra. }
  assert (Hd : 0.5 / (heart_rate / 60) - -0.35 / (heart_rate / 60) == 51 / heart_rate)
    by (field; exact Hhz).
  unfold _ecg_segment_window. rewrite !(py_div_returns _ Hmz). cbn [bind].
  destruct (Qle_bool 80 heart_rate) eqn:E.
  - apply Qle_bool_iff in E. do 2 eexists. split; [reflexivity|].
    split; [lra|]. split; [lra|]. split; [intro; lra|]. intros _. lra.
  - assert (heart_rate < 80).
    { apply Qnot_le_lt. intro L. apply Qle_bool_iff in L. congruence. }
    do 2 eexists. split; [reflexivity|].
    split; [exact Hon|]. split; [exact Hoff|]. split; [intros _; exact Hd|].
    intro; lra.
Qed.



(** ** Heartbeat annotations *)

Lemma clamp_nonneg (l : list Q) :
  Forall (fun o => 0 <= o) (map (fun o => if Qltb o 0 then 0 else o) l).
Proof.
  apply Forall_forall. intros y Hy. apply in_map_iff in Hy as (o & <- & _).
  destruct (Qltb o 0) eqn:E; [apply Qle_refl | now apply Qltb_ge in E].
Qed.

(** X13: [annotate_ecg(what='heartbeats')], once the option check
    passed and [find_ecg_events] returned, with a filter that keeps the
    length of its input: without events it returns empty annotations
    and never calls the window function; with events the average
    pulse is positive, so the window is defined, and the result has
    one annotation per annotation of the events, no onset below 0, and
    one positive duration for all. *)
Theorem heartbeat_annotations_spec (sqrtQ : Q -> Q)
        (filter_data segment_filter : list Q -> list Q)
        (_check_option : string -> string -> list string -> outcome unit)
        (annotations_from_events : list (Z * Z * Z) -> Q -> annotations)
        (fill_str : list string -> string -> list string)
        (ecg : list Q) (segments : list (Z * Z)) (sfreq : Q) (first_samp : Z)
        (tstart : Q) (qrs_threshold : thresh_spec)
        (table : list (Z * Z * Z)) (hr_avg : Q) :
  (forall l, length (filter_data l) = length l) ->
  _check_option "what"%string "heartbeats"%string ["heartbeats"; "r-peaks"]%string
  = Returns tt ->
  find_ecg_events sqrtQ filter_data segment_filter ecg segments sfreq tstart
    qrs_threshold first_samp 999 = Returns (table, hr_avg) ->
  let result :=
    annotate_ecg sqrtQ filter_data segment_filter _check_option
      annotations_from_events fill_str ecg segments sfreq first_samp
      "heartbeats" tstart qrs_threshold in
  let from_events := annotations_from_events table sfreq in
  (table = [] -> result = Returns (Some (mk_annot [] [] []))) /\
  (table <> [] ->
   0 < hr_avg /\
   exists a d,
     result = Returns (Some a) /\
     0 < d /\
     Forall (fun o => 0 <= o) (onset a) /\
     length (onset a) = length (onset from_events) /\
     duration a = map (fun _ => d) (duration from_events)).
Proof.
  intros Hfilter Hcheck Hfind result from_events. subst result.
  unfold annotate_ecg. rewrite Hcheck, Hfind. cbn [bind fst snd]. split.
  - intros ->. reflexivity.
  - intro Hne.
    assert (Hpos : 0 < hr_avg).
    { destruct (@find_ecg_events_seconds _ _ _ Hfilter _ _ _ _ _ _ _ _ _ Hfind)
        as [Hsec ->].
      assert (Hn : 0 < inject_Z (len table)).
      { change 0 with (inject_Z 0). rewrite <- Zlt_Qlt. unfold len.
        destruct table; [contradiction | simpl; lia]. }
      apply Qlt_shift_div_l; [|lra].
      apply Qlt_shift_div_l; lra. }
    split; [exact Hpos|].
    replace (len table * 3 =? 0)%Z with false.
    2:{ symmetry. apply Z.eqb_neq. unfold len.
        destruct table; [contradiction | simpl; lia]. }
    change (String.eqb "heartbeats" "r-peaks") with false.
    change (String.eqb "heartbeats" "heartbeats") with true. cbv iota.
    destruct (ecg_segment_window_pos Hpos) as (on & off & -> & Hon & Hoff & _).
    cbn [bind fst snd].
    eexists. exists (off - on). split; [reflexivity|]. cbn [onset duration].
    split; [lra|]. split; [apply clamp_nonneg|].
    split; [now rewrite !length_map | reflexivity].
Qed.

Lemma heartbeat_annotations_spec_witness :
  (forall l : list Q, length ((fun l : list Q => l) l) = length l) /\
  find_ecg_events (fun q => q) (fun l => l) (fun l => l)
    [1; 0; 1; 0; 0; 0; 0; 0; 0; 0; 0; 1; 0; 0; 0; 0; 3; 0; 0; 0; 1; 0; 0; 0; 1; 1; 1; 0; 0; 0]
    [(0, 10); (15, 30)]%Z 6 0 (ThreshStr "auto") 0 999
  = Returns ([(0, 0, 999); (16, 0, 999); (20, 0, 999); (24, 0, 999)]%Z, 1440 # 25) /\
  exists a,
    annotate_ecg (fun q => q) (fun l => l) (fun l => l)
      (fun _ _ _ => Returns tt)
      (fun events sfreq =>
         mk_annot (map (fun row : Z * Z * Z => inject_Z (fst (fst row)) / sfreq) events)
                  (map (fun _ => 0) events)
                  (map (fun _ => "ECG/R peak"%string) events))
      (fun l s => map (fun _ => s) l)
      [1; 0; 1; 0; 0; 0; 0; 0; 0; 0; 0; 1; 0; 0; 0; 0; 3; 0; 0; 0; 1; 0; 0; 0; 1; 1; 1; 0; 0; 0]
      [(0, 10); (15, 30)]%Z 6 0 "heartbeats" 0 (ThreshStr "auto")
    = Returns (Some a) /\
    Forall (fun o => 0 <= o) (onset a).
Proof.
  assert (Hrun :
    find_ecg_events (fun q => q) (fun l => l) (fun l => l)
      [1; 0; 1; 0; 0; 0; 0; 0; 0; 0; 0; 1; 0; 0; 0; 0; 3; 0; 0; 0; 1; 0; 0; 0; 1; 1; 1; 0; 0; 0]
      [(0, 10); (15, 30)]%Z 6 0 (ThreshStr "auto") 0 999
    = Returns ([(0, 0, 999); (16, 0, 999); (20, 0, 999); (24, 0, 999)]%Z, 1440 # 25))
    by (vm_compute; reflexivity).
  split; [reflexivity|]. split; [exact Hrun|].
  destruct (proj2 (@heartbeat_annotations_spec (fun q => q) (fun l => l) (fun l => l)
                     (fun _ _ _ => Returns tt)
                     (fun events sfreq =>
                        mk_annot
                          (map (fun row : Z * Z * Z => inject_Z (fst (fst row)) / sfreq)
                               events)
                          (map (fun _ => 0) events)
                          (map (fun _ => "ECG/R peak"%string) events))
                     (fun l s => map (fun _ => s) l)
                     _ _ _ _ _ _ _ _ (fun l => eq_refl) eq_refl Hrun)
                  ltac:(discriminate))
    as (_ & a & d & Ha & _ & Hon & _).
  exists a. split; [exact Ha | exact Hon].
Defined.

(** ** Further properties of the scan *)

Lemma nth_error_window (signal : list Q) (windowSize i : Z) (j : nat) (y : Q) :
  (0 <= i)%Z ->
  nth_error (window_at signal windowSize i) j = Some y ->
  nth_error signal (Z.to_nat i + j) = Some y /\ (Z.of_nat j < windowSize)%Z.
Proof.
  intros Hi H. unfold window_at in H. rewrite nth_error_firstn in H.
  destruct (j <? Z.to_nat windowSize)%nat eqn:E; [|discriminate].
  apply Nat.ltb_lt in E. rewrite nth_error_skipn in H. split; [exact H | lia].
Qed.

(** Every peak the recurrence records is a sample above the threshold. *)
Lemma scan_from_above (signal : list Q) (windowSize : Z) (threshold : Q)
      (i : Z) (peaks : list Z) :
  (0 < windowSize)%Z -> (0 <= i)%Z ->
  scan_from signal windowSize threshold i peaks ->
  Forall (fun p => exists v, nth_error signal (Z.to_nat p) = Some v /\ threshold < v)
         peaks.
Proof.
  intros Hw Hi H.
  induction H as [i Hend | i x peaks Hlt Hx Hle _ IH | i x k peaks Hlt Hx Hgt Hmax _ IH].
  - constructor.
  - apply IH. lia.
  - constructor; [|apply IH; lia].
    destruct Hmax as (Hk & v & Hv & Hall & _).
    apply nth_error_window in Hv as [Hv _]; [|exact Hi].
    exists v. split; [now replace (Z.to_nat (i + k)) with (Z.to_nat i + Z.to_nat k)%nat by lia|].
    assert (Hx0 : nth_error (window_at signal windowSize i) 0 = Some x).
    { unfold window_at. rewrite nth_error_firstn.
      replace (0 <? Z.to_nat windowSize)%nat with true
        by (symmetry; apply Nat.ltb_lt; lia).
      rewrite nth_error_skipn. now rewrite Nat.add_0_r. }
    apply Hall in Hx0. lra.
Qed.

(** X14: every event [qrs_detector] returns comes from the run of one
    of the threshold values tried and, taken back by the start offset,
    is a position of the rectified signal; when that signal holds no
    NaN the sample there is above the threshold [init_max * fraction]
    of that very run.  (Positive window size, positions within
    [int64].) *)
Theorem events_exceed_threshold (filter_data : list float -> list float)
        (sum_squared : list float -> float) (np_mean np_std : list float -> float)
        (sfreq : float) (ecg : list float) (thresh_value : B64.thresh_spec)
        (levels : float) (n_thresh : Z) (tstart : float)
        (c : B64.calibrated) (ev : events) :
  B64.calibration filter_data np_mean sfreq ecg tstart = Returns c ->
  (0 < B64.win_size c)%Z ->
  int64 (len (B64.ecg_abs c) + B64.n_samples_start c) = true ->
  Spec64.no_nan (B64.ecg_abs c) ->
  B64.qrs_detector filter_data sum_squared np_mean np_std sfreq ecg thresh_value levels
    n_thresh tstart = Returns ev ->
  exists runs fraction,
    B64.thresh_runs_of thresh_value = Returns runs /\
    In fraction runs /\
    B64.threshold_run sum_squared np_mean np_std (B64.ecg_abs c) (B64.win_size c)
      (B64.init_max c) levels n_thresh (B64.n_samples_start c) fraction
    = Returns ev /\
    Forall (fun e =>
              exists v,
                nth_error (B64.ecg_abs c) (Z.to_nat (e - B64.n_samples_start c)) = Some v /\
                (B64.init_max c * fraction <? v)%float = true)
           (snd ev).
Proof.
  intros Hc Hw Hend Hnan Hq.
  apply qrs_detector64_returns_run in Hq as (c' & runs & fraction & Hc' & Hruns & Hin & Hrun).
  rewrite Hc in Hc'. injection Hc' as <-.
  exists runs, fraction. split; [exact Hruns|]. split; [exact Hin|].
  split; [exact Hrun|].
  pose proof (@threshold_run64_events _ _ _ _ _ _ _ _ _ _ _ Hw Hend Hrun) as Hrec.
  eapply Forall_impl; [|exact Hrec]. intros e [_ Hv]. exact (Hv Hnan).
Qed.

Lemma events_exceed_threshold_witness :
  let ecg := [1; 0; 1; 0; 0; 0; 0; 0; 0; 0; 0; 1; 0; 0; 0; 0; 3; 0; 0; 0;
              1; 0; 0; 0; 1; 1; 1; 0; 0; 0]%float in
  B64.calibration (fun l => l) B64.mean_from_first 6 ecg 1
  = Returns (B64.mk_calibrated 3 6 (skipn 6 ecg) (5 / 3)%float) /\
  B64.qrs_detector (fun l => l) B64.sum_squared_from_first B64.mean_from_first
    B64.std_from_first 6 ecg (B64.ThreshFloat 0.5) 2.5 3 1
  = Returns (Int64, [11; 16; 20; 24]%Z) /\
  Forall (fun e => exists v, nth_error (skipn 6 ecg) (Z.to_nat (e - 6)) = Some v /\
                             (5 / 3 * 0.5 <? v)%float = true)
         [11; 16; 20; 24]%Z.
Proof.
  intro ecg.
  assert (Hc : B64.calibration (fun l => l) B64.mean_from_first 6 ecg 1
               = Returns (B64.mk_calibrated 3 6 (skipn 6 ecg) (5 / 3)%float))
    by (vm_compute; reflexivity).
  assert (Hq : B64.qrs_detector (fun l => l) B64.sum_squared_from_first
                 B64.mean_from_first B64.std_from_first 6 ecg (B64.ThreshFloat 0.5) 2.5 3 1
               = Returns (Int64, [11; 16; 20; 24]%Z)) by (vm_compute; reflexivity).
  split; [exact Hc|]. split; [exact Hq|].
  destruct (@events_exceed_threshold _ _ _ _ _ _ _ _ _ _ _ _ Hc eq_refl eq_refl
              ltac:(vm_compute; repeat constructor) Hq)
    as (runs & fraction & Hruns & Hin & _ & Hall).
  injection Hruns as <-. destruct Hin as [<-|[]]. exact Hall.
Defined.

(** X15: the loop of a threshold run ends: its position grows by at
    least one per pass whenever the calibration let it start, so
    [qrs_detector] and [find_ecg_events] always return or raise and
    never run on. *)
Theorem detection_loops_end (sqrtQ : Q -> Q)
        (filter_data segment_filter : list Q -> list Q)
        (ecg : list Q) (segments : list (Z * Z)) (sfreq tstart : Q)
        (thresh_value : thresh_spec) (levels : Q) (n_thresh first_samp event_id : Z) :
  (forall ecg_abs win_size init_max n_samples_start fraction,
      (0 <= win_size)%Z ->
      threshold_run sqrtQ ecg_abs win_size init_max levels n_thresh
                    n_samples_start fraction <> Diverges) /\
  qrs_detector sqrtQ filter_data sfreq ecg thresh_value levels n_thresh tstart
  <> Diverges /\
  find_ecg_events sqrtQ filter_data segment_filter ecg segments sfreq tstart
    thresh_value first_samp event_id <> Diverges.
Proof.
  split; [|split].
  - intros. now apply threshold_run_terminates.
  - apply qrs_detector_terminates.
  - apply find_ecg_events_terminates.
Qed.

Lemma detection_loops_end_witness :
  (0 <= 3)%Z /\
  threshold_run (fun q => q) [1; 0; 1; 0; 0; 0; 2; 3; 0; 0; 0] 3 1 2.5 3 0 (1 # 2)
  <> Diverges.
Proof.
  split; [lia|].
  apply (proj1 (@detection_loops_end (fun q => q) (fun l => l) (fun l => l)
                  [] [] 1 0 (ThreshFloat 0.6) 2.5 3 0 999)). lia.
Defined.
